(** * ClawDesk board client: a shallow embedding and its checked properties

  The development follows the TypeScript sources of the board client:

  - [frontend/src/api/types.ts]   the data model (module [Api]);
  - [frontend/src/App.tsx]        the dashboard logic (module [App]);
  - [components/board/dnd.ts]     drag-and-drop identifiers (module [Dnd]);
  - the ticket panel's activity list (module [EditTicketPanel]);
  - the server-side automation dispatcher, which is not part of the
    sources at hand and is modelled from the specification (module
    [Dispatcher]).

  JavaScript values are represented as the program uses them: strings as
  [string], ticket ids as [Z], a [Map] that is iterated as an
  insertion-ordered association list, a [Set] or [Map] that is only
  queried as a [gset] or [gmap]. *)

From Stdlib Require Import ZArith Ascii String List Lia Bool.
From Stdlib Require Import Sorting.Permutation Sorting.Sorted.
From Stdlib Require Import DecimalString DecimalZ DecimalN DecimalPos.
From stdpp Require Import gmap strings list.

Set Warnings "-register-all".
Local Open Scope Z_scope.
Local Open Scope string_scope.

(* ===================================================================== *)
(** * Part I: definitions *)
(* ===================================================================== *)

(** ** JavaScript built-ins used by the sources *)

Module Js.

(** [raw.startsWith(prefix)] *)
Fixpoint startsWith (prefix raw : string) : bool :=
  match prefix, raw with
  | EmptyString, _ => true
  | String a p, String b r => Ascii.eqb a b && startsWith p r
  | String _ _, EmptyString => false
  end.

(** [raw.slice(n)] for [0 <= n]: the string without its first [n]
    characters (empty when the string is shorter). *)
Fixpoint slice (n : nat) (raw : string) : string :=
  match n, raw with
  | O, _ => raw
  | S k, String _ r => slice k r
  | S _, EmptyString => EmptyString
  end.

(** [items.includes(x)] on an array of strings. *)
Definition includes (x : string) (items : list string) : bool :=
  existsb (String.eqb x) items.

(** Truthiness of a string: every string but the empty one. *)
Definition truthyString (s : string) : bool :=
  negb (String.eqb s EmptyString).

(** A number: either not-a-number, an infinity, or the finite value
    [m * 2^e] (binary64 after rounding; the sign of zero is not kept). *)
Inductive Number : Type :=
| NaN
| Infinity (negative : bool)
| Fin (m : Z) (e : Z).

(** A JavaScript value as [JSON.parse] can produce it, plus [undefined].
    An object lists its own properties in definition order; a later
    binding of a key shadows an earlier one. *)
Inductive Value : Type :=
| Undefined
| Null
| Boolean (b : bool)
| Num (n : Number)
| Str (s : string)
| Array (items : list Value)
| Object (props : list (string * Value)).

(** The [typeof] operator. *)
Definition typeof (v : Value) : string :=
  match v with
  | Undefined => "undefined"
  | Null => "object"
  | Boolean _ => "boolean"
  | Num _ => "number"
  | Str _ => "string"
  | Array _ => "object"
  | Object _ => "object"
  end.

(** [ToBoolean]. *)
Definition truthy (v : Value) : bool :=
  match v with
  | Undefined => false
  | Null => false
  | Boolean b => b
  | Num NaN => false
  | Num (Infinity _) => true
  | Num (Fin m _) => negb (Z.eqb m 0)
  | Str s => truthyString s
  | Array _ => true
  | Object _ => true
  end.

(** Own-property lookup in a property list: the last binding wins. *)
Fixpoint lookupProp (key : string) (props : list (string * Value)) : option Value :=
  match props with
  | [] => None
  | (k, v) :: rest =>
      match lookupProp key rest with
      | Some w => Some w
      | None => if String.eqb k key then Some v else None
      end
  end.

(** [v.key] for a key that no prototype defines; a missing property
    reads as [undefined]. *)
Definition getProp (v : Value) (key : string) : Value :=
  match v with
  | Object props =>
      match lookupProp key props with
      | Some w => w
      | None => Undefined
      end
  | _ => Undefined
  end.

(** *** Numbers and their string conversions *)

(** [String(n)] and [`${n}`] for an integer [n] that the program holds
    exactly, [|n| < 2^53]: the decimal digits, after a minus sign for a
    negative number. *)
Definition numberToString (n : Z) : string :=
  NilZero.string_of_int (Z.to_int n).

(** Rounding [a / b] ([0 <= a], [0 < b]) to the nearest integer, ties to
    the even one. *)
Definition roundHalfEven (a b : Z) : Z :=
  let q := (a / b)%Z in
  let r := (a mod b)%Z in
  if (2 * r <? b)%Z then q
  else if (b <? 2 * r)%Z then (q + 1)%Z
  else if Z.even q then q else (q + 1)%Z.

(** [floor (log2 (n / d))] for [0 < n] and [0 < d]. *)
Definition floorLog2 (n d : Z) : Z :=
  let e0 := (Z.log2 n - Z.log2 d)%Z in
  let reached :=
    if (0 <=? e0)%Z then (d * 2 ^ e0 <=? n)%Z else (d <=? n * 2 ^ (- e0))%Z in
  if reached then e0 else (e0 - 1)%Z.

(** The binary64 value nearest to the rational [n / d] ([0 <= n],
    [0 < d]), with the given sign: 53 significant bits, exponents down to
    the subnormal range, overflow to an infinity. *)
Definition toDouble (negative : bool) (n d : Z) : Number :=
  if (n =? 0)%Z then Fin 0 0
  else
    let e := Z.max (floorLog2 n d) (-1022) in
    let p := (e - 52)%Z in
    let m :=
      if (0 <=? p)%Z then roundHalfEven n (d * 2 ^ p)
      else roundHalfEven (n * 2 ^ (- p)) d in
    if (1024 <=? Z.log2 m + p)%Z then Infinity negative
    else Fin (if negative then (- m)%Z else m) p.

(** [Number.isInteger(v)] *)
Definition isInteger (v : Number) : bool :=
  match v with
  | NaN => false
  | Infinity _ => false
  | Fin m e => if (0 <=? e)%Z then true else (m mod 2 ^ (- e) =? 0)%Z
  end.

(** The integer a number is, when [isInteger] holds of it. *)
Definition integerValue (v : Number) : Z :=
  match v with
  | NaN => 0
  | Infinity _ => 0
  | Fin m e => if (0 <=? e)%Z then (m * 2 ^ e)%Z else (m / 2 ^ (- e))%Z
  end.

(** White space of the [StringToNumber] grammar among the code units
    below 256: TAB, LF, VT, FF, CR, the space and the no-break space. *)
Definition isWhiteSpace (c : ascii) : bool :=
  let n := N_of_ascii c in
  ((9 <=? n) && (n <=? 13) || (n =? 32) || (n =? 160))%N.

Fixpoint trimStart (cs : list ascii) : list ascii :=
  match cs with
  | c :: rest => if isWhiteSpace c then trimStart rest else cs
  | [] => []
  end.

Definition trim (cs : list ascii) : list ascii :=
  rev (trimStart (rev (trimStart cs))).

Definition decimalDigit (c : ascii) : option Z :=
  let n := Z.of_N (N_of_ascii c) in
  if ((48 <=? n) && (n <=? 57))%Z then Some (n - 48)%Z else None.

Definition hexDigit (c : ascii) : option Z :=
  let n := Z.of_N (N_of_ascii c) in
  if ((48 <=? n) && (n <=? 57))%Z then Some (n - 48)%Z
  else if ((97 <=? n) && (n <=? 102))%Z then Some (n - 87)%Z
  else if ((65 <=? n) && (n <=? 70))%Z then Some (n - 55)%Z
  else None.

Definition octalDigit (c : ascii) : option Z :=
  let n := Z.of_N (N_of_ascii c) in
  if ((48 <=? n) && (n <=? 55))%Z then Some (n - 48)%Z else None.

Definition binaryDigit (c : ascii) : option Z :=
  let n := Z.of_N (N_of_ascii c) in
  if ((48 <=? n) && (n <=? 49))%Z then Some (n - 48)%Z else None.

(** The longest run of digits at the front of the input, and what
    follows it. *)
Fixpoint takeDigits (digit : ascii -> option Z) (cs : list ascii)
  : list Z * list ascii :=
  match cs with
  | c :: rest =>
      match digit c with
      | Some d => let (ds, r) := takeDigits digit rest in (d :: ds, r)
      | None => ([], cs)
      end
  | [] => ([], [])
  end.

(** The value of a digit sequence, most significant digit first. *)
Definition horner (radix : Z) (ds : list Z) : Z :=
  fold_left (fun acc d => (radix * acc + d)%Z) ds 0%Z.

Definition isChar (c lower upper : ascii) : bool :=
  Ascii.eqb c lower || Ascii.eqb c upper.

(** [ExponentPart], optional, up to the end of the input. *)
Definition parseExponent (cs : list ascii) : option Z :=
  match cs with
  | [] => Some 0%Z
  | c :: rest =>
      if isChar c "e" "E" then
        let (negative, body) :=
          match rest with
          | s :: r =>
              if Ascii.eqb s "-" then (true, r)
              else if Ascii.eqb s "+" then (false, r)
              else (false, rest)
          | [] => (false, rest)
          end in
        match takeDigits decimalDigit body with
        | (d :: ds, []) =>
            let v := horner 10 (d :: ds) in
            Some (if negative then (- v)%Z else v)
        | _ => None
        end
      else None
  end.

(** [StrUnsignedDecimalLiteral] other than [Infinity]: the digits [m]
    and the power of ten [k] of the value [m * 10^k]. *)
Definition parseUnsignedDecimal (cs : list ascii) : option (Z * Z) :=
  let (ip, r1) := takeDigits decimalDigit cs in
  let withDot (r2 : list ascii) :=
    let (fp, r3) := takeDigits decimalDigit r2 in
    match ip, fp with
    | [], [] => None
    | _, _ =>
        match parseExponent r3 with
        | Some e => Some (horner 10 (ip ++ fp), (e - Z.of_nat (List.length fp))%Z)
        | None => None
        end
    end in
  let withoutDot :=
    match ip with
    | [] => None
    | _ =>
        match parseExponent r1 with
        | Some e => Some (horner 10 ip, e)
        | None => None
        end
    end in
  match r1 with
  | c :: r2 => if Ascii.eqb c "." then withDot r2 else withoutDot
  | [] => withoutDot
  end.

(** [StrDecimalLiteral]: an optional sign, then [Infinity] or an
    unsigned decimal literal. *)
Definition parseSignedDecimal (cs : list ascii) : Number :=
  let (negative, body) :=
    match cs with
    | s :: r =>
        if Ascii.eqb s "-" then (true, r)
        else if Ascii.eqb s "+" then (false, r)
        else (false, cs)
    | [] => (false, cs)
    end in
  if String.eqb (string_of_list_ascii body) "Infinity" then Infinity negative
  else
    match parseUnsignedDecimal body with
    | Some (m, k) =>
        if (0 <=? k)%Z then toDouble negative (m * 10 ^ k) 1
        else toDouble negative m (10 ^ (- k))
    | None => NaN
    end.

(** [NonDecimalIntegerLiteral] after its two-character prefix. *)
Definition parseNonDecimal (digit : ascii -> option Z) (radix : Z)
  (cs : list ascii) : Number :=
  match takeDigits digit cs with
  | (d :: ds, []) => toDouble false (horner radix (d :: ds)) 1
  | _ => NaN
  end.

(** [Number(s)] for a string [s] ([StringToNumber]): white space is
    trimmed, the empty string is zero, and what is not a numeric literal
    is not-a-number. *)
Definition stringToNumber (s : string) : Number :=
  let cs := trim (list_ascii_of_string s) in
  match cs with
  | [] => Fin 0 0
  | c0 :: c1 :: rest =>
      if Ascii.eqb c0 "0" && isChar c1 "x" "X" then parseNonDecimal hexDigit 16 rest
      else if Ascii.eqb c0 "0" && isChar c1 "o" "O" then parseNonDecimal octalDigit 8 rest
      else if Ascii.eqb c0 "0" && isChar c1 "b" "B" then parseNonDecimal binaryDigit 2 rest
      else parseSignedDecimal cs
  | _ => parseSignedDecimal cs
  end.

(** [Number.MAX_SAFE_INTEGER] and [Number.isSafeInteger]: the integers
    every one of which is a number of its own. *)
Definition MAX_SAFE_INTEGER : Z := (2 ^ 53 - 1)%Z.

Definition isSafeInteger (n : Z) : Prop :=
  (- MAX_SAFE_INTEGER <= n <= MAX_SAFE_INTEGER)%Z.

(** The characters [0] to [9]. *)
Definition isDecimalDigit (c : ascii) : Prop := exists v, decimalDigit c = Some v.

End Js.

(** ** [frontend/src/api/types.ts] *)

Module Api.

Inductive TicketStatus : Type := Plan | Todo | InProgress | Review | Done.
Inductive TicketPriority : Type := Critical | High | Medium | Low.

(** The string each status is at run time. *)
Definition statusString (s : TicketStatus) : string :=
  match s with
  | Plan => "Plan"
  | Todo => "Todo"
  | InProgress => "In Progress"
  | Review => "Review"
  | Done => "Done"
  end.

Definition TicketStatus_eqb (a b : TicketStatus) : bool :=
  String.eqb (statusString a) (statusString b).

Record Ticket : Type := mkTicket {
  id : Z;
  title : string;
  description : string;
  status : TicketStatus;
  assignee : string;
  priority : TicketPriority;
  agent_session_key : option string;
  archived_at : option string;
  created_at : string;
  updated_at : string;
}.

Record TicketComment : Type := mkTicketComment {
  comment_id : Z;
  comment_ticket_id : Z;
  author : string;
  content : string;
  comment_created_at : string;
}.

Record TicketEvent : Type := mkTicketEvent {
  event_id : Z;
  event_ticket_id : Z;
  event_type : string;
  actor : option string;
  details : string;
  event_created_at : string;
}.

Record CreateTicketRequest : Type := mkCreateTicketRequest {
  req_title : string;
  req_description : option string;
  req_assignee : option string;
  req_priority : option TicketPriority;
}.

Record UpdateTicketRequest : Type := mkUpdateTicketRequest {
  upd_title : option string;
  upd_description : option string;
  upd_assignee : option string;
  upd_priority : option TicketPriority;
}.

Record MoveTicketRequest : Type := mkMoveTicketRequest {
  move_status : TicketStatus;
  move_actor : option string;
}.

Record PickupResult : Type := mkPickupResult {
  attempted : bool;
  spawned : bool;
  agent_id : option string;
  session_key : option string;
  run_id : option string;
  reason : option string;
}.

Record MoveTicketResponse : Type := mkMoveTicketResponse {
  ok : bool;
  ticket : Ticket;
  from : TicketStatus;
  to : TicketStatus;
  pickup : PickupResult;
  warnings : list string;
}.

End Api.

(** ** An insertion-ordered [Map<number, V>]

    [Array.from(map.values())] and [map.entries()] enumerate a [Map] in
    insertion order, so a map that is iterated is kept as the list of its
    entries, oldest first.  Every [Map] is a list with distinct keys
    ([wf]); the operations below keep that property. *)

Module JsMap.

Definition t (V : Type) : Type := list (Z * V).

Section Operations.
Context {V : Type}.

Definition empty : t V := [].

(** [map.get(k)] *)
Fixpoint get (m : t V) (k : Z) : option V :=
  match m with
  | [] => None
  | (k', v') :: rest => if Z.eqb k' k then Some v' else get rest k
  end.

(** [map.has(k)] *)
Definition has (m : t V) (k : Z) : bool :=
  match get m k with
  | Some _ => true
  | None => false
  end.

(** [map.set(k, v)]: an existing key keeps its position, a new key goes
    to the end. *)
Fixpoint set (m : t V) (k : Z) (v : V) : t V :=
  match m with
  | [] => [(k, v)]
  | (k', v') :: rest =>
      if Z.eqb k' k then (k', v) :: rest else (k', v') :: set rest k v
  end.

(** [map.delete(k)] *)
Definition delete (m : t V) (k : Z) : t V :=
  List.filter (fun entry => negb (Z.eqb (fst entry) k)) m.

(** [map.keys()], [map.values()], [map.entries()] *)
Definition keys (m : t V) : list Z := List.map fst m.
Definition values (m : t V) : list V := List.map snd m.
Definition entries (m : t V) : list (Z * V) := m.

(** The entry lists that are maps: no key twice. *)
Definition wf (m : t V) : Prop := List.NoDup (keys m).

End Operations.

End JsMap.

(** ** [frontend/src/App.tsx] *)

Module App.
Import Api.

(** *** Realtime payloads *)

Definition REALTIME_REFRESH_EVENT_TYPES : gset string :=
  list_to_set
    [ "ticket_created"; "ticket_updated"; "ticket_moved";
      "ticket_archived"; "comment_added"; "ticket_event" ].

Definition shouldRefetchFromRealtimePayload (payload : Js.Value) : bool :=
  if negb (Js.truthy payload) || negb (String.eqb (Js.typeof payload) "object")
  then false
  else
    let type := Js.getProp payload "type" in
    String.eqb (Js.typeof type) "string"
    && match type with
       | Js.Str tag => bool_decide (tag ∈ REALTIME_REFRESH_EVENT_TYPES)
       | _ => false
       end.

(** *** The dashboard's tickets *)

Definition mergeTickets (serverTickets pendingTickets : list Ticket)
  (optimisticTickets : JsMap.t Ticket) : list Ticket :=
  let map := JsMap.empty in
  let map := fold_left (fun m ticket => JsMap.set m (id ticket) ticket) pendingTickets map in
  let map := fold_left (fun m ticket => JsMap.set m (id ticket) ticket) serverTickets map in
  let map :=
    fold_left (fun m entry => JsMap.set m (fst entry) (snd entry))
      (JsMap.entries optimisticTickets) map in
  JsMap.values map.

Definition collectMoveWarnings (response : MoveTicketResponse) : list string :=
  let warnings := warnings response in
  match reason (pickup response) with
  | Some why =>
      if negb (spawned (pickup response))
         && Js.truthyString why
         && negb (Js.includes why warnings)
      then warnings ++ [why]
      else warnings
  | None => warnings
  end.

(** The state [DashboardPage] keeps with [useState]. *)
Record Board : Type := mkBoard {
  optimisticTickets : JsMap.t Ticket;
  movingTicketIds : gset Z;
  archivingTicketIds : gset Z;
  warningByTicketId : gmap Z (list string);
  activeDragTicketId : option Z;
  editingTicketId : option Z;
}.

Definition initialBoard : Board :=
  {| optimisticTickets := JsMap.empty;
     movingTicketIds := ∅;
     archivingTicketIds := ∅;
     warningByTicketId := ∅;
     activeDragTicketId := None;
     editingTicketId := None |}.

(** One render of the page: what the closures of that render see.
    [ticketsQuery_data] is [null] until the first answer arrives. *)
Record Render : Type := mkRender {
  ticketsQuery_data : option (list Ticket);
  pendingTickets : list Ticket;
  board : Board;
}.

Definition isNull {A : Type} (v : option A) : bool :=
  match v with
  | None => true
  | Some _ => false
  end.

Definition boardTickets (view : Render) : list Ticket :=
  List.filter (fun ticket => isNull (archived_at ticket))
    (mergeTickets
       (match ticketsQuery_data view with Some data => data | None => [] end)
       (pendingTickets view)
       (optimisticTickets (board view))).

Definition ticketById (view : Render) : JsMap.t Ticket :=
  fold_left (fun m ticket => JsMap.set m (id ticket) ticket)
    (boardTickets view) JsMap.empty.

(** *** Event handlers

    A handler is an [async] function: it runs up to an [await], is
    resumed with the answer, and so on.  Its state changes are functional
    updates, applied to the state current at that moment, while its
    guards read the render it was created in. *)

Inductive Tone : Type := success | warning | error.

Inductive MoveOutcome : Type :=
| MoveResolved (response : MoveTicketResponse)
| MoveRejected (message : string).

Inductive UpdateOutcome : Type :=
| UpdateResolved (updated : Ticket)
| UpdateRejected (message : string).

Inductive Task : Type :=
| Return
| Rethrow (message : string)
| SetState (update : Board -> Board) (next : Task)
| Notify (tone : Tone) (message : string) (next : Task)
| AwaitMove (ticketId : Z) (input : MoveTicketRequest) (resume : MoveOutcome -> Task)
| AwaitUpdate (ticketId : Z) (input : UpdateTicketRequest) (resume : UpdateOutcome -> Task)
| AwaitRefetch (next : Task).

Definition setOptimisticTickets (f : JsMap.t Ticket -> JsMap.t Ticket) (b : Board) : Board :=
  {| optimisticTickets := f (optimisticTickets b);
     movingTicketIds := movingTicketIds b;
     archivingTicketIds := archivingTicketIds b;
     warningByTicketId := warningByTicketId b;
     activeDragTicketId := activeDragTicketId b;
     editingTicketId := editingTicketId b |}.

Definition setMovingTicketIds (f : gset Z -> gset Z) (b : Board) : Board :=
  {| optimisticTickets := optimisticTickets b;
     movingTicketIds := f (movingTicketIds b);
     archivingTicketIds := archivingTicketIds b;
     warningByTicketId := warningByTicketId b;
     activeDragTicketId := activeDragTicketId b;
     editingTicketId := editingTicketId b |}.

Definition setWarningByTicketId
  (f : gmap Z (list string) -> gmap Z (list string)) (b : Board) : Board :=
  {| optimisticTickets := optimisticTickets b;
     movingTicketIds := movingTicketIds b;
     archivingTicketIds := archivingTicketIds b;
     warningByTicketId := f (warningByTicketId b);
     activeDragTicketId := activeDragTicketId b;
     editingTicketId := editingTicketId b |}.

Definition setEditingTicketId (v : option Z) (b : Board) : Board :=
  {| optimisticTickets := optimisticTickets b;
     movingTicketIds := movingTicketIds b;
     archivingTicketIds := archivingTicketIds b;
     warningByTicketId := warningByTicketId b;
     activeDragTicketId := activeDragTicketId b;
     editingTicketId := v |}.

(** The update [previous => previous.has(k) ? (copy without k) : previous]
    on the optimistic map, on a set and on the warning map. *)
Definition dropOptimistic (ticketId : Z) (previous : JsMap.t Ticket) : JsMap.t Ticket :=
  if negb (JsMap.has previous ticketId) then previous
  else JsMap.delete previous ticketId.

Definition dropId (ticketId : Z) (previous : gset Z) : gset Z :=
  if negb (bool_decide (ticketId ∈ previous)) then previous
  else previous ∖ {[ ticketId ]}.

Definition dropWarning (ticketId : Z) (previous : gmap Z (list string))
  : gmap Z (list string) :=
  if negb (bool_decide (is_Some (previous !! ticketId))) then previous
  else base.delete ticketId previous.

Definition moveTicket (view : Render) (ticketId : Z) (targetStatus : TicketStatus)
  (now : string) : Task :=
  match JsMap.get (ticketById view) ticketId with
  | None => Return
  | Some currentTicket =>
      if (id currentTicket <? 0)%Z then
        Notify warning "Wait for ticket creation to finish before moving it." Return
      else if TicketStatus_eqb (status currentTicket) targetStatus then Return
      else if bool_decide (ticketId ∈ movingTicketIds (board view)) then Return
      else
        let optimisticTicket :=
          {| id := id currentTicket;
             title := title currentTicket;
             description := description currentTicket;
             status := targetStatus;
             assignee := assignee currentTicket;
             priority := priority currentTicket;
             agent_session_key := agent_session_key currentTicket;
             archived_at := archived_at currentTicket;
             created_at := created_at currentTicket;
             updated_at := now |} in
        let finally :=
          SetState (setMovingTicketIds (dropId ticketId)) Return in
        SetState (setOptimisticTickets
                    (fun previous => JsMap.set previous ticketId optimisticTicket))
       (SetState (setMovingTicketIds (fun previous => {[ ticketId ]} ∪ previous))
       (AwaitMove ticketId {| move_status := targetStatus; move_actor := Some "User" |}
          (fun outcome =>
             match outcome with
             | MoveResolved response =>
                 SetState (setOptimisticTickets
                             (fun previous => JsMap.set previous ticketId (ticket response)))
                   (let warningMessages := collectMoveWarnings response in
                    let afterNotice :=
                      AwaitRefetch
                        (SetState (setOptimisticTickets (dropOptimistic ticketId)) finally) in
                    match warningMessages with
                    | first :: _ =>
                        SetState (setWarningByTicketId
                                    (fun previous => <[ ticketId := warningMessages ]> previous))
                          (Notify warning
                             ("Moved TASK-" ++ Js.numberToString ticketId
                              ++ " with warning: " ++ first)
                             afterNotice)
                    | [] =>
                        SetState (setWarningByTicketId (dropWarning ticketId))
                          (Notify success
                             ("Moved TASK-" ++ Js.numberToString ticketId ++ " to "
                              ++ statusString targetStatus ++ ".")
                             afterNotice)
                    end)
             | MoveRejected message =>
                 SetState (setOptimisticTickets (dropOptimistic ticketId))
                   (Notify error
                      ("Move failed for TASK-" ++ Js.numberToString ticketId ++ ": " ++ message)
                      finally)
             end)))
  end.

Definition orElse {A : Type} (v : option A) (fallback : A) : A :=
  match v with
  | Some a => a
  | None => fallback
  end.

Definition handleSubmitEditTicket (view : Render) (ticketId : Z)
  (input : UpdateTicketRequest) (now : string) : Task :=
  match JsMap.get (ticketById view) ticketId with
  | None => Return
  | Some current =>
      let optimisticUpdated :=
        {| id := id current;
           title := orElse (upd_title input) (title current);
           description := orElse (upd_description input) (description current);
           status := status current;
           assignee := orElse (upd_assignee input) (assignee current);
           priority := orElse (upd_priority input) (priority current);
           agent_session_key := agent_session_key current;
           archived_at := archived_at current;
           created_at := created_at current;
           updated_at := now |} in
      SetState (setOptimisticTickets
                  (fun previous => JsMap.set previous ticketId optimisticUpdated))
     (AwaitUpdate ticketId input
        (fun outcome =>
           match outcome with
           | UpdateResolved updated =>
               SetState (setOptimisticTickets
                           (fun previous => JsMap.set previous ticketId updated))
              (SetState (setEditingTicketId None)
              (Notify success ("Saved TASK-" ++ Js.numberToString (id updated) ++ ".")
              (AwaitRefetch
              (SetState (setOptimisticTickets (dropOptimistic ticketId)) Return))))
           | UpdateRejected message =>
               SetState (setOptimisticTickets (dropOptimistic ticketId))
              (Notify error
                 ("Save failed for TASK-" ++ Js.numberToString ticketId ++ ": " ++ message)
              (Rethrow message))
           end))
  end.

(** *** Running a handler *)

(** Where a handler stands once it has run as far as it can. *)
Inductive Pending : Type :=
| Settled (thrown : option string)
| PendingMove (ticketId : Z) (input : MoveTicketRequest) (resume : MoveOutcome -> Task)
| PendingUpdate (ticketId : Z) (input : UpdateTicketRequest) (resume : UpdateOutcome -> Task)
| PendingRefetch (next : Task).

(** Run a handler up to its next [await] (or its end), from the current
    state: the state it leaves, the notices it raised, where it stands. *)
Fixpoint advance (task : Task) (b : Board) : Board * list (Tone * string) * Pending :=
  match task with
  | Return => (b, [], Settled None)
  | Rethrow message => (b, [], Settled (Some message))
  | SetState update next => advance next (update b)
  | Notify tone message next =>
      let '(b', notices, p) := advance next b in
      (b', (tone, message) :: notices, p)
  | AwaitMove ticketId input resume => (b, [], PendingMove ticketId input resume)
  | AwaitUpdate ticketId input resume => (b, [], PendingUpdate ticketId input resume)
  | AwaitRefetch next => (b, [], PendingRefetch next)
  end.

(** What a handler does to the outside. *)
Inductive Effect : Type :=
| Notified (tone : Tone) (message : string)
| MoveRequested (ticketId : Z) (input : MoveTicketRequest)
| UpdateRequested (ticketId : Z) (input : UpdateTicketRequest)
| Refetched.

(** Run a handler to its end with nothing else in between, the server
    answering each request as [onMove] and [onUpdate] say. *)
Fixpoint run (onMove : Z -> MoveTicketRequest -> MoveOutcome)
  (onUpdate : Z -> UpdateTicketRequest -> UpdateOutcome)
  (task : Task) (b : Board) : Board * list Effect :=
  match task with
  | Return => (b, [])
  | Rethrow _ => (b, [])
  | SetState update next => run onMove onUpdate next (update b)
  | Notify tone message next =>
      let (b', effects) := run onMove onUpdate next b in
      (b', Notified tone message :: effects)
  | AwaitMove ticketId input resume =>
      let (b', effects) := run onMove onUpdate (resume (onMove ticketId input)) b in
      (b', MoveRequested ticketId input :: effects)
  | AwaitUpdate ticketId input resume =>
      let (b', effects) := run onMove onUpdate (resume (onUpdate ticketId input)) b in
      (b', UpdateRequested ticketId input :: effects)
  | AwaitRefetch next =>
      let (b', effects) := run onMove onUpdate next b in
      (b', Refetched :: effects)
  end.

(** The move requests among the effects. *)
Definition moveRequests (effects : list Effect) : list (Z * MoveTicketRequest) :=
  flat_map (fun e =>
              match e with
              | MoveRequested ticketId input => [(ticketId, input)]
              | _ => []
              end) effects.

(** *** Creating a ticket ([AppShell]) *)

Definition temporaryTicket (payload : CreateTicketRequest) (nowMs : Z) (now : string)
  : Ticket :=
  {| id := (- nowMs)%Z;
     title := req_title payload;
     description := orElse (req_description payload) EmptyString;
     status := Plan;
     assignee := orElse (req_assignee payload) "Unassigned";
     priority := orElse (req_priority payload) Medium;
     agent_session_key := None;
     archived_at := None;
     created_at := now;
     updated_at := now |}.

(** The first steps of [handleCreateTicket]: the placeholder goes to the
    front of the pending tickets, and a notice announces it. *)
Definition handleCreateTicket (payload : CreateTicketRequest) (nowMs : Z) (now : string)
  (existing : list Ticket) : list Ticket * (Tone * string) :=
  (temporaryTicket payload nowMs now :: existing,
   (success, "Creating " ++ String (ascii_of_nat 34) (req_title payload)
             ++ String (ascii_of_nat 34) " in Plan...")).

(** *** Notions the properties are stated with *)

(** The last ticket of a list that bears a given id. *)
Definition lastWithId (i : Z) (tickets : list Ticket) : option Ticket :=
  List.find (fun t => Z.eqb (id t) i) (rev tickets).

(** Every entry is stored under the id of its own ticket. *)
Definition keyedById (m : JsMap.t Ticket) : Prop :=
  forall k t, In (k, t) m -> id t = k.

(** The map [mergeTickets] builds before it lists its values. *)
Definition mergedMap (serverTickets pendingTickets : list Ticket)
  (optimistic : JsMap.t Ticket) : JsMap.t Ticket :=
  fold_left (fun m entry => JsMap.set m (fst entry) (snd entry)) optimistic
    (fold_left (fun m t => JsMap.set m (id t) t) serverTickets
       (fold_left (fun m t => JsMap.set m (id t) t) pendingTickets JsMap.empty)).

(** The view a render has once the state has become [b]. *)
Definition withBoard (view : Render) (b : Board) : Render :=
  {| ticketsQuery_data := ticketsQuery_data view;
     pendingTickets := pendingTickets view;
     board := b |}.

End App.

(** ** The second copy of the dashboard ([src/unnamed/part_008])

    Its [moveTicket], [mergeTickets], [collectMoveWarnings], board
    tickets and realtime filter are those of [App.tsx], line for line; its
    [handleCreateTicket] is not. *)

Module Part008.
Import Api.

Definition temporaryTicket (payload : CreateTicketRequest) (nowMs : Z) (now : string)
  : Ticket :=
  {| id := (- nowMs)%Z;
     title := req_title payload;
     description := App.orElse (req_description payload) EmptyString;
     status := Todo;
     assignee := App.orElse (req_assignee payload) "Unassigned";
     priority := App.orElse (req_priority payload) Medium;
     agent_session_key := None;
     archived_at := None;
     created_at := now;
     updated_at := now |}.

Definition handleCreateTicket (payload : CreateTicketRequest) (nowMs : Z) (now : string)
  (existing : list Ticket) : list Ticket * (App.Tone * string) :=
  (temporaryTicket payload nowMs now :: existing,
   (App.success, "Creating " ++ String (ascii_of_nat 34) (req_title payload)
                 ++ String (ascii_of_nat 34) " in Todo...")).

End Part008.

(** ** [components/board/dnd.ts] ([src/unnamed/part_003]) *)

Module Dnd.
Import Api.

Definition TICKET_ID_PREFIX : string := "ticket:".
Definition LANE_ID_PREFIX : string := "lane:".
Definition BOARD_STATUSES : list TicketStatus := [Todo; Plan; InProgress; Review; Done].

Definition ticketItemId (ticketId : Z) : string :=
  TICKET_ID_PREFIX ++ Js.numberToString ticketId.

Definition laneDropId (status : TicketStatus) : string :=
  LANE_ID_PREFIX ++ statusString status.

Definition parseTicketItemId (raw : string) : option Z :=
  if negb (Js.startsWith TICKET_ID_PREFIX raw) then None
  else
    let value := Js.stringToNumber (Js.slice (String.length TICKET_ID_PREFIX) raw) in
    if Js.isInteger value then Some (Js.integerValue value) else None.

Definition parseLaneDropId (raw : string) : option TicketStatus :=
  if negb (Js.startsWith LANE_ID_PREFIX raw) then None
  else
    let value := Js.slice (String.length LANE_ID_PREFIX) raw in
    List.find (fun status => String.eqb (statusString status) value) BOARD_STATUSES.

End Dnd.

(** ** The ticket panel's activity list ([src/unnamed/part_002]) *)

Module EditTicketPanel.
Import Api.

Record TicketActivityEntry : Type := mkEntry {
  entry_id : string;
  createdAt : string;
  entry_title : string;
  entry_detail : string;
}.

(** [value.split('_')] *)
Fixpoint splitUnderscore (value : string) : list string :=
  match value with
  | EmptyString => [EmptyString]
  | String c rest =>
      if Ascii.eqb c "_" then EmptyString :: splitUnderscore rest
      else
        match splitUnderscore rest with
        | segment :: segments => String c segment :: segments
        | [] => [String c EmptyString]
        end
  end.

(** [toUpperCase] of one code unit below 256 whose capital is one code
    unit below 256: the letters a to z and the small letters of Latin-1
    (U+00E0 to U+00FE but the sign U+00F7) go 32 down.  The sharp s
    (U+00DF) becomes two letters, see [capitalize]; the micro sign
    (U+00B5) and the y with diaeresis (U+00FF) have their capitals beyond
    255 and are not covered. *)
Definition toUpperCase (c : ascii) : ascii :=
  let n := N_of_ascii c in
  if ((97 <=? n) && (n <=? 122) || (224 <=? n) && (n <=? 254) && negb (n =? 247))%N
  then ascii_of_N (n - 32)
  else c.

(** [segment.charAt(0).toUpperCase() + segment.slice(1)] *)
Definition capitalize (segment : string) : string :=
  match segment with
  | EmptyString => EmptyString
  | String c rest =>
      if (N_of_ascii c =? 223)%N then String "S" (String "S" rest)
      else String (toUpperCase c) rest
  end.

Definition formatEventType (value : string) : string :=
  String.concat " "
    (List.map capitalize
       (List.filter Js.truthyString (splitUnderscore value))).

Definition formatActivityEvent (event : TicketEvent) : string * string :=
  (formatEventType (event_type event),
   if Js.truthyString (details event) then details event
   else App.orElse (actor event) "System" ++ " updated this ticket.").

Definition eventEntry (event : TicketEvent) : TicketActivityEntry :=
  {| entry_id := "event-" ++ Js.numberToString (event_id event);
     createdAt := event_created_at event;
     entry_title := fst (formatActivityEvent event);
     entry_detail := snd (formatActivityEvent event) |}.

Definition commentEntry (comment : TicketComment) : TicketActivityEntry :=
  {| entry_id := "comment-" ++ Js.numberToString (comment_id comment);
     createdAt := comment_created_at comment;
     entry_title :=
       "Comment by " ++ (if Js.truthyString (author comment) then author comment else "User");
     entry_detail :=
       if Js.truthyString (content comment) then content comment
       else "No comment content." |}.

Section Sorting.

(** [Array.prototype.sort(comparefn)]: the language asks for a stable
    sort, which fixes the result whenever the comparator is a consistent
    ordering; it is taken to be the stable insertion sort.  Only the sign
    of what the comparator returns is used. *)
Context {A : Type} (comparefn : A -> A -> Z).

Fixpoint insertSorted (x : A) (sorted : list A) : list A :=
  match sorted with
  | [] => [x]
  | y :: rest =>
      if (comparefn x y <=? 0)%Z then x :: y :: rest
      else y :: insertSorted x rest
  end.

Fixpoint sort (items : list A) : list A :=
  match items with
  | [] => []
  | x :: rest => insertSorted x (sort rest)
  end.

End Sorting.

Section Activity.

(** [Date.parse]: the time in milliseconds, or nothing where the engine
    answers [NaN]; and [a.localeCompare(b)].  Both belong to the engine
    and its locale. *)
Variable Date_parse : string -> option Z.
Variable localeCompare : string -> string -> Z.

(** The comparator of [buildTicketActivityEntries].  The two times are
    integers of magnitude at most 8.64e15, so the sign of their
    floating-point difference is the sign of the exact one. *)
Definition compareEntries (left right : TicketActivityEntry) : Z :=
  match Date_parse (createdAt left), Date_parse (createdAt right) with
  | Some leftMs, Some rightMs => (rightMs - leftMs)%Z
  | _, _ => localeCompare (createdAt right) (createdAt left)
  end.

Definition buildTicketActivityEntries (events : list TicketEvent)
  (comments : list TicketComment) : list TicketActivityEntry :=
  let eventEntries := List.map eventEntry events in
  let commentEntries := List.map commentEntry comments in
  sort compareEntries (eventEntries ++ commentEntries).

End Activity.

End EditTicketPanel.

(** ** The server's move operation and its Automation Dispatcher *)

Module Dispatcher.
Import Api.

(** A ticket as the server stores it. *)
Record Row : Type := mkRow {
  row_status : TicketStatus;
  row_session_key : option string;
  row_archived_at : option Z;
  row_updated_at : Z;
}.

(** The server: the tickets, the audit log, the tickets the gateway was
    asked to spawn a session for (latest first), and the spawn calls that
    wait for the gateway's answer. *)
Record Server : Type := mkServer {
  rows : gmap Z Row;
  audit : list (Z * string);
  spawnCalls : list Z;
  inFlight : list Z;
  clock : Z;
}.

(** What reaches the server: a move request, or the gateway's answer to a
    spawn call in flight (a session key, or nothing on failure). *)
Inductive Request : Type :=
| Move (ticketId : Z) (target : TicketStatus)
| SpawnAnswer (ticketId : Z) (answer : option string).

(** Modelled from the spec: the statuses in which agents work (spec 4.3:
    "the two agent-eligible statuses (Plan, In Progress)"); the server
    sources are not among the files at hand. *)
Definition agentEligible (s : TicketStatus) : bool :=
  match s with
  | Plan | InProgress => true
  | _ => false
  end.

(** Modelled from the spec: the dispatcher's trigger on a move (spec 4.3:
    "if the destination status is one of the two agent-eligible statuses
    and the ticket currently has no active agent_session_key, attempt a
    spawn call through the Gateway Client"); the server sources are not
    among the files at hand.  The call is recorded and left in flight:
    the remote call blocks after the local commit, and the server goes on
    with other requests meanwhile (spec 5). *)
Definition dispatchOnMove (s : Server) (ticketId : Z) : Server :=
  match rows s !! ticketId with
  | None => s
  | Some row =>
      if agentEligible (row_status row) && App.isNull (row_session_key row) then
        {| rows := rows s;
           audit := audit s;
           spawnCalls := ticketId :: spawnCalls s;
           inFlight := ticketId :: inFlight s;
           clock := clock s |}
      else s
  end.

Section Engine.

(** The static adjacency table of the Transition Validator. *)
Variable canTransition : TicketStatus -> TicketStatus -> bool.

(** Modelled from the spec: the move operation (spec 4.1, 4.2, 4.3: an
    archived ticket rejects every move; a move to the current status
    succeeds without mutation; a move outside the adjacency table is
    rejected and touches nothing; a legal move commits the new status,
    advances [updated_at], appends one event, and clears the session key
    when the status leaves the agent-eligible ones; automation is attempted
    after the commit); the server sources are not among the files at
    hand. *)
Definition handleMove (s : Server) (ticketId : Z) (target : TicketStatus) : Server :=
  match rows s !! ticketId with
  | None => s
  | Some row =>
      if negb (App.isNull (row_archived_at row)) then s
      else if TicketStatus_eqb (row_status row) target then dispatchOnMove s ticketId
      else if negb (canTransition (row_status row) target) then s
      else
        let moved :=
          {| row_status := target;
             row_session_key :=
               if agentEligible target then row_session_key row else None;
             row_archived_at := row_archived_at row;
             row_updated_at := (clock s + 1)%Z |} in
        dispatchOnMove
          {| rows := <[ ticketId := moved ]> (rows s);
             audit := (ticketId, "ticket_moved") :: audit s;
             spawnCalls := spawnCalls s;
             inFlight := inFlight s;
             clock := (clock s + 1)%Z |}
          ticketId
  end.

(** Modelled from the spec: every spawn call has an answer of its own
    (spec 4.6: "a single attempt per trigger", every call fallible), so an
    answer settles one of the calls in flight for the ticket and leaves
    the others; the server sources are not among the files at hand. *)
Fixpoint answered (ticketId : Z) (calls : list Z) : list Z :=
  match calls with
  | [] => []
  | c :: rest => if Z.eqb c ticketId then rest else c :: answered ticketId rest
  end.

(** Modelled from the spec: the outcome of a spawn call (spec 4.3: "A
    successful spawn updates agent_session_key and appends a success
    event"; a failure "is recorded as exactly one TicketEvent"); the
    server sources are not among the files at hand. *)
Definition handleSpawnAnswer (s : Server) (ticketId : Z) (answer : option string)
  : Server :=
  if List.existsb (Z.eqb ticketId) (inFlight s) then
    match answer with
    | Some key =>
        {| rows :=
             match rows s !! ticketId with
             | Some row =>
                 <[ ticketId :=
                      {| row_status := row_status row;
                         row_session_key := Some key;
                         row_archived_at := row_archived_at row;
                         row_updated_at := (clock s + 1)%Z |} ]> (rows s)
             | None => rows s
             end;
           audit := (ticketId, "spawn_succeeded") :: audit s;
           spawnCalls := spawnCalls s;
           inFlight := answered ticketId (inFlight s);
           clock := (clock s + 1)%Z |}
    | None =>
        {| rows := rows s;
           audit := (ticketId, "spawn_failed") :: audit s;
           spawnCalls := spawnCalls s;
           inFlight := answered ticketId (inFlight s);
           clock := (clock s + 1)%Z |}
    end
  else s.

Definition step (s : Server) (r : Request) : Server :=
  match r with
  | Move ticketId target => handleMove s ticketId target
  | SpawnAnswer ticketId answer => handleSpawnAnswer s ticketId answer
  end.

(** An execution: the requests served one after the other, in the order
    the per-ticket serialization lets them in. *)
Definition serve (s : Server) (requests : list Request) : Server :=
  fold_left step requests s.

End Engine.





End Dispatcher.

(** ** More string built-ins *)

Module JsText.

(** A string is read as its UTF-16 code units, which its characters give
    when all are below 256; [length], [charCodeAt], [slice] and
    [startsWith] are then those of the list of characters. *)

(** [toLowerCase] of one such code unit: the letters A to Z and the
    capital letters of Latin-1 (U+00C0 to U+00DE but the sign U+00D7) go
    32 up. *)
Definition lowerChar (c : ascii) : ascii :=
  let n := N_of_ascii c in
  if ((65 <=? n) && (n <=? 90) || (192 <=? n) && (n <=? 222) && negb (n =? 215))%N
  then ascii_of_N (n + 32)
  else c.

Fixpoint toLowerCase (s : string) : string :=
  match s with
  | EmptyString => EmptyString
  | String c rest => String (lowerChar c) (toLowerCase rest)
  end.

(** The white space and the line terminators that [trim] removes: TAB,
    LF, VT, FF, CR, the space and the no-break space. *)
Definition isWhiteSpace (c : ascii) : bool :=
  let n := N_of_ascii c in
  ((9 <=? n) && (n <=? 13) || (n =? 32) || (n =? 160))%N.

Fixpoint trimStart (s : string) : string :=
  match s with
  | EmptyString => EmptyString
  | String c rest => if isWhiteSpace c then trimStart rest else s
  end.

(** The string without its trailing white space. *)
Fixpoint trimEnd (s : string) : string :=
  match s with
  | EmptyString => EmptyString
  | String c rest =>
      match trimEnd rest with
      | EmptyString => if isWhiteSpace c then EmptyString else String c EmptyString
      | kept => String c kept
      end
  end.

(** [s.trim()] *)
Definition trim (s : string) : string := trimEnd (trimStart s).

(** [hay.includes(needle)] on strings. *)
Fixpoint includes (needle hay : string) : bool :=
  Js.startsWith needle hay
  || match hay with
     | EmptyString => false
     | String _ rest => includes needle rest
     end.

(** [value.replace(/_/g, ' ')] *)
Fixpoint underscoresToSpaces (value : string) : string :=
  match value with
  | EmptyString => EmptyString
  | String c rest =>
      String (if Ascii.eqb c "_" then " "%char else c) (underscoresToSpaces rest)
  end.

(** [value.replace(/\/+$/, '')]: the string without its trailing
    slashes. *)
Fixpoint dropTrailingSlashes (value : string) : string :=
  match value with
  | EmptyString => EmptyString
  | String c rest =>
      match dropTrailingSlashes rest with
      | EmptyString => if Ascii.eqb c "/" then EmptyString else String c EmptyString
      | kept => String c kept
      end
  end.

End JsText.

(** ** [frontend/src/api/errors.ts] *)

Module Errors.

Inductive ApiErrorCode : Type := http_error | network_error | parse_error | unknown_error.

Inductive UiTone : Type := tone_error | tone_warning | tone_info.

Record UiError : Type := mkUiError {
  ui_title : string;
  ui_message : string;
  ui_tone : UiTone;
  ui_sticky : bool;
}.

Record ApiError : Type := mkApiError {
  err_message : string;
  err_code : ApiErrorCode;
  err_status : option Z;
  err_detail : option string;
}.

(** One field of [extractMessage]: a string that is not empty once
    trimmed gives its trimmed text. *)
Definition messageField (payload : Js.Value) (key : string) : option string :=
  match Js.getProp payload key with
  | Js.Str text =>
      if Js.truthyString (JsText.trim text) then Some (JsText.trim text) else None
  | _ => None
  end.

Definition extractMessage (payload : Js.Value) : option string :=
  if negb (Js.truthy payload) || negb (String.eqb (Js.typeof payload) "object")
  then None
  else
    match messageField payload "detail" with
    | Some text => Some text
    | None =>
        match messageField payload "message" with
        | Some text => Some text
        | None => messageField payload "error"
        end
    end.

Definition createHttpError (status : Z) (payload : Js.Value) : ApiError :=
  let message :=
    match extractMessage payload with
    | Some text => text
    | None => "Request failed with status " ++ Js.numberToString status
    end in
  {| err_message := message;
     err_code := http_error;
     err_status := Some status;
     err_detail := Some message |}.

Definition statusIs (error : ApiError) (n : Z) : bool :=
  match err_status error with
  | Some s => Z.eqb s n
  | None => false
  end.

Definition mapApiErrorToUi (error : ApiError) : UiError :=
  match err_code error with
  | network_error =>
      {| ui_title := "Connection issue";
         ui_message := "Backend is not reachable. Check API URL, backend process, and network.";
         ui_tone := tone_warning;
         ui_sticky := true |}
  | _ =>
      if statusIs error 400 then
        {| ui_title := "Validation error";
           ui_message := App.orElse (err_detail error) "The request payload is invalid.";
           ui_tone := tone_warning;
           ui_sticky := false |}
      else if statusIs error 401 || statusIs error 403 then
        {| ui_title := "Authorization failed";
           ui_message :=
             "API rejected this request. Verify gateway token and backend auth settings.";
           ui_tone := tone_error;
           ui_sticky := true |}
      else if statusIs error 404 then
        {| ui_title := "Not found";
           ui_message := App.orElse (err_detail error) "Requested resource could not be found.";
           ui_tone := tone_info;
           ui_sticky := false |}
      else if (500 <=? App.orElse (err_status error) 0)%Z then
        {| ui_title := "Backend failure";
           ui_message := App.orElse (err_detail error) "Server returned an unexpected failure.";
           ui_tone := tone_error;
           ui_sticky := true |}
      else
        {| ui_title := "Request failed";
           ui_message := App.orElse (err_detail error) (err_message error);
           ui_tone := tone_error;
           ui_sticky := true |}
  end.

End Errors.

(** ** [frontend/src/hooks/api.ts]: the state of a query *)

Module Hooks.

Section Query.
Context {TData : Type}.

Record QueryState : Type := mkQueryState {
  data : option TData;
  error : option Errors.ApiError;
  uiError : option Errors.UiError;
  isLoading : bool;
}.

Inductive QueryAction : Type :=
| loading
| success (result : TData)
| failure (apiError : Errors.ApiError) (ui : Errors.UiError).

Definition createInitialQueryState (enabled : bool) : QueryState :=
  {| data := None; error := None; uiError := None; isLoading := enabled |}.

Definition queryReducer (state : QueryState) (action : QueryAction) : QueryState :=
  match action with
  | loading =>
      {| data := data state; error := None; uiError := None; isLoading := true |}
  | success result =>
      {| data := Some result; error := None; uiError := None; isLoading := false |}
  | failure apiError ui =>
      {| data := data state; error := Some apiError; uiError := Some ui;
         isLoading := false |}
  end.

End Query.

Arguments QueryState : clear implicits.
Arguments QueryAction : clear implicits.

End Hooks.

(** ** More of the dashboard ([frontend/src/App.tsx]) *)

Module Dashboard.
Import Api App.

Definition DEFAULT_STATUSES : list TicketStatus := [Todo; Plan; InProgress; Review; Done].
Definition ARCHIVE_NAV_DROP_ID : string := "nav:archived".

(** *** What the board shows *)

(** [configured.includes(status)] *)
Definition includesStatus (status : TicketStatus) (configured : list TicketStatus) : bool :=
  List.existsb (TicketStatus_eqb status) configured.

(** The lanes of the board, from [configData?.statuses]. *)
Definition statuses (configured : option (list TicketStatus)) : list TicketStatus :=
  let configured := orElse configured DEFAULT_STATUSES in
  List.filter (fun status => includesStatus status configured) DEFAULT_STATUSES.

Definition filteredTickets (view : Render) (searchValue : string) : list Ticket :=
  let search := JsText.toLowerCase (JsText.trim searchValue) in
  if negb (Js.truthyString search) then boardTickets view
  else
    List.filter
      (fun ticket =>
         List.existsb (fun value => JsText.includes search (JsText.toLowerCase value))
           [title ticket; description ticket; assignee ticket])
      (boardTickets view).

(** The [Map<TicketStatus, Ticket[]>] of the lanes, in insertion order. *)
Definition LaneMap : Type := list (TicketStatus * list Ticket).

Fixpoint laneGet (m : LaneMap) (status : TicketStatus) : option (list Ticket) :=
  match m with
  | [] => None
  | (s, lane) :: rest => if TicketStatus_eqb s status then Some lane else laneGet rest status
  end.

Fixpoint laneSet (m : LaneMap) (status : TicketStatus) (lane : list Ticket) : LaneMap :=
  match m with
  | [] => [(status, lane)]
  | (s, old) :: rest =>
      if TicketStatus_eqb s status then (s, lane) :: rest
      else (s, old) :: laneSet rest status lane
  end.

(** [const lane = grouped.get(ticket.status); if (lane) lane.push(ticket)] *)
Definition lanePush (m : LaneMap) (ticket : Ticket) : LaneMap :=
  match laneGet m (status ticket) with
  | Some lane => laneSet m (status ticket) (lane ++ [ticket])
  | None => m
  end.

Definition lanes (laneStatuses : list TicketStatus) (tickets : list Ticket) : LaneMap :=
  let grouped := fold_left (fun m status => laneSet m status []) laneStatuses [] in
  fold_left lanePush tickets grouped.

(** The tickets of one column: [lanes.get(status) ?? []]. *)
Definition laneTickets (m : LaneMap) (status : TicketStatus) : list Ticket :=
  orElse (laneGet m status) [].

(** [list.findIndex(p)] *)
Fixpoint findIndexFrom {A : Type} (p : A -> bool) (l : list A) (index : Z) : Z :=
  match l with
  | [] => (-1)%Z
  | x :: rest => if p x then index else findIndexFrom p rest (index + 1)%Z
  end.

Definition findIndex {A : Type} (p : A -> bool) (l : list A) : Z :=
  findIndexFrom p l 0.

(** [list.filter((item, index) => p(item, index))] *)
Fixpoint filterIndexedFrom {A : Type} (p : A -> Z -> bool) (l : list A) (index : Z)
  : list A :=
  match l with
  | [] => []
  | x :: rest =>
      if p x index then x :: filterIndexedFrom p rest (index + 1)%Z
      else filterIndexedFrom p rest (index + 1)%Z
  end.

Definition filterIndexed {A : Type} (p : A -> Z -> bool) (l : list A) : list A :=
  filterIndexedFrom p l 0.

(** The banners: the errors that are there, one per title. *)
Definition banners (sources : list (option Errors.UiError)) : list Errors.UiError :=
  let list := List.flat_map (fun v => match v with Some e => [e] | None => [] end) sources in
  filterIndexed
    (fun item index =>
       Z.eqb
         (findIndex
            (fun candidate =>
               String.eqb (Errors.ui_title candidate) (Errors.ui_title item)) list)
         index)
    list.

(** The warning summaries: the entries of [warningByTicketId], sorted by
    ticket id, highest first.  The ids are distinct, so the order the map
    lists its entries in does not show in the result. *)
Definition warningSummaries (b : Board) : list (Z * list string) :=
  EditTicketPanel.sort
    (fun left right => (fst right - fst left)%Z)
    (map_to_list (warningByTicketId b)).

(** *** Archiving and dragging *)

Definition setArchivingTicketIds (f : gset Z -> gset Z) (b : Board) : Board :=
  {| optimisticTickets := optimisticTickets b;
     movingTicketIds := movingTicketIds b;
     archivingTicketIds := f (archivingTicketIds b);
     warningByTicketId := warningByTicketId b;
     activeDragTicketId := activeDragTicketId b;
     editingTicketId := editingTicketId b |}.

Definition setActiveDragTicketId (v : option Z) (b : Board) : Board :=
  {| optimisticTickets := optimisticTickets b;
     movingTicketIds := movingTicketIds b;
     archivingTicketIds := archivingTicketIds b;
     warningByTicketId := warningByTicketId b;
     activeDragTicketId := v;
     editingTicketId := editingTicketId b |}.

Inductive ArchiveOutcome : Type :=
| ArchiveResolved
| ArchiveRejected (message : string).

(** A handler that may wait for the archive request: what it does before
    the request, the request, and how it goes on with the answer. *)
Inductive Handler : Type :=
| Plain (task : Task)
| AwaitArchive (before : Task) (ticketId : Z) (actor : string)
    (resume : ArchiveOutcome -> Task).

Definition handleOpenEditTicket (ticket : Ticket) : Task :=
  if (id ticket <? 0)%Z then
    Notify warning "Wait for ticket creation to complete before editing." Return
  else SetState (setEditingTicketId (Some (id ticket))) Return.

Definition handleArchiveTicket (view : Render) (ticket : Ticket)
  (nowArchived nowUpdated : string) : Handler :=
  if (id ticket <? 0)%Z then
    Plain (Notify warning "Wait for ticket creation to complete before archiving." Return)
  else if bool_decide (id ticket ∈ archivingTicketIds (board view))
          || bool_decide (id ticket ∈ movingTicketIds (board view)) then
    Plain Return
  else
    let optimisticArchived :=
      {| id := id ticket;
         title := title ticket;
         description := description ticket;
         status := status ticket;
         assignee := assignee ticket;
         priority := priority ticket;
         agent_session_key := agent_session_key ticket;
         archived_at := Some nowArchived;
         created_at := created_at ticket;
         updated_at := nowUpdated |} in
    let finally :=
      SetState (setArchivingTicketIds (dropId (id ticket))) Return in
    AwaitArchive
      (SetState (setOptimisticTickets
                   (fun previous => JsMap.set previous (id ticket) optimisticArchived))
      (SetState (setArchivingTicketIds (fun previous => {[ id ticket ]} ∪ previous))
         Return))
      (id ticket) "User"
      (fun outcome =>
         match outcome with
         | ArchiveResolved =>
             SetState (setWarningByTicketId (dropWarning (id ticket)))
            (Notify success ("Archived TASK-" ++ Js.numberToString (id ticket) ++ ".")
            (AwaitRefetch
            (SetState (setOptimisticTickets (dropOptimistic (id ticket))) finally)))
         | ArchiveRejected message =>
             SetState (setOptimisticTickets (dropOptimistic (id ticket)))
            (Notify error
               ("Archive failed for TASK-" ++ Js.numberToString (id ticket) ++ ": "
                ++ message)
               finally)
         end).

(** A [UniqueIdentifier] of the drag-and-drop library. *)
Inductive UniqueIdentifier : Type :=
| IdString (text : string)
| IdNumber (n : Z).

Definition resolveTargetStatus (view : Render) (overId : option UniqueIdentifier)
  : option TicketStatus :=
  match overId with
  | Some (IdString text) =>
      match Dnd.parseLaneDropId text with
      | Some laneStatus => Some laneStatus
      | None =>
          match Dnd.parseTicketItemId text with
          | None => None
          | Some ticketId =>
              match JsMap.get (ticketById view) ticketId with
              | Some ticket => Some (status ticket)
              | None => None
              end
          end
      end
  | _ => None
  end.

(** A state change, then the handler. *)
Definition afterUpdate (update : Board -> Board) (h : Handler) : Handler :=
  match h with
  | Plain task => Plain (SetState update task)
  | AwaitArchive before ticketId actor resume =>
      AwaitArchive (SetState update before) ticketId actor resume
  end.

Definition handleDragEnd (view : Render) (active : UniqueIdentifier)
  (over : option UniqueIdentifier) (now nowArchived nowUpdated : string) : Handler :=
  match active with
  | IdNumber _ => Plain (SetState (setActiveDragTicketId None) Return)
  | IdString activeText =>
      match Dnd.parseTicketItemId activeText with
      | None => Plain (SetState (setActiveDragTicketId None) Return)
      | Some ticketId =>
          let overId :=
            match over with
            | Some (IdString text) => Some text
            | _ => None
            end in
          afterUpdate (setActiveDragTicketId None)
            (if match overId with
                | Some text => String.eqb text ARCHIVE_NAV_DROP_ID
                | None => false
                end
             then
               match JsMap.get (ticketById view) ticketId with
               | Some ticket => handleArchiveTicket view ticket nowArchived nowUpdated
               | None => Plain Return
               end
             else
               match resolveTargetStatus view
                       (match overId with
                        | Some text => Some (IdString text)
                        | None => None
                        end) with
               | None => Plain Return
               | Some targetStatus => Plain (moveTicket view ticketId targetStatus now)
               end)
      end
  end.

Definition handleDragStart (active : UniqueIdentifier) : Task :=
  match active with
  | IdString text => SetState (setActiveDragTicketId (Dnd.parseTicketItemId text)) Return
  | IdNumber _ => SetState (setActiveDragTicketId None) Return
  end.

(** Where a handler stands once it has run as far as it can. *)
Inductive HandlerPending : Type :=
| Waiting (p : Pending)
| PendingArchive (ticketId : Z) (actor : string) (resume : ArchiveOutcome -> Task).

Definition advanceHandler (h : Handler) (b : Board)
  : Board * list (Tone * string) * HandlerPending :=
  match h with
  | Plain task =>
      let '(b', notices, p) := advance task b in (b', notices, Waiting p)
  | AwaitArchive before ticketId actor resume =>
      let '(b', notices, _) := advance before b in
      (b', notices, PendingArchive ticketId actor resume)
  end.

(** What a handler does to the outside, archive requests included. *)
Inductive HandlerEffect : Type :=
| Did (e : Effect)
| ArchiveRequested (ticketId : Z) (actor : string).

(** Run a handler to its end with nothing else in between. *)
Definition runHandler (onArchive : Z -> string -> ArchiveOutcome)
  (onMove : Z -> MoveTicketRequest -> MoveOutcome)
  (onUpdate : Z -> UpdateTicketRequest -> UpdateOutcome)
  (h : Handler) (b : Board) : Board * list HandlerEffect :=
  match h with
  | Plain task =>
      let (b', effects) := run onMove onUpdate task b in (b', List.map Did effects)
  | AwaitArchive before ticketId actor resume =>
      let (b1, effects1) := run onMove onUpdate before b in
      let (b2, effects2) :=
        run onMove onUpdate (resume (onArchive ticketId actor)) b1 in
      (b2,
       (List.map Did effects1 ++ ArchiveRequested ticketId actor :: List.map Did effects2)%list)
  end.

(** *** Settling a creation ([AppShell]) *)

(** [existing.filter((ticket) => ticket.id !== temporaryId)] *)
Definition dropPending (temporaryId : Z) (existing : list Ticket) : list Ticket :=
  List.filter (fun ticket => negb (Z.eqb (id ticket) temporaryId)) existing.

(** *** The cards of the board ([KanbanColumn] and [TaskCard],
    [src/unnamed/part_004]) *)

(** The page: the tickets query of [useTicketsQuery] with what a render
    holds. *)
Record Page : Type := mkPage {
  ticketsQuery : Hooks.QueryState (list Ticket);
  page_pendingTickets : list Ticket;
  page_board : Board;
}.

Definition render (p : Page) : Render :=
  {| ticketsQuery_data := Hooks.data (ticketsQuery p);
     pendingTickets := page_pendingTickets p;
     board := page_board p |}.

(** [hasTicketError = Boolean(ticketsQuery.uiError)] *)
Definition hasTicketError (p : Page) : bool :=
  negb (App.isNull (Hooks.uiError (ticketsQuery p))).

(** The cards a column renders: its tickets when
    [!isLoading && !hasError && tickets.length > 0], none otherwise. *)
Definition columnCards (isLoading hasError : bool) (tickets : list Ticket)
  : list Ticket :=
  if negb isLoading && negb hasError && (0 <? Z.of_nat (List.length tickets))%Z
  then tickets
  else [].

(** The cards of the board, lane after lane. *)
Definition cards (p : Page) (configured : option (list TicketStatus))
  (searchValue : string) : list Ticket :=
  let grouped := lanes (statuses configured) (filteredTickets (render p) searchValue) in
  List.flat_map
    (fun status =>
       columnCards (Hooks.isLoading (ticketsQuery p)) (hasTicketError p)
         (laneTickets grouped status))
    (statuses configured).

(** The card of a ticket, when the board has one. *)
Definition cardOf (p : Page) (configured : option (list TicketStatus))
  (searchValue : string) (ticketId : Z) : option Ticket :=
  List.find (fun card => Z.eqb (id card) ticketId) (cards p configured searchValue).

(** [TaskCard]: [isDragDisabled], and the [disabled] of the button that
    opens the edit panel. *)
Definition isDragDisabled (b : Board) (ticket : Ticket) : bool :=
  (id ticket <? 0)%Z
  || bool_decide (id ticket ∈ movingTicketIds b)
  || bool_decide (id ticket ∈ archivingTicketIds b)
  || match editingTicketId b with
     | Some editing => Z.eqb editing (id ticket)
     | None => false
     end.

Definition isEditDisabled (b : Board) (ticket : Ticket) : bool :=
  (id ticket <? 0)%Z
  || bool_decide (id ticket ∈ movingTicketIds b)
  || bool_decide (id ticket ∈ archivingTicketIds b).

End Dashboard.

(** ** The realtime refetch of [useTicketRealtimeRefetch] *)

Module Realtime.

(** The variables the effect keeps while the page is mounted. *)
Record State : Type := mkState {
  throttleTimer : bool;
  pendingRefetch : bool;
  refetchInFlight : bool;
}.

Definition initial : State :=
  {| throttleTimer := false; pendingRefetch := false; refetchInFlight := false |}.

(** What happens to the effect: a message arrives on the socket, the
    throttle timer fires, the refetch under way settles. *)
Inductive Event : Type :=
| Message (payload : Js.Value)
| TimerFires
| RefetchSettles.

(** What can be seen of it: a refetch was asked for, one was started, one
    has settled. *)
Inductive Observed : Type :=
| Queued
| Started
| Settled.

(** [runRefetch], up to its [await]: it starts a refetch unless one is
    under way or none is asked for. *)
Definition runRefetch (s : State) : State * list Observed :=
  if refetchInFlight s || negb (pendingRefetch s) then (s, [])
  else
    ({| throttleTimer := throttleTimer s;
        pendingRefetch := false;
        refetchInFlight := true |},
     [Started]).

Definition queueRefetch (s : State) : State * list Observed :=
  let s1 :=
    {| throttleTimer := throttleTimer s;
       pendingRefetch := true;
       refetchInFlight := refetchInFlight s |} in
  if throttleTimer s1 then (s1, [Queued])
  else
    ({| throttleTimer := true;
        pendingRefetch := pendingRefetch s1;
        refetchInFlight := refetchInFlight s1 |},
     [Queued]).

(** One event.  A timer that is not armed does not fire and a refetch
    that is not under way does not settle: such events change nothing. *)
Definition step (s : State) (e : Event) : State * list Observed :=
  match e with
  | Message payload =>
      if App.shouldRefetchFromRealtimePayload payload then queueRefetch s else (s, [])
  | TimerFires =>
      if throttleTimer s then
        runRefetch
          {| throttleTimer := false;
             pendingRefetch := pendingRefetch s;
             refetchInFlight := refetchInFlight s |}
      else (s, [])
  | RefetchSettles =>
      if refetchInFlight s then
        let s1 :=
          {| throttleTimer := throttleTimer s;
             pendingRefetch := pendingRefetch s;
             refetchInFlight := false |} in
        let (s2, seen) := if pendingRefetch s1 then runRefetch s1 else (s1, []) in
        (s2, Settled :: seen)
      else (s, [])
  end.

Fixpoint serve (s : State) (events : list Event) : State * list Observed :=
  match events with
  | [] => (s, [])
  | e :: rest =>
      let (s1, seen1) := step s e in
      let (s2, seen2) := serve s1 rest in
      (s2, (seen1 ++ seen2)%list)
  end.

(** The refetches under way after what was seen: those started and not
    yet settled (never negative in what the effect produces). *)
Fixpoint underWay (seen : list Observed) (count : Z) : Z :=
  match seen with
  | [] => count
  | Started :: rest => underWay rest (count + 1)%Z
  | Settled :: rest => underWay rest (count - 1)%Z
  | Queued :: rest => underWay rest count
  end.

(** Whether a refetch was asked for after the last one started. *)
Fixpoint unserved (seen : list Observed) (asked : bool) : bool :=
  match seen with
  | [] => asked
  | Queued :: rest => unserved rest true
  | Started :: rest => unserved rest false
  | Settled :: rest => unserved rest asked
  end.

(** How many refetches were started in what was seen. *)
Fixpoint starts (seen : list Observed) : nat :=
  match seen with
  | [] => 0%nat
  | Started :: rest => S (starts rest)
  | _ :: rest => starts rest
  end.

(** A flag as a count. *)
Definition flag (b : bool) : Z := if b then 1%Z else 0%Z.

(** The states the effect reaches: a refetch asked for is waiting for the
    timer or for the refetch under way. *)
Definition covered (s : State) : Prop :=
  pendingRefetch s = true -> throttleTimer s = true \/ refetchInFlight s = true.

End Realtime.

(** ** The activity page and the small helpers of [App.tsx] *)

Module Activity.
Import Api.

(** The [Map<string, number>] of the counts, in insertion order. *)
Fixpoint countGet (m : list (string * Z)) (key : string) : option Z :=
  match m with
  | [] => None
  | (k, n) :: rest => if String.eqb k key then Some n else countGet rest key
  end.

Fixpoint countSet (m : list (string * Z)) (key : string) (n : Z) : list (string * Z) :=
  match m with
  | [] => [(key, n)]
  | (k, old) :: rest =>
      if String.eqb k key then (k, n) :: rest else (k, old) :: countSet rest key n
  end.

(** [counts.set(type, (counts.get(type) ?? 0) + 1)] for each event. *)
Definition countTypes (types : list string) : list (string * Z) :=
  fold_left
    (fun counts type => countSet counts type (App.orElse (countGet counts type) 0 + 1)%Z)
    types [].

(** The filter buttons: the event types with their counts, the most
    frequent first. *)
Definition eventTypeCounts (types : list string) : list (string * Z) :=
  EditTicketPanel.sort (fun left right => (snd right - snd left)%Z) (countTypes types).

Definition prettifyEventType (value : string) : string :=
  JsText.underscoresToSpaces value.

Definition activityClassForEvent (eventType : string) : string :=
  if JsText.includes "fail" eventType || JsText.includes "error" eventType then "danger"
  else if JsText.includes "spawn" eventType || JsText.includes "notify" eventType
  then "accent"
  else if String.eqb eventType "comment_added" then "comment"
  else if String.eqb eventType "ticket_moved" then "move"
  else if String.eqb eventType "ticket_archived" then "warning"
  else "default".

Inductive TagTone : Type := tag_default | tag_warning | tag_danger.

Definition activityToneForEvent (eventType : string) : TagTone :=
  if JsText.includes "fail" eventType || JsText.includes "error" eventType then tag_danger
  else if String.eqb eventType "ticket_archived" then tag_warning
  else tag_default.

Definition priorityToTone (priority : TicketPriority) : TagTone :=
  match priority with
  | Critical => tag_danger
  | High => tag_warning
  | _ => tag_default
  end.

(** The colours of [assigneeToColor]. *)
Definition UNASSIGNED_COLOR : string := "#3a4b7a".

Definition palette : list string :=
  [ "#38bdf8"; "#34d399"; "#f59e0b"; "#a78bfa";
    "#fb7185"; "#22d3ee"; "#f97316"; "#60a5fa" ].

(** [hash = (hash * 31 + normalized.charCodeAt(index)) >>> 0] over the
    characters: the product and the sum are below [2^53], so exact, and
    [>>> 0] keeps them modulo [2^32]. *)
Definition hashStep (hash : Z) (c : ascii) : Z :=
  ((hash * 31 + Z.of_N (N_of_ascii c)) mod 2 ^ 32)%Z.

Definition assigneeHash (normalized : string) : Z :=
  fold_left hashStep (list_ascii_of_string normalized) 0%Z.

Definition assigneeToColor (assignee : string) : string :=
  let normalized := JsText.toLowerCase (JsText.trim assignee) in
  if negb (Js.truthyString normalized) || String.eqb normalized "unassigned"
  then UNASSIGNED_COLOR
  else
    List.nth
      (Z.to_nat (assigneeHash normalized mod Z.of_nat (List.length palette)))
      palette EmptyString.

(** A string as its UTF-16 code units, for the functions that count
    them. *)
Definition CodeUnits : Type := list N.

(** The code unit of the ellipsis. *)
Definition ELLIPSIS : N := 8230%N.

(** [value.slice(0, end)] *)
Definition sliceTo (value : CodeUnits) (stop : Z) : CodeUnits :=
  let len := Z.of_nat (List.length value) in
  let to := if (stop <? 0)%Z then Z.max (len + stop) 0 else Z.min stop len in
  List.firstn (Z.to_nat to) value.

Definition truncateText (value : CodeUnits) (maxLength : Z) : CodeUnits :=
  if (Z.of_nat (List.length value) <=? maxLength)%Z then value
  else (sliceTo value (maxLength - 1) ++ [ELLIPSIS])%list.

End Activity.

(** ** More of the ticket panel ([src/unnamed/part_002]) *)

Module Panel.
Import Api.

Definition DEFAULT_PRIORITIES : list TicketPriority := [Critical; High; Medium; Low].
Definition COMMENT_MAX_LENGTH : Z := 5000.
Definition DRAWER_WIDTH_MIN : Z := 420.
Definition DRAWER_WIDTH_MAX : Z := 960.
Definition DRAWER_WIDTH_DEFAULT : Z := 544.

(** *** The width of the drawer *)

(** [Number.isFinite(v)] *)
Definition isFinite (v : Js.Number) : bool :=
  match v with
  | Js.Fin _ _ => true
  | _ => false
  end.

(** [Math.round(v)] of a finite number: the nearest integer, a half
    going up. *)
Definition round (m e : Z) : Z :=
  if (0 <=? e)%Z then (m * 2 ^ e)%Z
  else ((2 * m + 2 ^ (- e)) / 2 ^ (- e + 1))%Z.

Definition clampDrawerWidth (value : Js.Number) : Z :=
  match value with
  | Js.Fin m e => Z.min DRAWER_WIDTH_MAX (Z.max DRAWER_WIDTH_MIN (round m e))
  | _ => DRAWER_WIDTH_DEFAULT
  end.

(** [persistDrawerWidth]: the width the panel takes, and the string it
    stores. *)
Definition persistDrawerWidth (value : Js.Number) : Z * string :=
  let normalized := clampDrawerWidth value in
  (normalized, Js.numberToString normalized).

(** [readDrawerWidthFromStorage], from what [localStorage.getItem]
    answers. *)
Definition readDrawerWidthFromStorage (raw : option string) : Z :=
  match raw with
  | None => DRAWER_WIDTH_DEFAULT
  | Some text =>
      if negb (Js.truthyString text) then DRAWER_WIDTH_DEFAULT
      else clampDrawerWidth (Js.stringToNumber text)
  end.

(** *** The forms *)

Record ValidationErrors : Type := mkValidationErrors {
  title_error : option string;
  description_error : option string;
}.

Definition validateForm (title description : string) : ValidationErrors :=
  let trimmedTitle := JsText.trim title in
  let trimmedDescription := JsText.trim description in
  {| title_error :=
       if negb (Js.truthyString trimmedTitle) then Some "Title is required."
       else if (200 <? Z.of_nat (String.length trimmedTitle))%Z
       then Some "Title must be 200 characters or less."
       else None;
     description_error :=
       if (10000 <? Z.of_nat (String.length trimmedDescription))%Z
       then Some "Description must be 10,000 characters or less."
       else None |}.

(** [handleSubmit] of the edit form: the errors it shows, or the update
    it submits for the ticket. *)
Definition handleSubmit (ticket : Ticket) (title description assignee : string)
  (priority : TicketPriority) : ValidationErrors + (Z * UpdateTicketRequest) :=
  let validation := validateForm title description in
  if App.isNull (title_error validation) && App.isNull (description_error validation)
  then
    inr (id ticket,
         {| upd_title := Some (JsText.trim title);
            upd_description := Some (JsText.trim description);
            upd_assignee := Some assignee;
            upd_priority := Some priority |})
  else inl validation.

Record CreateCommentRequest : Type := mkCreateCommentRequest {
  comment_author : string;
  comment_content : string;
}.

(** [handlePostComment], up to its request: the error it shows, or the
    comment it posts. *)
Definition handlePostComment (ticket : Ticket) (commentDraft : string)
  : string + (Z * CreateCommentRequest) :=
  let content := JsText.trim commentDraft in
  if negb (Js.truthyString content) then inl "Comment cannot be empty."
  else if (COMMENT_MAX_LENGTH <? Z.of_nat (String.length content))%Z then
    inl ("Comment must be " ++ Js.numberToString COMMENT_MAX_LENGTH
         ++ " characters or less.")
  else inr (id ticket, {| comment_author := "User"; comment_content := content |}).



Definition formatHistoryEvent (event : TicketEvent) : string * string :=
  let actor :=
    match actor event with
    | Some name =>
        if Js.truthyString (JsText.trim name) then JsText.trim name else "System"
    | None => "System"
    end in
  (EditTicketPanel.formatEventType (event_type event) ++ " by " ++ actor,
   if Js.truthyString (details event) then details event else "No details provided.").

End Panel.

(** ** [frontend/src/config/env.ts] and [frontend/src/lib/api.ts] *)

Module Env.

Section Origin.

(** [window.location.origin] *)
Variable DEFAULT_API_BASE_URL : string.

Definition normalizeBaseUrl (value : string) : string :=
  let trimmed := JsText.trim value in
  if negb (Js.truthyString trimmed) then DEFAULT_API_BASE_URL
  else JsText.dropTrailingSlashes trimmed.

End Origin.

Definition buildApiUrl (API_BASE_URL path : string) : string :=
  let normalizedPath := if Js.startsWith "/" path then path else "/" ++ path in
  API_BASE_URL ++ normalizedPath.

End Env.

(* ===================================================================== *)
(** * Part II: properties *)
(* ===================================================================== *)

(** ** The insertion-ordered map *)

Module JsMapFacts.
Import JsMap.

Section Facts.
Context {V : Type}.
Implicit Types (m : JsMap.t V) (k : Z) (v : V).

Lemma get_set_eq m k v : get (set m k v) k = Some v.
Proof.
  induction m as [| [k' v'] rest IH]; simpl.
  - now rewrite Z.eqb_refl.
  - destruct (Z.eqb_spec k' k) as [-> | Hne]; simpl.
    + now rewrite Z.eqb_refl.
    + destruct (Z.eqb_spec k' k); [contradiction | exact IH].
Qed.

Lemma get_set_ne m k k' v : k <> k' -> get (set m k v) k' = get m k'.
Proof.
  intros Hne. induction m as [| [k0 v0] rest IH]; simpl.
  - destruct (Z.eqb_spec k k'); [contradiction | reflexivity].
  - destruct (Z.eqb_spec k0 k) as [-> | Hk]; simpl.
    + destruct (Z.eqb_spec k k'); [contradiction | reflexivity].
    + destruct (Z.eqb_spec k0 k'); [reflexivity | exact IH].
Qed.

Lemma get_None_keys m k : get m k = None <-> ~ In k (keys m).
Proof.
  induction m as [| [k' v'] rest IH]; simpl.
  - tauto.
  - destruct (Z.eqb_spec k' k) as [-> | Hne].
    + split; [discriminate | tauto].
    + rewrite IH. tauto.
Qed.

Lemma get_Some_In m k v : get m k = Some v -> In (k, v) m.
Proof.
  induction m as [| [k' v'] rest IH]; simpl; [discriminate |].
  destruct (Z.eqb_spec k' k) as [-> | Hne].
  - intros [= ->]. now left.
  - intros H. right. now apply IH.
Qed.

Lemma In_set m k v k' v' :
  In (k', v') (set m k v) -> (k', v') = (k, v) \/ In (k', v') m.
Proof.
  induction m as [| [k0 v0] rest IH]; simpl.
  - intros [H | []]. now left.
  - destruct (Z.eqb_spec k0 k) as [-> | Hne]; simpl.
    + intros [H | H]; [now left | right; now right].
    + intros [H | H]; [right; now left |].
      destruct (IH H) as [E | E]; [now left | right; now right].
Qed.

Lemma keys_set m k v :
  keys (set m k v) = if has m k then keys m else (keys m ++ [k])%list.
Proof.
  unfold has, keys. induction m as [| [k0 v0] rest IH]; simpl; [reflexivity |].
  destruct (Z.eqb_spec k0 k) as [-> | Hne]; simpl; [reflexivity |].
  rewrite IH. now destruct (get rest k).
Qed.

Lemma wf_set m k v : wf m -> wf (set m k v).
Proof.
  unfold wf. intros Hwf. rewrite keys_set. unfold has.
  destruct (get m k) eqn:E; [exact Hwf |].
  apply get_None_keys in E.
  apply NoDup_rev in Hwf. rewrite <- (rev_involutive (keys m ++ [k])%list).
  apply NoDup_rev. rewrite rev_app_distr. simpl.
  constructor; [| exact Hwf]. now rewrite <- in_rev.
Qed.

Lemma get_delete_eq m k : get (delete m k) k = None.
Proof.
  apply get_None_keys. unfold keys, delete. rewrite in_map_iff.
  intros [[k' v'] [Hk Hin]]. simpl in Hk. subst k'.
  apply filter_In in Hin. destruct Hin as [_ Hb]. simpl in Hb.
  now rewrite Z.eqb_refl in Hb.
Qed.

Lemma delete_absent m k : get m k = None -> delete m k = m.
Proof.
  unfold delete. induction m as [| [k' v'] rest IH]; simpl; [reflexivity |].
  destruct (Z.eqb_spec k' k) as [-> | Hne]; [discriminate |].
  intros H. simpl. now rewrite IH.
Qed.

Lemma delete_set_absent m k v : get m k = None -> delete (set m k v) k = m.
Proof.
  unfold delete. induction m as [| [k' v'] rest IH]; simpl.
  - now rewrite Z.eqb_refl.
  - destruct (Z.eqb_spec k' k) as [-> | Hne]; [discriminate |].
    intros H. simpl. destruct (Z.eqb_spec k' k); [contradiction |].
    simpl. now rewrite IH.
Qed.

(** Replaying a list of entries over a map. *)
Lemma get_fold_entries (es : list (Z * V)) : forall m k,
  wf es ->
  get (fold_left (fun acc entry => set acc (fst entry) (snd entry)) es m) k
  = match get es k with
    | Some v => Some v
    | None => get m k
    end.
Proof.
  induction es as [| [k0 v0] rest IH]; intros m k Hwf; simpl; [reflexivity |].
  inversion Hwf as [| ? ? Hnotin Hrest]; subst.
  rewrite (IH _ _ Hrest).
  destruct (Z.eqb_spec k0 k) as [-> | Hne].
  - apply get_None_keys in Hnotin. rewrite Hnotin. apply get_set_eq.
  - now rewrite get_set_ne.
Qed.

Lemma wf_fold {B : Type} (f : B -> Z) (g : B -> V) (l : list B) : forall m,
  wf m -> wf (fold_left (fun acc x => set acc (f x) (g x)) l m).
Proof.
  induction l as [| x rest IH]; intros m Hwf; simpl; [exact Hwf |].
  apply IH. now apply wf_set.
Qed.

End Facts.

End JsMapFacts.

(** ** Numbers and their strings *)

Module JsFacts.
Import Js.

Lemma roundHalfEven_one (a : Z) : roundHalfEven a 1 = a.
Proof.
  unfold roundHalfEven. rewrite Z.div_1_r, Z.mod_1_r. reflexivity.
Qed.

Lemma floorLog2_one (a : Z) : (0 < a)%Z -> floorLog2 a 1 = Z.log2 a.
Proof.
  intros Ha. unfold floorLog2. change (Z.log2 1) with 0%Z. rewrite Z.sub_0_r.
  pose proof (Z.log2_nonneg a) as Hnonneg.
  destruct (Z.leb_spec 0 (Z.log2 a)) as [_ | Hneg]; [| lia].
  rewrite Z.mul_1_l.
  destruct (Z.leb_spec (2 ^ Z.log2 a) a) as [_ | Hlt]; [reflexivity |].
  pose proof (Z.log2_spec a Ha). lia.
Qed.

(** An integer below [2^53] in magnitude is a binary64 value: rounding
    leaves it as it is. *)
Lemma toDouble_exact (negative : bool) (a : Z) :
  (0 < a < 2 ^ 53)%Z ->
  isInteger (toDouble negative a 1) = true
  /\ integerValue (toDouble negative a 1) = if negative then (- a)%Z else a.
Proof.
  intros [Hpos Hlt]. unfold toDouble.
  destruct (Z.eqb_spec a 0) as [E | _]; [lia |].
  rewrite floorLog2_one by exact Hpos.
  assert (0 <= Z.log2 a < 53)%Z as [Hl0 Hl1].
  { split; [apply Z.log2_nonneg |]. apply Z.log2_lt_pow2; [exact Hpos | exact Hlt]. }
  rewrite Z.max_l by lia.
  destruct (Z.leb_spec 0 (Z.log2 a - 52)) as [Hp | Hp].
  - assert (Z.log2 a - 52 = 0)%Z as -> by lia.
    change (1 * 2 ^ 0)%Z with 1%Z. rewrite roundHalfEven_one.
    destruct (Z.leb_spec 1024 (Z.log2 a + 0)) as [Hbig | _]; [lia |].
    simpl. split; [reflexivity |]. destruct negative; lia.
  - rewrite roundHalfEven_one.
    set (k := (- (Z.log2 a - 52))%Z).
    assert (0 < k)%Z as Hk by (unfold k; lia).
    assert (0 < 2 ^ k)%Z as Hpow by (apply Z.pow_pos_nonneg; lia).
    rewrite Z.log2_mul_pow2 by lia.
    destruct (Z.leb_spec 1024 (k + Z.log2 a + (Z.log2 a - 52))) as [Hbig | _];
      [unfold k in Hbig; lia |].
    unfold isInteger, integerValue.
    destruct (Z.leb_spec 0 (Z.log2 a - 52)) as [Hbad | _]; [lia |].
    fold k. destruct negative.
    + rewrite <- Z.mul_opp_l. rewrite Z.mod_mul, Z.div_mul by lia.
      split; reflexivity.
    + rewrite Z.mod_mul, Z.div_mul by lia. split; reflexivity.
Qed.


(** A decimal digit is none of the other characters the grammar looks
    for. *)
Lemma decimalDigit_other (c : ascii) (v : Z) :
  decimalDigit c = Some v ->
  isWhiteSpace c = false
  /\ isChar c "x" "X" = false /\ isChar c "o" "O" = false /\ isChar c "b" "B" = false
  /\ Ascii.eqb c "-" = false /\ Ascii.eqb c "+" = false /\ Ascii.eqb c "I" = false.
Proof.
  destruct c as [[] [] [] [] [] [] [] []]; vm_compute; intros H;
    try discriminate; repeat split.
Qed.

Lemma trimStart_id (cs : list ascii) :
  List.Forall (fun c => isWhiteSpace c = false) cs -> trimStart cs = cs.
Proof.
  intros H. destruct H as [| c rest Hc _]; simpl; [reflexivity |]. now rewrite Hc.
Qed.

Lemma trim_id (cs : list ascii) :
  List.Forall (fun c => isWhiteSpace c = false) cs -> trim cs = cs.
Proof.
  intros H. unfold trim. rewrite (trimStart_id cs H).
  rewrite trimStart_id; [apply rev_involutive |].
  apply List.Forall_forall. intros c Hin. apply in_rev in Hin.
  revert c Hin. now apply List.Forall_forall.
Qed.

(** The digits of a decimal numeral are read back as its value. *)
Lemma takeDigits_uint (d : Decimal.uint) :
  exists ds,
    takeDigits decimalDigit (list_ascii_of_string (NilEmpty.string_of_uint d)) = (ds, [])
    /\ List.Forall isDecimalDigit (list_ascii_of_string (NilEmpty.string_of_uint d))
    /\ (d <> Decimal.Nil -> ds <> [])
    /\ forall acc,
         fold_left (fun a v => (10 * a + v)%Z) ds (Z.of_N (Unsigned.of_lu acc))
         = Z.of_N (Unsigned.of_lu (Decimal.revapp d acc)).
Proof.
  induction d as [| d IH | d IH | d IH | d IH | d IH | d IH | d IH | d IH | d IH | d IH];
    [ exists []; repeat split; [constructor | intros H; contradiction] | .. ];
    destruct IH as (ds & Htake & Hall & _ & Hval);
    cbn [NilEmpty.string_of_uint list_ascii_of_string takeDigits];
    match goal with
    | |- context [decimalDigit ?c] =>
        let v := eval vm_compute in (decimalDigit c) in
        change (decimalDigit c) with v; cbv iota;
        rewrite Htake;
        match v with
        | Some ?n =>
            exists (n :: ds);
            split; [reflexivity |];
            split; [constructor; [exists n; reflexivity | exact Hall] |];
            split; [discriminate |];
            intros acc; cbn [fold_left Decimal.revapp];
            rewrite <- Hval; f_equal; cbn [Unsigned.of_lu]; lia
        end
    end.
Qed.

Lemma horner_to_uint (p : positive) :
  exists ds,
    takeDigits decimalDigit
      (list_ascii_of_string (NilEmpty.string_of_uint (Pos.to_uint p))) = (ds, [])
    /\ ds <> []
    /\ horner 10 ds = Z.pos p.
Proof.
  destruct (takeDigits_uint (Pos.to_uint p)) as (ds & Htake & _ & Hne & Hval).
  exists ds. split; [exact Htake |]. split; [apply Hne, Unsigned.to_uint_nonnil |].
  unfold horner. specialize (Hval Decimal.Nil). cbn [Unsigned.of_lu] in Hval.
  change (Z.of_N 0) with 0%Z in Hval. rewrite Hval.
  change (Decimal.revapp (Pos.to_uint p) Decimal.Nil) with (Decimal.rev (Pos.to_uint p)).
  rewrite <- Unsigned.of_uint_alt, Unsigned.of_to. reflexivity.
Qed.


Lemma takeDigits_head (cs : list ascii) (ds : list Z) :
  takeDigits decimalDigit cs = (ds, []) -> ds <> [] ->
  exists c rest v, cs = c :: rest /\ decimalDigit c = Some v.
Proof.
  destruct cs as [| c rest]; simpl.
  - intros [= <-] H. contradiction.
  - destruct (decimalDigit c) as [v |] eqn:E.
    + intros _ _. now exists c, rest, v.
    + intros [=].
Qed.

Lemma parseUnsignedDecimal_digits (cs : list ascii) (ds : list Z) :
  takeDigits decimalDigit cs = (ds, []) -> ds <> [] ->
  parseUnsignedDecimal cs = Some (horner 10 ds, 0%Z).
Proof.
  intros Htake Hne. unfold parseUnsignedDecimal. rewrite Htake.
  destruct ds; [contradiction | reflexivity].
Qed.

Lemma parseSignedDecimal_digits (cs : list ascii) (ds : list Z) :
  takeDigits decimalDigit cs = (ds, []) -> ds <> [] ->
  parseSignedDecimal cs = toDouble false (horner 10 ds) 1
  /\ parseSignedDecimal ("-"%char :: cs) = toDouble true (horner 10 ds) 1.
Proof.
  intros Htake Hne.
  destruct (takeDigits_head cs ds Htake Hne) as (c & rest & v & -> & Hc).
  destruct (decimalDigit_other c v Hc) as (_ & _ & _ & _ & Hminus & Hplus & HI).
  unfold parseSignedDecimal. rewrite Hminus, Hplus.
  change (Ascii.eqb "-" "-") with true. cbv iota.
  change (string_of_list_ascii (c :: rest)) with (String c (string_of_list_ascii rest)).
  cbn [String.eqb]. rewrite HI.
  rewrite (parseUnsignedDecimal_digits _ _ Htake Hne).
  change (0 <=? 0)%Z with true. cbv iota.
  change (10 ^ 0)%Z with 1%Z. rewrite Z.mul_1_r. split; reflexivity.
Qed.

(** [Number] reads the decimal numeral of a positive integer, with or
    without a minus sign, as that integer rounded to binary64. *)
Lemma stringToNumber_numeral (p : positive) :
  stringToNumber (NilEmpty.string_of_uint (Pos.to_uint p)) = toDouble false (Z.pos p) 1
  /\ stringToNumber (String "-" (NilEmpty.string_of_uint (Pos.to_uint p)))
     = toDouble true (Z.pos p) 1.
Proof.
  destruct (horner_to_uint p) as (ds & Htake & Hne & Hval).
  destruct (takeDigits_uint (Pos.to_uint p)) as (ds' & _ & Hall & _).
  set (cs := list_ascii_of_string (NilEmpty.string_of_uint (Pos.to_uint p))) in *.
  destruct (parseSignedDecimal_digits cs ds Htake Hne) as [Hplain Hsigned].
  rewrite Hval in Hplain, Hsigned.
  assert (List.Forall (fun c => isWhiteSpace c = false) cs) as Hws.
  { eapply List.Forall_impl; [| exact Hall].
    intros c [v Hc]. now destruct (decimalDigit_other c v Hc). }
  unfold stringToNumber. cbn [list_ascii_of_string]. fold cs. split.
  - rewrite (trim_id cs Hws). rewrite <- Hplain.
    destruct Hall as [| c0 rest0 [v0 H0] Hrest];
      [exfalso; apply Hne; now injection Htake as <- |].
    destruct Hrest as [| c1 rest1 [v1 H1] _]; [reflexivity |].
    destruct (decimalDigit_other c1 v1 H1) as (_ & Hx & Ho & Hb & _).
    rewrite Hx, Ho, Hb, !andb_false_r. reflexivity.
  - rewrite (trim_id ("-"%char :: cs)) by (constructor; [reflexivity | exact Hws]).
    rewrite <- Hsigned.
    destruct cs as [| c1 rest1]; reflexivity.
Qed.

(** Reading back the decimal string of an integer below [2^53] in
    magnitude gives an integer-valued number, the one written. *)
Lemma stringToNumber_numberToString (n : Z) :
  (- 2 ^ 53 < n < 2 ^ 53)%Z ->
  isInteger (stringToNumber (numberToString n)) = true
  /\ integerValue (stringToNumber (numberToString n)) = n.
Proof.
  intros Hn. unfold numberToString.
  destruct n as [| p | p]; cbn [Z.to_int NilZero.string_of_int].
  - split; reflexivity.
  - assert (NilZero.string_of_uint (Pos.to_uint p)
            = NilEmpty.string_of_uint (Pos.to_uint p)) as ->.
    { pose proof (Unsigned.to_uint_nonnil p) as H.
      unfold NilZero.string_of_uint. now destruct (Pos.to_uint p). }
    rewrite (proj1 (stringToNumber_numeral p)).
    apply (toDouble_exact false). lia.
  - assert (NilZero.string_of_uint (Pos.to_uint p)
            = NilEmpty.string_of_uint (Pos.to_uint p)) as ->.
    { pose proof (Unsigned.to_uint_nonnil p) as H.
      unfold NilZero.string_of_uint. now destruct (Pos.to_uint p). }
    rewrite (proj2 (stringToNumber_numeral p)).
    change (Z.neg p) with (- Z.pos p)%Z.
    apply (toDouble_exact true). lia.
Qed.

End JsFacts.

(** ** The dashboard *)

Module AppFacts.
Import Api App.

(** *** Warnings of a move *)

Lemma includes_In (x : string) (items : list string) :
  Js.includes x items = true <-> In x items.
Proof.
  unfold Js.includes. rewrite existsb_exists. split.
  - intros [y [Hin Heq]]. apply String.eqb_eq in Heq. now subst.
  - intros Hin. exists x. split; [exact Hin | apply String.eqb_refl].
Qed.

Lemma truthyString_nonempty (s : string) :
  Js.truthyString s = true <-> s <> EmptyString.
Proof.
  unfold Js.truthyString. destruct (String.eqb_spec s EmptyString); simpl.
  - split; [discriminate | contradiction].
  - split; [intros _; assumption | reflexivity].
Qed.

(** C3. [collectMoveWarnings] returns the response's warnings with the
    pickup reason appended exactly when the spawn failed, the reason is a
    non-empty string and the warnings do not hold it yet; otherwise it
    returns the warnings as they are.  So a failed spawn with a reason
    always gives a non-empty list that holds the reason, and a successful
    spawn gives the warnings unchanged. *)
Theorem collectMoveWarnings_spec (response : MoveTicketResponse) :
  let failedWithNewReason (why : string) :=
    reason (pickup response) = Some why
    /\ spawned (pickup response) = false
    /\ why <> EmptyString
    /\ ~ In why (warnings response) in
  (forall why, failedWithNewReason why ->
     collectMoveWarnings response = (warnings response ++ [why])%list)
  /\ ((forall why, ~ failedWithNewReason why) ->
     collectMoveWarnings response = warnings response)
  /\ (forall why,
        reason (pickup response) = Some why ->
        spawned (pickup response) = false ->
        why <> EmptyString ->
        collectMoveWarnings response <> [] /\ In why (collectMoveWarnings response))
  /\ (spawned (pickup response) = true ->
      collectMoveWarnings response = warnings response).
Proof.
  unfold collectMoveWarnings. cbv zeta.
  destruct (reason (pickup response)) as [why |] eqn:Hreason.
  2:{ repeat split; try reflexivity; intros; try discriminate.
      destruct H as [H _]. discriminate. }
  destruct (spawned (pickup response)) eqn:Hspawned; simpl.
  { repeat split; try reflexivity; intros; try discriminate.
    destruct H as (_ & H & _). discriminate. }
  destruct (Js.truthyString why) eqn:Htruthy; simpl.
  2:{ assert (why = EmptyString) as ->.
      { destruct (String.eqb_spec why EmptyString) as [E | E]; [exact E |].
        apply truthyString_nonempty in E. congruence. }
      repeat split; try reflexivity; intros; try discriminate.
      - destruct H as ([= <-] & _ & H & _). contradiction.
      - injection H as <-. contradiction.
      - injection H as <-. contradiction. }
  apply truthyString_nonempty in Htruthy.
  destruct (Js.includes why (warnings response)) eqn:Hinc; simpl.
  - apply includes_In in Hinc.
    repeat split; try reflexivity; intros; try discriminate.
    + destruct H as ([= <-] & _ & _ & H). contradiction.
    + intros E. rewrite E in Hinc. destruct Hinc.
    + injection H as <-. exact Hinc.
  - assert (~ In why (warnings response)) as Hnotin.
    { intros Hin. apply includes_In in Hin. congruence. }
    repeat split; intros; try discriminate.
    + destruct H as ([= <-] & _). reflexivity.
    + exfalso. apply (H why). repeat split; auto.
    + intros E. apply app_eq_nil in E. destruct E as [_ E]. discriminate.
    + injection H as <-. apply in_or_app. right. now left.
Qed.

Lemma collectMoveWarnings_spec_witness :
  let response :=
    {| ok := true;
       ticket := mkTicket 7 "Ship it" EmptyString Plan "Ada" High None None "t0" "t1";
       from := Todo; to := Plan;
       pickup := mkPickupResult true false None None None (Some "Gateway unreachable");
       warnings := ["Agent directory is stale"] |} in
  collectMoveWarnings response
  = ["Agent directory is stale"; "Gateway unreachable"].
Proof.
  intros response.
  destruct (collectMoveWarnings_spec response) as [Happend _].
  apply (Happend "Gateway unreachable").
  repeat split.
  - discriminate.
  - simpl. intros [H | []]. discriminate.
Defined.

(** *** Realtime payloads *)

Lemma refresh_tag_In (tag : string) :
  tag ∈ REALTIME_REFRESH_EVENT_TYPES <->
  In tag [ "ticket_created"; "ticket_updated"; "ticket_moved";
           "ticket_archived"; "comment_added"; "ticket_event" ].
Proof.
  unfold REALTIME_REFRESH_EVENT_TYPES.
  rewrite elem_of_list_to_set. apply list_elem_of_In.
Qed.

(** C5. [shouldRefetchFromRealtimePayload] answers [true] exactly for a
    non-null object whose [type] is a string among the six broadcast tags;
    the set has six elements, and every other payload, a ping or a pong
    among them, is answered [false]. *)
Theorem shouldRefetchFromRealtimePayload_spec (payload : Js.Value) :
  (shouldRefetchFromRealtimePayload payload = true <->
     Js.typeof payload = "object" /\ payload <> Js.Null
     /\ exists tag,
          Js.getProp payload "type" = Js.Str tag
          /\ In tag [ "ticket_created"; "ticket_updated"; "ticket_moved";
                      "ticket_archived"; "comment_added"; "ticket_event" ])
  /\ size REALTIME_REFRESH_EVENT_TYPES = 6%nat
  /\ shouldRefetchFromRealtimePayload (Js.Object [("type", Js.Str "ping")]) = false
  /\ shouldRefetchFromRealtimePayload (Js.Object [("type", Js.Str "pong")]) = false
  /\ shouldRefetchFromRealtimePayload (Js.Str "ticket_moved") = false
  /\ shouldRefetchFromRealtimePayload (Js.Object [("type", Js.Num (Js.Fin 1 0))]) = false
  /\ shouldRefetchFromRealtimePayload (Js.Object [("kind", Js.Str "ticket_moved")]) = false.
Proof.
  split; [| repeat split; vm_compute; reflexivity].
  unfold shouldRefetchFromRealtimePayload.
  destruct payload as [| | b | n | s | items | props]; simpl.
  - split; [discriminate | intros (H & _); discriminate].
  - split; [discriminate | intros (_ & H & _); contradiction].
  - split; [| intros (H & _); discriminate].
    destruct b; discriminate.
  - split; [| intros (H & _); discriminate].
    rewrite orb_true_r. discriminate.
  - split; [| intros (H & _); discriminate].
    rewrite orb_true_r. discriminate.
  - split; [discriminate | intros (_ & _ & tag & H & _); discriminate].
  - destruct (Js.lookupProp "type" props) as [[| | b | n | s | items | props'] |];
      simpl;
      try (split; [discriminate | intros (_ & _ & tag & H & _); discriminate]).
    rewrite bool_decide_eq_true, refresh_tag_In. split.
    + intros Hin. repeat split; [discriminate |]. exists s. now split.
    + intros (_ & _ & tag & [= <-] & Hin). exact Hin.
Qed.

Lemma shouldRefetchFromRealtimePayload_spec_witness :
  shouldRefetchFromRealtimePayload
    (Js.Object [("type", Js.Str "comment_added"); ("ticket_id", Js.Num (Js.Fin 3 0))])
  = true.
Proof.
  apply (proj1 (shouldRefetchFromRealtimePayload_spec _)).
  repeat split.
  - discriminate.
  - exists "comment_added". split; [reflexivity |].
    simpl. tauto.
Defined.

(** *** Merging the three sources of tickets *)

Lemma lastWithId_cons (i : Z) (t : Ticket) (rest : list Ticket) :
  lastWithId i (t :: rest)
  = match lastWithId i rest with
    | Some u => Some u
    | None => if Z.eqb (id t) i then Some t else None
    end.
Proof.
  unfold lastWithId. simpl rev.
  induction (rev rest) as [| u us IH]; simpl.
  - now destruct (Z.eqb (id t) i).
  - destruct (Z.eqb (id u) i); [reflexivity | exact IH].
Qed.

Lemma lastWithId_Some (i : Z) (tickets : list Ticket) (t : Ticket) :
  lastWithId i tickets = Some t -> In t tickets /\ id t = i.
Proof.
  unfold lastWithId. intros H. apply find_some in H. destruct H as [Hin Heq].
  split; [now apply in_rev | now apply Z.eqb_eq].
Qed.

Lemma get_fold_tickets (tickets : list Ticket) : forall (m : JsMap.t Ticket) (k : Z),
  JsMap.get (fold_left (fun acc t => JsMap.set acc (id t) t) tickets m) k
  = match lastWithId k tickets with
    | Some t => Some t
    | None => JsMap.get m k
    end.
Proof.
  induction tickets as [| t rest IH]; intros m k; simpl; [reflexivity |].
  rewrite IH, lastWithId_cons.
  destruct (lastWithId k rest); [reflexivity |].
  destruct (Z.eqb_spec (id t) k) as [<- | Hne].
  - apply JsMapFacts.get_set_eq.
  - now apply JsMapFacts.get_set_ne.
Qed.

Lemma keyedById_fold_tickets (tickets : list Ticket) : forall m : JsMap.t Ticket,
  keyedById m ->
  keyedById (fold_left (fun acc t => JsMap.set acc (id t) t) tickets m).
Proof.
  induction tickets as [| t rest IH]; intros m Hm; simpl; [exact Hm |].
  apply IH. intros k u Hin.
  apply JsMapFacts.In_set in Hin. destruct Hin as [[= -> ->] | Hin]; [reflexivity |].
  now apply Hm.
Qed.

Lemma keyedById_fold_entries (es : list (Z * Ticket)) : forall m : JsMap.t Ticket,
  keyedById es -> keyedById m ->
  keyedById (fold_left (fun acc entry => JsMap.set acc (fst entry) (snd entry)) es m).
Proof.
  induction es as [| [k0 t0] rest IH]; intros m Hes Hm; simpl; [exact Hm |].
  apply IH.
  - intros k u Hin. apply Hes. now right.
  - intros k u Hin.
    apply JsMapFacts.In_set in Hin. destruct Hin as [[= -> ->] | Hin].
    + apply Hes. now left.
    + now apply Hm.
Qed.

(** In a map keyed by id, the values that bear an id are the entry stored
    under it, if any. *)
Lemma filter_values_keyed (m : JsMap.t Ticket) (i : Z) :
  JsMap.wf m -> keyedById m ->
  List.filter (fun t => Z.eqb (id t) i) (JsMap.values m)
  = match JsMap.get m i with
    | Some t => [t]
    | None => []
    end.
Proof.
  unfold JsMap.wf, JsMap.keys, JsMap.values.
  induction m as [| [k v] rest IH]; intros Hwf Hkeyed; simpl; [reflexivity |].
  inversion Hwf as [| ? ? Hnotin Hrest]; subst.
  assert (id v = k) as Hv by (apply Hkeyed; now left).
  assert (keyedById rest) as Hkrest by (intros k' t' Hin; apply Hkeyed; now right).
  rewrite Hv. destruct (Z.eqb_spec k i) as [-> | Hne].
  - f_equal. rewrite (IH Hrest Hkrest).
    apply JsMapFacts.get_None_keys in Hnotin. now rewrite Hnotin.
  - now apply IH.
Qed.

Lemma mergeTickets_values serverTickets pendingTickets optimistic :
  mergeTickets serverTickets pendingTickets optimistic
  = JsMap.values (mergedMap serverTickets pendingTickets optimistic).
Proof. reflexivity. Qed.

Lemma mergedMap_wf serverTickets pendingTickets optimistic :
  JsMap.wf (mergedMap serverTickets pendingTickets optimistic).
Proof.
  unfold mergedMap.
  apply (JsMapFacts.wf_fold fst snd).
  apply (JsMapFacts.wf_fold id (fun t => t)).
  apply (JsMapFacts.wf_fold id (fun t => t)).
  constructor.
Qed.

Lemma mergedMap_get serverTickets pendingTickets optimistic (k : Z) :
  JsMap.wf optimistic ->
  JsMap.get (mergedMap serverTickets pendingTickets optimistic) k
  = match JsMap.get optimistic k with
    | Some t => Some t
    | None =>
        match lastWithId k serverTickets with
        | Some t => Some t
        | None => lastWithId k pendingTickets
        end
    end.
Proof.
  intros Hwf. unfold mergedMap.
  rewrite JsMapFacts.get_fold_entries by exact Hwf.
  rewrite !get_fold_tickets. simpl.
  now destruct (lastWithId k pendingTickets).
Qed.

Lemma mergedMap_keyed serverTickets pendingTickets optimistic :
  keyedById optimistic -> keyedById (mergedMap serverTickets pendingTickets optimistic).
Proof.
  intros Hkeyed. unfold mergedMap. apply keyedById_fold_entries; [exact Hkeyed |].
  apply keyedById_fold_tickets. apply keyedById_fold_tickets.
  intros k t [].
Qed.

Lemma mergeTickets_NoDup_ids serverTickets pendingTickets optimistic :
  keyedById optimistic ->
  List.NoDup (List.map id (mergeTickets serverTickets pendingTickets optimistic)).
Proof.
  intros Hkeyed. rewrite mergeTickets_values.
  assert (List.map id (JsMap.values (mergedMap serverTickets pendingTickets optimistic))
          = JsMap.keys (mergedMap serverTickets pendingTickets optimistic)) as ->.
  { unfold JsMap.values, JsMap.keys. rewrite List.map_map.
    apply List.map_ext_in. intros [k t] Hin. simpl.
    exact (mergedMap_keyed serverTickets pendingTickets optimistic Hkeyed k t Hin). }
  apply mergedMap_wf.
Qed.

(** C9, as amended.  [mergeTickets] returns the values of a map with one
    ticket per key: under each key the optimistic entry if there is one,
    otherwise the (last) server ticket with that id, otherwise the (last)
    pending one.  When every optimistic entry is stored under its own
    ticket's id, the tickets returned for an id are therefore exactly that
    one, or none, and no id occurs twice in the result. *)
Theorem mergeTickets_one_per_id (serverTickets pendingTickets : list Ticket)
  (optimistic : JsMap.t Ticket) :
  JsMap.wf optimistic ->
  (exists merged : JsMap.t Ticket,
      mergeTickets serverTickets pendingTickets optimistic = JsMap.values merged
      /\ JsMap.wf merged
      /\ forall k : Z,
           JsMap.get merged k
           = match JsMap.get optimistic k with
             | Some t => Some t
             | None =>
                 match lastWithId k serverTickets with
                 | Some t => Some t
                 | None => lastWithId k pendingTickets
                 end
             end)
  /\ (keyedById optimistic ->
      (forall i : Z,
         List.filter (fun t => Z.eqb (id t) i)
           (mergeTickets serverTickets pendingTickets optimistic)
         = match JsMap.get optimistic i with
           | Some t => [t]
           | None =>
               match lastWithId i serverTickets with
               | Some t => [t]
               | None =>
                   match lastWithId i pendingTickets with
                   | Some t => [t]
                   | None => []
                   end
               end
           end)
      /\ List.NoDup (List.map id (mergeTickets serverTickets pendingTickets optimistic))).
Proof.
  intros Hwf. split.
  - exists (mergedMap serverTickets pendingTickets optimistic).
    split; [apply mergeTickets_values |]. split; [apply mergedMap_wf |].
    intros k. now apply mergedMap_get.
  - intros Hkeyed. split.
    + intros i. rewrite mergeTickets_values.
      rewrite (filter_values_keyed _ i (mergedMap_wf _ _ _) (mergedMap_keyed _ _ _ Hkeyed)).
      rewrite (mergedMap_get _ _ _ i Hwf).
      destruct (JsMap.get optimistic i); [reflexivity |].
      destruct (lastWithId i serverTickets); reflexivity.
    + now apply mergeTickets_NoDup_ids.
Qed.

Lemma mergeTickets_one_per_id_witness :
  let served := mkTicket 1 "Write report" EmptyString Todo "Ada" Medium None None "t0" "t0" in
  let moved := mkTicket 1 "Write report" EmptyString Review "Ada" Medium None None "t0" "t1" in
  let pendingNew := mkTicket (-1700) "New task" EmptyString Plan "Unassigned" Medium None None "t2" "t2" in
  List.filter (fun t => Z.eqb (id t) 1)
    (mergeTickets [served] [pendingNew] [(1, moved)]) = [moved].
Proof.
  intros served moved pendingNew.
  refine (proj1 (proj2 (mergeTickets_one_per_id [served] [pendingNew] [(1, moved)] _) _) 1).
  - repeat constructor. simpl. tauto.
  - intros k t [[= <- <-] | []]. reflexivity.
Defined.

(** C9 as stated fails when an optimistic entry is stored under a key
    that is not its ticket's id: the result then lists two tickets with
    the same id. *)
Lemma mergeTickets_same_id_twice :
  let served := mkTicket 1 "Write report" EmptyString Todo "Ada" Medium None None "t0" "t0" in
  let answered := mkTicket 1 "Write report" EmptyString Review "Ada" Medium None None "t0" "t1" in
  mergeTickets [served] [] [(2, answered)] = [served; answered]
  /\ ~ List.NoDup (List.map id (mergeTickets [served] [] [(2, answered)])).
Proof.
  split; [reflexivity |].
  simpl. intros H. inversion H as [| ? ? Hnotin _]. apply Hnotin. now left.
Qed.

(** *** The tickets on the board *)

Lemma boardTickets_archived_at (view : Render) (t : Ticket) :
  In t (boardTickets view) -> archived_at t = None.
Proof.
  unfold boardTickets. intros H. apply filter_In in H. destruct H as [_ H].
  now destruct (archived_at t).
Qed.

Lemma ticketById_get (view : Render) (k : Z) :
  JsMap.get (ticketById view) k = lastWithId k (boardTickets view).
Proof.
  unfold ticketById. rewrite get_fold_tickets.
  now destruct (lastWithId k (boardTickets view)).
Qed.

Lemma ticketById_on_board (view : Render) (k : Z) (t : Ticket) :
  JsMap.get (ticketById view) k = Some t -> In t (boardTickets view) /\ id t = k.
Proof.
  rewrite ticketById_get. apply lastWithId_Some.
Qed.

Lemma NoDup_map_filter {A B : Type} (f : A -> B) (p : A -> bool) (l : list A) :
  List.NoDup (List.map f l) -> List.NoDup (List.map f (List.filter p l)).
Proof.
  induction l as [| x rest IH]; simpl; intros H; [exact H |].
  inversion H as [| ? ? Hnotin Hrest]; subst.
  destruct (p x); simpl; [| now apply IH].
  constructor; [| now apply IH].
  intros Hin. apply Hnotin. apply in_map_iff in Hin.
  destruct Hin as [y [Hy Hin]]. apply filter_In in Hin.
  apply in_map_iff. exists y. tauto.
Qed.

Lemma find_by_id_unique (l : list Ticket) (t : Ticket) :
  List.NoDup (List.map id l) -> In t l ->
  List.find (fun u => Z.eqb (id u) (id t)) l = Some t.
Proof.
  induction l as [| x rest IH]; simpl; intros Hnodup Hin; [contradiction |].
  inversion Hnodup as [| ? ? Hnotin Hrest]; subst.
  destruct (Z.eqb_spec (id x) (id t)) as [E | Hne].
  - destruct Hin as [-> | Hin]; [reflexivity |].
    exfalso. apply Hnotin. rewrite E. now apply in_map.
  - destruct Hin as [-> | Hin]; [contradiction | now apply IH].
Qed.

(** When the optimistic map is keyed by id, the board's index holds every
    ticket of the board under its id. *)
Lemma board_ticket_indexed (view : Render) (t : Ticket) :
  keyedById (optimisticTickets (board view)) ->
  In t (boardTickets view) ->
  JsMap.get (ticketById view) (id t) = Some t.
Proof.
  intros Hkeyed Hin. rewrite ticketById_get. unfold lastWithId.
  apply find_by_id_unique; [| now apply in_rev in Hin].
  rewrite List.map_rev. apply NoDup_rev. unfold boardTickets.
  now apply NoDup_map_filter, mergeTickets_NoDup_ids.
Qed.

(** C1. Whatever the server, pending and optimistic tickets are, every
    ticket of [boardTickets] has [archived_at] null; and every move
    request [moveTicket] issues is for a ticket it found on the board, so
    for one whose [archived_at] is null. *)
Theorem moveTicket_never_moves_archived (view : Render) :
  List.Forall (fun t => archived_at t = None) (boardTickets view)
  /\ forall (ticketId : Z) (targetStatus : TicketStatus) (now : string)
       onMove onUpdate (b : Board) (request : Z * MoveTicketRequest),
       In request
          (moveRequests (snd (run onMove onUpdate
                                (moveTicket view ticketId targetStatus now) b))) ->
       exists t,
         In t (boardTickets view)
         /\ JsMap.get (ticketById view) ticketId = Some t
         /\ id t = fst request
         /\ archived_at t = None.
Proof.
  split.
  - apply List.Forall_forall. apply boardTickets_archived_at.
  - intros ticketId targetStatus now onMove onUpdate b request.
    unfold moveTicket.
    destruct (JsMap.get (ticketById view) ticketId) as [cur |] eqn:Hget;
      [| intros []].
    destruct (ticketById_on_board _ _ _ Hget) as [Hin Hid].
    destruct (id cur <? 0)%Z; [intros [] |].
    destruct (TicketStatus_eqb (status cur) targetStatus); [intros [] |].
    destruct (bool_decide (ticketId ∈ movingTicketIds (board view))); [intros [] |].
    cbn [run]. destruct (onMove ticketId _) as [response | message].
    + destruct (collectMoveWarnings response) as [| first others];
        repeat (cbn [run]; match goal with
                           | |- context [let (_, _) := run ?a ?b ?c ?d in _] =>
                               destruct (run a b c d)
                           end);
        cbn; intros [<- | []]; exists cur; simpl;
        eauto using boardTickets_archived_at.
    + repeat (cbn [run]; match goal with
                         | |- context [let (_, _) := run ?a ?b ?c ?d in _] =>
                             destruct (run a b c d)
                         end);
        cbn; intros [<- | []]; exists cur; simpl;
        eauto using boardTickets_archived_at.
Qed.


Lemma moveTicket_never_moves_archived_witness :
  let served := mkTicket 1 "Write report" EmptyString Todo "Ada" Medium None None "t0" "t0" in
  let filed := mkTicket 2 "Old task" EmptyString Done "Ada" Low None (Some "t9") "t0" "t9" in
  let view := {| ticketsQuery_data := Some [served; filed];
                 pendingTickets := [];
                 board := initialBoard |} in
  exists t,
    In t (boardTickets view)
    /\ JsMap.get (ticketById view) 1 = Some t
    /\ id t = 1%Z
    /\ archived_at t = None.
Proof.
  intros served filed view.
  refine (proj2 (moveTicket_never_moves_archived view) 1%Z Done "t1"
            (fun _ _ => MoveRejected "Illegal transition")
            (fun _ _ => UpdateRejected "unused")
            initialBoard
            (1%Z, {| move_status := Done; move_actor := Some "User" |}) _).
  vm_compute. now left.
Defined.

(** *** Moving a ticket *)

Lemma TicketStatus_eqb_eq (a b : TicketStatus) :
  TicketStatus_eqb a b = true <-> a = b.
Proof.
  unfold TicketStatus_eqb. split.
  - destruct a, b; simpl; intros H; try reflexivity; discriminate.
  - intros ->. apply String.eqb_refl.
Qed.

(** C2. Asking [moveTicket] for the status the ticket already has issues
    no move request and changes nothing in the page's state, whatever the
    current state is: the handler ends at once, without an error (for a
    placeholder that is still being created it first says so in a
    notice).  This holds for the ticket the board's index holds under the
    id, and so for every ticket of the board when the optimistic map is
    keyed by id. *)
Theorem moveTicket_same_status_noop (view : Render) (now : string) :
  let noop (ticketId : Z) (t : Ticket) :=
    forall onMove onUpdate (b : Board),
      let outcome := run onMove onUpdate (moveTicket view ticketId (status t) now) b in
      fst outcome = b
      /\ optimisticTickets (fst outcome) = optimisticTickets b
      /\ movingTicketIds (fst outcome) = movingTicketIds b
      /\ warningByTicketId (fst outcome) = warningByTicketId b
      /\ moveRequests (snd outcome) = []
      /\ (exists notices,
            advance (moveTicket view ticketId (status t) now) b
            = (b, notices, Settled None))
      /\ ((0 <= id t)%Z -> snd outcome = []) in
  (forall (ticketId : Z) (t : Ticket),
     JsMap.get (ticketById view) ticketId = Some t -> noop ticketId t)
  /\ (keyedById (optimisticTickets (board view)) ->
      forall t : Ticket, In t (boardTickets view) -> noop (id t) t).
Proof.
  cbv zeta.
  assert (forall (ticketId : Z) (t : Ticket),
             JsMap.get (ticketById view) ticketId = Some t ->
             forall onMove onUpdate (b : Board),
               run onMove onUpdate (moveTicket view ticketId (status t) now) b
               = (b, if (id t <? 0)%Z
                     then [Notified warning
                             "Wait for ticket creation to finish before moving it."]
                     else [])
               /\ exists notices,
                    advance (moveTicket view ticketId (status t) now) b
                    = (b, notices, Settled None)) as Hnoop.
  { intros ticketId t Hget onMove onUpdate b. unfold moveTicket. rewrite Hget.
    destruct (id t <? 0)%Z; cbn; [eauto |].
    rewrite (proj2 (TicketStatus_eqb_eq (status t) (status t)) eq_refl).
    cbn. eauto. }
  assert (forall (ticketId : Z) (t : Ticket),
             JsMap.get (ticketById view) ticketId = Some t ->
             forall onMove onUpdate (b : Board),
               fst (run onMove onUpdate (moveTicket view ticketId (status t) now) b) = b
               /\ optimisticTickets
                    (fst (run onMove onUpdate (moveTicket view ticketId (status t) now) b))
                  = optimisticTickets b
               /\ movingTicketIds
                    (fst (run onMove onUpdate (moveTicket view ticketId (status t) now) b))
                  = movingTicketIds b
               /\ warningByTicketId
                    (fst (run onMove onUpdate (moveTicket view ticketId (status t) now) b))
                  = warningByTicketId b
               /\ moveRequests
                    (snd (run onMove onUpdate (moveTicket view ticketId (status t) now) b))
                  = []
               /\ (exists notices,
                     advance (moveTicket view ticketId (status t) now) b
                     = (b, notices, Settled None))
               /\ ((0 <= id t)%Z ->
                   snd (run onMove onUpdate (moveTicket view ticketId (status t) now) b)
                   = [])) as Hall.
  { intros ticketId t Hget onMove onUpdate b.
    destruct (Hnoop ticketId t Hget onMove onUpdate b) as [-> Hadv]. cbn [fst snd].
    repeat split; try reflexivity; try exact Hadv.
    - now destruct (id t <? 0)%Z.
    - intros Hpos. destruct (Z.ltb_spec (id t) 0); [lia | reflexivity]. }
  split; [exact Hall |].
  intros Hkeyed t Hin. apply Hall. now apply board_ticket_indexed.
Qed.

Lemma moveTicket_same_status_noop_witness :
  let served := mkTicket 1 "Write report" EmptyString Todo "Ada" Medium None None "t0" "t0" in
  let view := {| ticketsQuery_data := Some [served];
                 pendingTickets := [];
                 board := initialBoard |} in
  run (fun _ _ => MoveRejected "unused") (fun _ _ => UpdateRejected "unused")
    (moveTicket view 1 Todo "t1") initialBoard
  = (initialBoard, []).
Proof.
  intros served view.
  pose proof (proj2 (moveTicket_same_status_noop view "t1")) as H.
  cbv zeta in H.
  assert (keyedById (optimisticTickets (board view))) as Hkeyed by (intros k t []).
  assert (In served (boardTickets view)) as Hin by (now left).
  destruct (H Hkeyed served Hin
              (fun _ _ => MoveRejected "unused") (fun _ _ => UpdateRejected "unused")
              initialBoard) as (Hb & _ & _ & _ & _ & _ & He).
  change (moveTicket view (id served) (status served) "t1")
    with (moveTicket view 1 Todo "t1") in Hb, He.
  destruct (run _ _ _ _) as [b' effects]. simpl in Hb, He.
  rewrite Hb, He; [reflexivity |]. simpl. lia.
Defined.

Lemma dropOptimistic_get (k : Z) (m : JsMap.t Ticket) :
  JsMap.get (dropOptimistic k m) k = None.
Proof.
  unfold dropOptimistic, JsMap.has.
  destruct (JsMap.get m k) eqn:E; simpl; [apply JsMapFacts.get_delete_eq | exact E].
Qed.

Lemma dropOptimistic_set_absent (k : Z) (v : Ticket) (m : JsMap.t Ticket) :
  JsMap.get m k = None -> dropOptimistic k (JsMap.set m k v) = m.
Proof.
  intros H. unfold dropOptimistic, JsMap.has.
  rewrite JsMapFacts.get_set_eq. simpl. now apply JsMapFacts.delete_set_absent.
Qed.

Lemma dropId_notin (k : Z) (s : gset Z) : k ∉ dropId k s.
Proof.
  unfold dropId. case_bool_decide as Hk; simpl; [| exact Hk].
  rewrite elem_of_difference, elem_of_singleton. tauto.
Qed.

Lemma dropId_add_absent (k : Z) (s : gset Z) : k ∉ s -> dropId k ({[ k ]} ∪ s) = s.
Proof.
  intros H. unfold dropId. case_bool_decide as Hk; simpl.
  - apply set_eq. intros x.
    rewrite elem_of_difference, elem_of_union, elem_of_singleton.
    split; [tauto |]. intros Hx. split; [now right |]. intros ->. contradiction.
  - exfalso. apply Hk. apply elem_of_union. left. now apply elem_of_singleton.
Qed.

(** C4, as amended.  Once [moveTicket] has issued its request from the
    state of its render: if the request is rejected, the handler ends
    with the ticket's optimistic entry removed and the ticket out of
    [movingTicketIds], the warnings as they were, and, when the ticket had
    no optimistic entry before the move, with the whole state and so the
    board's tickets exactly as before the move; if the request succeeds,
    the ticket the server returned takes the place of the optimistic one
    (until the refetch has answered, after which the entry is dropped). *)
Theorem moveTicket_settles (view : Render) (ticketId : Z) (targetStatus : TicketStatus)
  (now : string) (b1 : Board) (notices : list (Tone * string))
  (requested : Z) (input : MoveTicketRequest) (resume : MoveOutcome -> Task) :
  advance (moveTicket view ticketId targetStatus now) (board view)
  = (b1, notices, PendingMove requested input resume) ->
  (requested = ticketId
   /\ input = {| move_status := targetStatus; move_actor := Some "User" |})
  /\ (forall message, exists b2 notices2,
      advance (resume (MoveRejected message)) b1 = (b2, notices2, Settled None)
      /\ JsMap.get (optimisticTickets b2) ticketId = None
      /\ (ticketId ∉ movingTicketIds b2)
      /\ warningByTicketId b2 = warningByTicketId (board view)
      /\ (JsMap.get (optimisticTickets (board view)) ticketId = None ->
          b2 = board view
          /\ boardTickets (withBoard view b2) = boardTickets view))
  /\ (forall response, exists b2 notices2 next b3 notices3,
        advance (resume (MoveResolved response)) b1 = (b2, notices2, PendingRefetch next)
        /\ JsMap.get (optimisticTickets b2) ticketId = Some (ticket response)
        /\ advance next b2 = (b3, notices3, Settled None)
        /\ JsMap.get (optimisticTickets b3) ticketId = None
        /\ (ticketId ∉ movingTicketIds b3)).
Proof.
  unfold moveTicket.
  destruct (JsMap.get (ticketById view) ticketId) as [cur |]; [| discriminate].
  destruct (id cur <? 0)%Z; [discriminate |].
  destruct (TicketStatus_eqb (status cur) targetStatus); [discriminate |].
  case_bool_decide as Hmoving; [discriminate |].
  cbn [advance]. intros [= <- <- <- <- <-].
  split; [split; reflexivity |]. split.
  - intros message. eexists _, _. cbn [advance].
    split; [reflexivity |].
    split; [apply dropOptimistic_get |].
    split; [apply dropId_notin |].
    split; [reflexivity |].
    intros Habsent.
    match goal with
    | |- ?b2 = _ /\ _ => assert (b2 = board view) as ->
    end.
    { unfold setMovingTicketIds, setOptimisticTickets. cbn.
      rewrite dropOptimistic_set_absent by exact Habsent.
      rewrite dropId_add_absent by exact Hmoving.
      now destruct (board view). }
    split; [reflexivity |]. unfold withBoard. now destruct view.
  - intros response. cbn beta iota zeta.
    destruct (collectMoveWarnings response) as [| first others];
      eexists _, _, _, _, _; cbn [advance];
      (split; [reflexivity |]); cbn;
      (split; [apply JsMapFacts.get_set_eq |]);
      (split; [reflexivity |]);
      (split; [apply dropOptimistic_get | apply dropId_notin]).
Qed.


Lemma moveTicket_settles_witness :
  let served := mkTicket 1 "Write report" EmptyString Todo "Ada" Medium None None "t0" "t0" in
  let view := {| ticketsQuery_data := Some [served];
                 pendingTickets := [];
                 board := initialBoard |} in
  exists b1 resume,
    advance (moveTicket view 1 Done "t1") (board view)
    = (b1, [], PendingMove 1 {| move_status := Done; move_actor := Some "User" |} resume)
    /\ forall message, exists b2 notices2,
         advance (resume (MoveRejected message)) b1 = (b2, notices2, Settled None)
         /\ b2 = initialBoard.
Proof.
  intros served view. eexists _, _. split; [reflexivity |].
  intros message.
  destruct (moveTicket_settles view 1%Z Done "t1" _ _ _ _ _ eq_refl)
    as (_ & Hrejected & _).
  destruct (Hrejected message) as (b2 & notices2 & Hrun & _ & _ & _ & Hsame).
  exists b2, notices2. split; [exact Hrun |].
  apply Hsame. reflexivity.
Defined.

(** C4 as stated fails while an edit of the same ticket waits for the
    server.  The panel of ticket 1 is open and its edit has been
    submitted: the optimistic map holds the edited copy, the query is not
    loading, the cards are rendered.  The button that opens the panel is
    disabled for a placeholder, a moving and an archiving card only, and
    [handleOpenEditTicket] tests the id only; reached with the keyboard on
    card 2 (the panel keeps no focus), it makes ticket 2 the one edited.
    Card 1 then shows the edited copy and can be dragged.  Dropped on the
    lane of Done with the move rejected, [moveTicket] removes the entry,
    and the board falls back to the ticket of the query: it does not show
    what it showed before the move. *)
Lemma moveTicket_rejected_drops_pending_edit :
  let first := mkTicket 1 "Write report" EmptyString Todo "Ada" Medium None None "t0" "t0" in
  let second := mkTicket 2 "Review report" EmptyString Todo "Ada" Medium None None "t0" "t0" in
  let edited := mkTicket 1 "Write the report" EmptyString Todo "Ada" Medium None None "t0" "t1" in
  let edit := {| upd_title := Some "Write the report"; upd_description := None;
                 upd_assignee := None; upd_priority := None |} in
  let query :=
    fold_left Hooks.queryReducer [Hooks.loading; Hooks.success [first; second]]
      (Hooks.createInitialQueryState true) in
  let page := Dashboard.mkPage query [] in
  let onMove := fun (_ : Z) (_ : MoveTicketRequest) => MoveRejected "Illegal transition" in
  let onUpdate := fun (_ : Z) (_ : UpdateTicketRequest) => UpdateRejected "unused" in
  let onArchive := fun (_ : Z) (_ : string) => Dashboard.ArchiveRejected "unused" in
  let opened := fst (run onMove onUpdate (Dashboard.handleOpenEditTicket first) initialBoard) in
  let submitted :=
    advance (handleSubmitEditTicket (Dashboard.render (page opened)) 1 edit "t1") opened in
  let saving := fst (fst submitted) in
  let switched :=
    fst (run onMove onUpdate (Dashboard.handleOpenEditTicket second) saving) in
  let outcome :=
    Dashboard.runHandler onArchive onMove onUpdate
      (Dashboard.handleDragEnd (Dashboard.render (page switched))
         (Dashboard.IdString (Dnd.ticketItemId 1))
         (Some (Dashboard.IdString (Dnd.laneDropId Done))) "t2" "t2" "t2")
      switched in
  (exists resume, snd submitted = PendingUpdate 1 edit resume)
  /\ Hooks.isLoading query = false
  /\ Dashboard.cardOf (page saving) None EmptyString 2 = Some second
  /\ Dashboard.isEditDisabled saving second = false
  /\ Dashboard.cardOf (page switched) None EmptyString 1 = Some edited
  /\ Dashboard.isDragDisabled switched edited = false
  /\ snd outcome
     = [ Dashboard.Did
           (MoveRequested 1 {| move_status := Done; move_actor := Some "User" |});
         Dashboard.Did (Notified error "Move failed for TASK-1: Illegal transition") ]
  /\ boardTickets (Dashboard.render (page switched)) = [edited; second]
  /\ boardTickets (Dashboard.render (page (fst outcome))) = [first; second]
  /\ boardTickets (Dashboard.render (page (fst outcome)))
     <> boardTickets (Dashboard.render (page switched)).
Proof.
  cbv zeta.
  split; [eexists; reflexivity |].
  repeat (split; [vm_compute; reflexivity |]).
  vm_compute. discriminate.
Qed.

(** *** The placeholder of a new ticket *)

(** C7. The two copies of [handleCreateTicket] do not agree: for every
    create request the placeholder of [App.tsx] is in Plan and the one of
    the second copy is in Todo, while every other field is the same. *)
Theorem handleCreateTicket_placeholder_status (payload : CreateTicketRequest)
  (nowMs : Z) (now : string) (existing : list Ticket) :
  let first := App.temporaryTicket payload nowMs now in
  let second := Part008.temporaryTicket payload nowMs now in
  List.hd_error (fst (App.handleCreateTicket payload nowMs now existing)) = Some first
  /\ List.hd_error (fst (Part008.handleCreateTicket payload nowMs now existing)) = Some second
  /\ status first = Plan
  /\ status second = Todo
  /\ status first <> status second
  /\ second = {| id := id first; title := title first; description := description first;
                 status := Todo;
                 assignee := assignee first; priority := priority first;
                 agent_session_key := agent_session_key first;
                 archived_at := archived_at first;
                 created_at := created_at first; updated_at := updated_at first |}.
Proof.
  cbn. repeat split; try reflexivity. discriminate.
Qed.

End AppFacts.

(** ** Drag-and-drop identifiers *)

Module DndFacts.
Import Api Dnd.

(** C10. The identifiers of the drag-and-drop layer are read back as
    written: a ticket id (an integer the program holds exactly) from its
    item id, each of the five statuses from its lane id; and a string
    without the prefix is read as null. *)
Theorem dnd_ids_round_trip :
  (forall n : Z, Js.isSafeInteger n -> parseTicketItemId (ticketItemId n) = Some n)
  /\ (forall s : TicketStatus,
        In s BOARD_STATUSES /\ parseLaneDropId (laneDropId s) = Some s)
  /\ (forall raw : string,
        Js.startsWith TICKET_ID_PREFIX raw = false -> parseTicketItemId raw = None)
  /\ (forall raw : string,
        Js.startsWith LANE_ID_PREFIX raw = false -> parseLaneDropId raw = None).
Proof.
  split; [| split; [| split]].
  - intros n Hn. unfold parseTicketItemId, ticketItemId.
    change (Js.startsWith TICKET_ID_PREFIX (TICKET_ID_PREFIX ++ Js.numberToString n))
      with true.
    change (Js.slice (String.length TICKET_ID_PREFIX)
              (TICKET_ID_PREFIX ++ Js.numberToString n))
      with (Js.numberToString n).
    cbn [negb].
    destruct (JsFacts.stringToNumber_numberToString n) as [Hint Hval].
    { unfold Js.isSafeInteger, Js.MAX_SAFE_INTEGER in Hn. lia. }
    now rewrite Hint, Hval.
  - intros s. split; [destruct s; simpl; tauto | destruct s; reflexivity].
  - intros raw H. unfold parseTicketItemId. now rewrite H.
  - intros raw H. unfold parseLaneDropId. now rewrite H.
Qed.

Lemma dnd_ids_round_trip_witness :
  parseTicketItemId (ticketItemId 42) = Some 42%Z
  /\ parseTicketItemId (laneDropId Review) = None
  /\ parseLaneDropId (ticketItemId 42) = None.
Proof.
  destruct dnd_ids_round_trip as (Hticket & _ & Hnoticket & Hnolane).
  split; [| split].
  - apply Hticket. unfold Js.isSafeInteger, Js.MAX_SAFE_INTEGER. lia.
  - apply Hnoticket. reflexivity.
  - apply Hnolane. reflexivity.
Defined.

End DndFacts.

(** ** The activity list of the ticket panel *)

Module EditTicketPanelFacts.
Import Api EditTicketPanel.

Section SortFacts.
Context {A : Type} (comparefn : A -> A -> Z).

Lemma insertSorted_perm (x : A) (l : list A) :
  Permutation (x :: l) (insertSorted comparefn x l).
Proof.
  induction l as [| y rest IH]; simpl; [reflexivity |].
  destruct (comparefn x y <=? 0)%Z; [reflexivity |].
  rewrite perm_swap. now apply perm_skip.
Qed.

Lemma sort_perm (l : list A) : Permutation l (sort comparefn l).
Proof.
  induction l as [| x rest IH]; simpl; [reflexivity |].
  rewrite <- insertSorted_perm. now apply perm_skip.
Qed.

(** When the comparator is the difference of a key, later minus earlier
    argument, the result is in descending order of the key. *)
Lemma insertSorted_descending (key : A -> Z) (x : A) (s : list A) :
  (forall y, In y s -> comparefn x y = (key y - key x)%Z) ->
  StronglySorted (fun a b => (key b <= key a)%Z) s ->
  StronglySorted (fun a b => (key b <= key a)%Z) (insertSorted comparefn x s).
Proof.
  induction s as [| y rest IH]; intros Hcmp Hs; simpl.
  - constructor; constructor.
  - inversion Hs as [| ? ? Hrest Hall]; subst.
    assert (comparefn x y = (key y - key x)%Z) as E by (apply Hcmp; now left).
    destruct (Z.leb_spec (comparefn x y) 0) as [Hle | Hgt].
    + constructor; [exact Hs |]. constructor; [lia |].
      eapply List.Forall_impl; [| exact Hall]. simpl. intros z Hz. lia.
    + constructor.
      * apply IH; [| exact Hrest]. intros z Hz. apply Hcmp. now right.
      * apply List.Forall_forall. intros z Hz.
        apply (Permutation_in z (Permutation_sym (insertSorted_perm x rest))) in Hz.
        destruct Hz as [<- | Hz]; [lia |].
        revert z Hz. now apply List.Forall_forall.
Qed.

Lemma sort_descending (key : A -> Z) (l : list A) :
  (forall x y, In x l -> In y l -> comparefn x y = (key y - key x)%Z) ->
  StronglySorted (fun a b => (key b <= key a)%Z) (sort comparefn l).
Proof.
  induction l as [| x rest IH]; intros Hcmp; simpl; [constructor |].
  apply insertSorted_descending.
  - intros y Hy. apply Hcmp; [now left |]. right.
    now apply (Permutation_in y (Permutation_sym (sort_perm rest))).
  - apply IH. intros a b Ha Hb. apply Hcmp; now right.
Qed.

Lemma StronglySorted_within (R R' : A -> A -> Prop) (l : list A) :
  StronglySorted R l ->
  (forall a b, In a l -> In b l -> R a b -> R' a b) ->
  StronglySorted R' l.
Proof.
  induction 1 as [| a rest Hrest IH Hall]; intros Himpl; constructor.
  - apply IH. intros x y Hx Hy. apply Himpl; now right.
  - apply List.Forall_forall. intros b Hb. apply Himpl; [now left | now right |].
    revert b Hb. now apply List.Forall_forall.
Qed.

End SortFacts.

(** C6. [buildTicketActivityEntries] returns the entries of the events
    and of the comments, each once, in some order; and when every
    [created_at] parses to a time, the order is by time, latest first. *)
Theorem buildTicketActivityEntries_spec
  (Date_parse : string -> option Z) (localeCompare : string -> string -> Z)
  (events : list TicketEvent) (comments : list TicketComment) :
  let result := buildTicketActivityEntries Date_parse localeCompare events comments in
  Permutation (List.map eventEntry events ++ List.map commentEntry comments)%list result
  /\ List.length result = (List.length events + List.length comments)%nat
  /\ ((forall e, In e events -> Date_parse (event_created_at e) <> None) ->
      (forall c, In c comments -> Date_parse (comment_created_at c) <> None) ->
      StronglySorted
        (fun earlier later =>
           exists t1 t2,
             Date_parse (createdAt earlier) = Some t1
             /\ Date_parse (createdAt later) = Some t2
             /\ (t2 <= t1)%Z)
        result).
Proof.
  cbv zeta. unfold buildTicketActivityEntries.
  set (entries := (List.map eventEntry events ++ List.map commentEntry comments)%list).
  pose proof (sort_perm (compareEntries Date_parse localeCompare) entries) as Hperm.
  split; [exact Hperm |]. split.
  - rewrite <- (Permutation_length Hperm). unfold entries.
    now rewrite List.length_app, !List.length_map.
  - intros Hevents Hcomments.
    assert (forall x, In x entries -> exists t, Date_parse (createdAt x) = Some t) as Hfinite.
    { intros x Hx. unfold entries in Hx. apply in_app_or in Hx.
      destruct Hx as [Hx | Hx]; apply in_map_iff in Hx; destruct Hx as [src [<- Hin]]; simpl.
      - specialize (Hevents src Hin).
        destruct (Date_parse (event_created_at src)) as [t |]; [now exists t | contradiction].
      - specialize (Hcomments src Hin).
        destruct (Date_parse (comment_created_at src)) as [t |]; [now exists t | contradiction]. }
    set (key := fun x => match Date_parse (createdAt x) with Some t => t | None => 0%Z end).
    assert (StronglySorted (fun a b => (key b <= key a)%Z)
              (sort (compareEntries Date_parse localeCompare) entries)) as Hsorted.
    { apply sort_descending. intros x y Hx Hy. unfold compareEntries, key.
      destruct (Hfinite x Hx) as [tx ->]. destruct (Hfinite y Hy) as [ty ->]. reflexivity. }
    assert (forall x, In x (sort (compareEntries Date_parse localeCompare) entries) ->
                      exists t, Date_parse (createdAt x) = Some t) as Hfinite'.
    { intros x Hx. apply Hfinite.
      now apply (Permutation_in x (Permutation_sym Hperm)). }
    apply (StronglySorted_within _ _ _ Hsorted). intros a b Ha Hb Hle.
    destruct (Hfinite' a Ha) as [ta Hta]. destruct (Hfinite' b Hb) as [tb Htb].
    exists ta, tb. repeat split; try assumption.
    unfold key in Hle. now rewrite Hta, Htb in Hle.
Qed.


Lemma buildTicketActivityEntries_spec_witness :
  let parse (s : string) : option Z :=
    if String.eqb s "2024-01-01T00:00:00.000Z" then Some 1704067200000%Z
    else if String.eqb s "2024-01-02T00:00:00.000Z" then Some 1704153600000%Z
    else if String.eqb s "2024-01-03T12:00:00.000Z" then Some 1704283200000%Z
    else None in
  let compare (a b : string) : Z := if String.eqb a b then 0%Z else 1%Z in
  let events :=
    [ mkTicketEvent 1 7 "ticket_created" (Some "Ada") EmptyString "2024-01-01T00:00:00.000Z";
      mkTicketEvent 2 7 "ticket_moved" None "Todo -> Plan" "2024-01-03T12:00:00.000Z" ] in
  let comments :=
    [ mkTicketComment 1 7 "Ada" "Please start." "2024-01-02T00:00:00.000Z" ] in
  StronglySorted
    (fun earlier later =>
       exists t1 t2,
         parse (createdAt earlier) = Some t1
         /\ parse (createdAt later) = Some t2
         /\ (t2 <= t1)%Z)
    (buildTicketActivityEntries parse compare events comments).
Proof.
  intros parse compare events comments.
  apply (proj2 (proj2 (buildTicketActivityEntries_spec parse compare events comments))).
  - intros e [<- | [<- | []]]; discriminate.
  - intros c [<- | []]; discriminate.
Defined.

End EditTicketPanelFacts.

(** ** The automation dispatcher *)

Module DispatcherFacts.
Import Api Dispatcher.






Section EngineFacts.
Variable canTransition : TicketStatus -> TicketStatus -> bool.






End EngineFacts.




End DispatcherFacts.

(** ** Dragging, archiving and editing on the dashboard *)

Module DashboardFacts.
Import Api App Dashboard.

Lemma parseTicketItemId_ticketItemId (n : Z) :
  Js.isSafeInteger n -> Dnd.parseTicketItemId (Dnd.ticketItemId n) = Some n.
Proof.
  intros Hn. unfold Dnd.parseTicketItemId, Dnd.ticketItemId.
  change (Js.startsWith Dnd.TICKET_ID_PREFIX
            (Dnd.TICKET_ID_PREFIX ++ Js.numberToString n)) with true.
  change (Js.slice (String.length Dnd.TICKET_ID_PREFIX)
            (Dnd.TICKET_ID_PREFIX ++ Js.numberToString n))
    with (Js.numberToString n).
  cbn [negb].
  destruct (JsFacts.stringToNumber_numberToString n) as [Hint Hval].
  { unfold Js.isSafeInteger, Js.MAX_SAFE_INTEGER in Hn. lia. }
  now rewrite Hint, Hval.
Qed.

Lemma parseLaneDropId_laneDropId (s : TicketStatus) :
  Dnd.parseLaneDropId (Dnd.laneDropId s) = Some s.
Proof. destruct s; reflexivity. Qed.

Lemma parseLaneDropId_ticketItemId (n : Z) :
  Dnd.parseLaneDropId (Dnd.ticketItemId n) = None.
Proof. reflexivity. Qed.

Lemma ticketItemId_not_archive (n : Z) :
  String.eqb (Dnd.ticketItemId n) ARCHIVE_NAV_DROP_ID = false.
Proof. reflexivity. Qed.

Lemma laneDropId_not_archive (s : TicketStatus) :
  String.eqb (Dnd.laneDropId s) ARCHIVE_NAV_DROP_ID = false.
Proof. reflexivity. Qed.

(** What [moveTicket] does for the status the ticket has, and for a
    placeholder. *)
Lemma moveTicket_idle (view : Render) (ticketId : Z) (t : Ticket)
  (targetStatus : TicketStatus) (now : string) :
  JsMap.get (ticketById view) ticketId = Some t ->
  (id t < 0)%Z \/ status t = targetStatus ->
  moveTicket view ticketId targetStatus now
  = if (id t <? 0)%Z
    then Notify warning "Wait for ticket creation to finish before moving it." Return
    else Return.
Proof.
  intros Hget Hcase. unfold moveTicket. rewrite Hget.
  destruct (Z.ltb_spec (id t) 0) as [Hneg | Hpos]; [reflexivity |].
  destruct Hcase as [Hneg | <-]; [lia |].
  now rewrite (proj2 (AppFacts.TicketStatus_eqb_eq (status t) (status t)) eq_refl).
Qed.

(** X1. A card dropped on a lane asks [moveTicket] for exactly that
    ticket and that lane's status: the identifiers the cards and the
    lanes are registered under are read back by [handleDragEnd], which
    first clears the drag state. *)
Theorem handleDragEnd_on_lane (view : Render) (n : Z) (s : TicketStatus)
  (now nowArchived nowUpdated : string) :
  Js.isSafeInteger n ->
  handleDragEnd view (IdString (Dnd.ticketItemId n))
    (Some (IdString (Dnd.laneDropId s))) now nowArchived nowUpdated
  = Plain (SetState (setActiveDragTicketId None) (moveTicket view n s now)).
Proof.
  intros Hn. unfold handleDragEnd.
  rewrite (parseTicketItemId_ticketItemId n Hn).
  rewrite laneDropId_not_archive. unfold resolveTargetStatus.
  now rewrite parseLaneDropId_laneDropId.
Qed.

Lemma handleDragEnd_on_lane_witness :
  let served := mkTicket 1 "Write report" EmptyString Todo "Ada" Medium None None "t0" "t0" in
  let view := {| ticketsQuery_data := Some [served];
                 pendingTickets := [];
                 board := initialBoard |} in
  snd (runHandler (fun _ _ => ArchiveResolved)
         (fun _ _ => MoveRejected "Illegal transition")
         (fun _ _ => UpdateRejected "unused")
         (handleDragEnd view (IdString "ticket:1") (Some (IdString "lane:In Progress"))
            "t1" "t1" "t1")
         initialBoard)
  = [ Did (MoveRequested 1 {| move_status := InProgress; move_actor := Some "User" |});
      Did (Notified error "Move failed for TASK-1: Illegal transition") ].
Proof.
  intros served view.
  change "ticket:1" with (Dnd.ticketItemId 1).
  change "lane:In Progress" with (Dnd.laneDropId InProgress).
  rewrite (handleDragEnd_on_lane view 1 InProgress "t1" "t1" "t1").
  - vm_compute. reflexivity.
  - unfold Js.isSafeInteger, Js.MAX_SAFE_INTEGER. lia.
Defined.

(** X2. A card dropped on a card (itself or another) takes the status of
    the card it was dropped on; when that is the status it has, or when
    it is dropped on its own lane, nothing is requested and nothing but
    the drag state changes. *)
Theorem handleDragEnd_same_status (view : Render) (n m : Z) (t other : Ticket)
  (now nowArchived nowUpdated : string) :
  Js.isSafeInteger n ->
  Js.isSafeInteger m ->
  JsMap.get (ticketById view) n = Some t ->
  JsMap.get (ticketById view) m = Some other ->
  handleDragEnd view (IdString (Dnd.ticketItemId n))
    (Some (IdString (Dnd.ticketItemId m))) now nowArchived nowUpdated
  = Plain (SetState (setActiveDragTicketId None) (moveTicket view n (status other) now))
  /\ ((0 <= id t)%Z ->
      forall onArchive onMove onUpdate (b : Board),
        (status other = status t ->
         runHandler onArchive onMove onUpdate
           (handleDragEnd view (IdString (Dnd.ticketItemId n))
              (Some (IdString (Dnd.ticketItemId m))) now nowArchived nowUpdated) b
         = (setActiveDragTicketId None b, []))
        /\ runHandler onArchive onMove onUpdate
             (handleDragEnd view (IdString (Dnd.ticketItemId n))
                (Some (IdString (Dnd.laneDropId (status t)))) now nowArchived nowUpdated) b
           = (setActiveDragTicketId None b, [])).
Proof.
  intros Hn Hm Hgetn Hgetm.
  assert (handleDragEnd view (IdString (Dnd.ticketItemId n))
            (Some (IdString (Dnd.ticketItemId m))) now nowArchived nowUpdated
          = Plain (SetState (setActiveDragTicketId None)
                     (moveTicket view n (status other) now))) as Hcard.
  { unfold handleDragEnd. rewrite (parseTicketItemId_ticketItemId n Hn).
    rewrite ticketItemId_not_archive. unfold resolveTargetStatus.
    rewrite parseLaneDropId_ticketItemId, (parseTicketItemId_ticketItemId m Hm), Hgetm.
    reflexivity. }
  split; [exact Hcard |].
  intros Hpos onArchive onMove onUpdate b.
  assert ((id t <? 0)%Z = false) as Hltb by (apply Z.ltb_ge; exact Hpos).
  split.
  - intros Hsame. rewrite Hcard, Hsame.
    rewrite (moveTicket_idle view n t (status t) now Hgetn (or_intror eq_refl)), Hltb.
    reflexivity.
  - unfold handleDragEnd. rewrite (parseTicketItemId_ticketItemId n Hn).
    rewrite laneDropId_not_archive. unfold resolveTargetStatus.
    rewrite parseLaneDropId_laneDropId. cbn [afterUpdate].
    rewrite (moveTicket_idle view n t (status t) now Hgetn (or_intror eq_refl)), Hltb.
    reflexivity.
Qed.


Lemma handleDragEnd_same_status_witness :
  let first := mkTicket 1 "Write report" EmptyString Todo "Ada" Medium None None "t0" "t0" in
  let second := mkTicket 2 "Review report" EmptyString Todo "Bob" Low None None "t0" "t0" in
  let view := {| ticketsQuery_data := Some [first; second];
                 pendingTickets := [];
                 board := initialBoard |} in
  runHandler (fun _ _ => ArchiveResolved)
    (fun _ _ => MoveRejected "unused") (fun _ _ => UpdateRejected "unused")
    (handleDragEnd view (IdString "ticket:1") (Some (IdString "ticket:2")) "t1" "t1" "t1")
    (setActiveDragTicketId (Some 1%Z) initialBoard)
  = (initialBoard, []).
Proof.
  intros first second view.
  assert (Js.isSafeInteger 1 /\ Js.isSafeInteger 2) as [H1 H2]
      by (unfold Js.isSafeInteger, Js.MAX_SAFE_INTEGER; lia).
  destruct (handleDragEnd_same_status view 1 2 first second "t1" "t1" "t1"
              H1 H2 eq_refl eq_refl) as [_ Hidle].
  assert (0 <= id first)%Z as Hpos by (simpl; lia).
  destruct (Hidle Hpos (fun _ _ => ArchiveResolved)
              (fun _ _ => MoveRejected "unused") (fun _ _ => UpdateRejected "unused")
              (setActiveDragTicketId (Some 1%Z) initialBoard)) as [Hcard _].
  exact (Hcard eq_refl).
Defined.

(** *** Archiving *)

Lemma lastWithId_None (i : Z) (tickets : list Ticket) :
  (forall u, In u tickets -> id u <> i) -> lastWithId i tickets = None.
Proof.
  intros Hnone. unfold lastWithId.
  destruct (List.find (fun t => Z.eqb (id t) i) (rev tickets)) as [u |] eqn:E;
    [| reflexivity].
  apply find_some in E. destruct E as [Hin Heq].
  apply in_rev in Hin. apply Z.eqb_eq in Heq. now destruct (Hnone u Hin).
Qed.

Lemma keyedById_set (m : JsMap.t Ticket) (t : Ticket) :
  keyedById m -> keyedById (JsMap.set m (id t) t).
Proof.
  intros Hm k u Hin. apply JsMapFacts.In_set in Hin.
  destruct Hin as [[= -> ->] | Hin]; [reflexivity | now apply Hm].
Qed.

(** When the optimistic map holds an archived ticket under its id, no
    ticket with that id is on the board. *)
Lemma archived_entry_off_board (view : Render) (archived : Ticket) :
  JsMap.wf (optimisticTickets (board view)) ->
  keyedById (optimisticTickets (board view)) ->
  JsMap.get (optimisticTickets (board view)) (id archived) = Some archived ->
  archived_at archived <> None ->
  forall u, In u (boardTickets view) -> id u <> id archived.
Proof.
  intros Hwf Hkeyed Hget Harchived u Hin Hid.
  unfold boardTickets in Hin. apply filter_In in Hin. destruct Hin as [Hin Hnull].
  assert (In u (List.filter (fun t => Z.eqb (id t) (id archived))
                  (mergeTickets
                     (match ticketsQuery_data view with Some data => data | None => [] end)
                     (pendingTickets view) (optimisticTickets (board view))))) as Hfound.
  { apply filter_In. split; [exact Hin | now apply Z.eqb_eq]. }
  rewrite AppFacts.mergeTickets_values in Hfound.
  rewrite (AppFacts.filter_values_keyed _ _ (AppFacts.mergedMap_wf _ _ _)
             (AppFacts.mergedMap_keyed _ _ _ Hkeyed)) in Hfound.
  rewrite (AppFacts.mergedMap_get _ _ _ _ Hwf), Hget in Hfound.
  destruct Hfound as [<- | []].
  destruct (archived_at archived); [discriminate | contradiction].
Qed.

(** X3. Once [handleArchiveTicket] has issued its request, the ticket is
    marked as archiving and is no longer on the board, whatever the
    server's tickets say; so a move or an edit of it finds no ticket and
    does nothing, and a second archive of it is refused. *)
Theorem handleArchiveTicket_hides (view : Render) (t : Ticket)
  (nowArchived nowUpdated : string) (b1 : Board) (notices : list (Tone * string))
  (requested : Z) (actor : string) (resume : ArchiveOutcome -> Task) :
  JsMap.wf (optimisticTickets (board view)) ->
  keyedById (optimisticTickets (board view)) ->
  advanceHandler (handleArchiveTicket view t nowArchived nowUpdated) (board view)
  = (b1, notices, PendingArchive requested actor resume) ->
  requested = id t
  /\ actor = "User"
  /\ id t ∈ archivingTicketIds b1
  /\ (forall u, In u (boardTickets (withBoard view b1)) -> id u <> id t)
  /\ (forall targetStatus now,
        moveTicket (withBoard view b1) (id t) targetStatus now = Return)
  /\ (forall input now,
        handleSubmitEditTicket (withBoard view b1) (id t) input now = Return)
  /\ (forall u nowArchived' nowUpdated',
        id u = id t ->
        handleArchiveTicket (withBoard view b1) u nowArchived' nowUpdated' = Plain Return).
Proof.
  intros Hwf Hkeyed. unfold handleArchiveTicket.
  destruct (Z.ltb_spec (id t) 0) as [Hneg | Hpos]; [discriminate |].
  destruct (bool_decide (id t ∈ archivingTicketIds (board view))
            || bool_decide (id t ∈ movingTicketIds (board view))); [discriminate |].
  cbn [advanceHandler advance]. intros [= <- <- <- <- <-].
  split; [reflexivity |]. split; [reflexivity |].
  split; [cbn; apply elem_of_union; left; now apply elem_of_singleton |].
  assert (forall u, In u (boardTickets
                            (withBoard view
                               (setArchivingTicketIds (fun previous => {[ id t ]} ∪ previous)
                                  (setOptimisticTickets
                                     (fun previous =>
                                        JsMap.set previous (id t)
                                          {| id := id t;
                                             title := title t;
                                             description := description t;
                                             status := status t;
                                             assignee := assignee t;
                                             priority := priority t;
                                             agent_session_key := agent_session_key t;
                                             archived_at := Some nowArchived;
                                             created_at := created_at t;
                                             updated_at := nowUpdated |})
                                     (board view))))) -> id u <> id t) as Hoff.
  { set (archived := {| id := id t; title := title t; description := description t;
                        status := status t; assignee := assignee t;
                        priority := priority t;
                        agent_session_key := agent_session_key t;
                        archived_at := Some nowArchived;
                        created_at := created_at t; updated_at := nowUpdated |}).
    change (id t) with (id archived).
    apply archived_entry_off_board; cbn.
    - now apply JsMapFacts.wf_set.
    - now apply (keyedById_set _ archived).
    - apply JsMapFacts.get_set_eq.
    - discriminate. }
  split; [exact Hoff |].
  assert (forall v, (forall u, In u (boardTickets v) -> id u <> id t) ->
                    JsMap.get (ticketById v) (id t) = None) as Hnone.
  { intros v Hv. rewrite AppFacts.ticketById_get. now apply lastWithId_None. }
  split; [| split].
  - intros targetStatus now. unfold moveTicket. now rewrite (Hnone _ Hoff).
  - intros input now. unfold handleSubmitEditTicket. now rewrite (Hnone _ Hoff).
  - intros u nA nU Hu. unfold handleArchiveTicket. rewrite Hu.
    destruct (Z.ltb_spec (id t) 0) as [Hneg | _]; [lia |].
    cbn. rewrite bool_decide_eq_true_2; [reflexivity |].
    apply elem_of_union. left. now apply elem_of_singleton.
Qed.

Lemma handleArchiveTicket_hides_witness :
  let served := mkTicket 1 "Write report" EmptyString Todo "Ada" Medium None None "t0" "t0" in
  let view := {| ticketsQuery_data := Some [served];
                 pendingTickets := [];
                 board := initialBoard |} in
  let b1 := fst (fst (advanceHandler (handleArchiveTicket view served "t1" "t1")
                        initialBoard)) in
  moveTicket (withBoard view b1) 1 Done "t2" = Return.
Proof.
  intros served view b1.
  assert (JsMap.wf (optimisticTickets (board view))) as Hwf by constructor.
  assert (keyedById (optimisticTickets (board view))) as Hkeyed by (intros k t []).
  destruct (handleArchiveTicket_hides view served "t1" "t1" _ _ _ _ _ Hwf Hkeyed eq_refl)
    as (_ & _ & _ & _ & Hmove & _).
  exact (Hmove Done "t2").
Defined.


Lemma dropWarning_delete (k : Z) (w : gmap Z (list string)) :
  dropWarning k w = base.delete k w.
Proof.
  unfold dropWarning. case_bool_decide as Hk; simpl; [reflexivity |].
  symmetry. apply delete_id. destruct (w !! k) eqn:E; [| reflexivity].
  exfalso. apply Hk. now exists l.
Qed.

(** X4. An archive that runs with nothing else in between, for a ticket
    without an optimistic entry: if the server rejects it, the page state
    is what it was; if the server accepts it, the page state is what it
    was but for the ticket's warnings, which are gone.  The outside sees
    one archive request, one notice, and a refetch after a success. *)
Theorem handleArchiveTicket_settles (view : Render) (t : Ticket)
  (nowArchived nowUpdated : string)
  (onArchive : Z -> string -> ArchiveOutcome) onMove onUpdate :
  (0 <= id t)%Z ->
  id t ∉ archivingTicketIds (board view) ->
  id t ∉ movingTicketIds (board view) ->
  JsMap.get (optimisticTickets (board view)) (id t) = None ->
  runHandler onArchive onMove onUpdate
    (handleArchiveTicket view t nowArchived nowUpdated) (board view)
  = match onArchive (id t) "User" with
    | ArchiveRejected message =>
        (board view,
         [ ArchiveRequested (id t) "User";
           Did (Notified error
                  ("Archive failed for TASK-" ++ Js.numberToString (id t) ++ ": "
                   ++ message)) ])
    | ArchiveResolved =>
        (setWarningByTicketId (base.delete (id t)) (board view),
         [ ArchiveRequested (id t) "User";
           Did (Notified success ("Archived TASK-" ++ Js.numberToString (id t) ++ "."));
           Did Refetched ])
    end.
Proof.
  intros Hpos Harchiving Hmoving Habsent. unfold handleArchiveTicket.
  destruct (Z.ltb_spec (id t) 0) as [Hneg | _]; [lia |].
  rewrite (bool_decide_eq_false_2 _ Harchiving), (bool_decide_eq_false_2 _ Hmoving).
  cbn [orb runHandler run].
  destruct (onArchive (id t) "User") as [| message]; cbn [run List.map app];
    unfold setArchivingTicketIds, setOptimisticTickets, setWarningByTicketId; cbn;
    rewrite (AppFacts.dropOptimistic_set_absent _ _ _ Habsent);
    rewrite (AppFacts.dropId_add_absent _ _ Harchiving);
    rewrite ?dropWarning_delete;
    destruct (board view); reflexivity.
Qed.

Lemma handleArchiveTicket_settles_witness :
  let served := mkTicket 1 "Write report" EmptyString Todo "Ada" Medium None None "t0" "t0" in
  let view := {| ticketsQuery_data := Some [served];
                 pendingTickets := [];
                 board := initialBoard |} in
  fst (runHandler (fun _ _ => ArchiveRejected "Ticket is already archived")
         (fun _ _ => MoveRejected "unused") (fun _ _ => UpdateRejected "unused")
         (handleArchiveTicket view served "t1" "t1") (board view))
  = initialBoard.
Proof.
  intros served view.
  rewrite (handleArchiveTicket_settles view served "t1" "t1"
             (fun _ _ => ArchiveRejected "Ticket is already archived")
             (fun _ _ => MoveRejected "unused") (fun _ _ => UpdateRejected "unused")).
  - reflexivity.
  - simpl. lia.
  - simpl. apply not_elem_of_empty.
  - simpl. apply not_elem_of_empty.
  - reflexivity.
Defined.

(** *** Placeholders and requests in flight *)

(** X5. A ticket that is still being created cannot be moved, edited or
    archived: its placeholder has a negative id (in both copies of
    [handleCreateTicket], the clock being past 1970), and for a ticket
    with a negative id each of the three handlers only raises its
    warning. *)
Theorem placeholder_is_inert (view : Render) (t : Ticket) :
  (id t < 0)%Z ->
  JsMap.get (ticketById view) (id t) = Some t ->
  (forall targetStatus now onMove onUpdate (b : Board),
     run onMove onUpdate (moveTicket view (id t) targetStatus now) b
     = (b, [Notified warning "Wait for ticket creation to finish before moving it."]))
  /\ (forall onMove onUpdate (b : Board),
        run onMove onUpdate (handleOpenEditTicket t) b
        = (b, [Notified warning "Wait for ticket creation to complete before editing."]))
  /\ (forall nowArchived nowUpdated onArchive onMove onUpdate (b : Board),
        runHandler onArchive onMove onUpdate
          (handleArchiveTicket view t nowArchived nowUpdated) b
        = (b, [Did (Notified warning
                      "Wait for ticket creation to complete before archiving.")]))
  /\ (forall payload nowMs now,
        (0 < nowMs)%Z ->
        (id (App.temporaryTicket payload nowMs now) < 0)%Z
        /\ (id (Part008.temporaryTicket payload nowMs now) < 0)%Z).
Proof.
  intros Hneg Hget.
  assert ((id t <? 0)%Z = true) as Hltb by (now apply Z.ltb_lt).
  split; [| split; [| split]].
  - intros targetStatus now onMove onUpdate b.
    rewrite (moveTicket_idle view (id t) t targetStatus now Hget (or_introl Hneg)), Hltb.
    reflexivity.
  - intros onMove onUpdate b. unfold handleOpenEditTicket. now rewrite Hltb.
  - intros nowArchived nowUpdated onArchive onMove onUpdate b.
    unfold handleArchiveTicket. now rewrite Hltb.
  - intros payload nowMs now Hclock. simpl. lia.
Qed.

Lemma placeholder_is_inert_witness :
  let payload := {| req_title := "New task"; req_description := None;
                    req_assignee := None; req_priority := None |} in
  let placeholder := App.temporaryTicket payload 1700000000000 "t0" in
  let view := {| ticketsQuery_data := Some [];
                 pendingTickets := fst (App.handleCreateTicket payload 1700000000000 "t0" []);
                 board := initialBoard |} in
  run (fun _ _ => MoveRejected "unused") (fun _ _ => UpdateRejected "unused")
    (moveTicket view (id placeholder) Done "t1") initialBoard
  = (initialBoard, [Notified warning "Wait for ticket creation to finish before moving it."]).
Proof.
  intros payload placeholder view.
  assert (id placeholder < 0)%Z as Hneg by (simpl; lia).
  destruct (placeholder_is_inert view placeholder Hneg eq_refl) as [Hmove _].
  apply Hmove.
Defined.


(** X6. While a move of a ticket is in flight the ticket is in
    [movingTicketIds], and in every later render that still has it there
    (whatever tickets the server has sent meanwhile) a second move or an
    archive of that ticket requests nothing and changes nothing. *)
Theorem moveTicket_in_flight_blocks (view : Render) (ticketId : Z)
  (targetStatus : TicketStatus) (now : string) (b1 : Board)
  (notices : list (Tone * string)) (requested : Z) (input : MoveTicketRequest)
  (resume : MoveOutcome -> Task) :
  advance (moveTicket view ticketId targetStatus now) (board view)
  = (b1, notices, PendingMove requested input resume) ->
  ticketId ∈ movingTicketIds b1
  /\ forall later : Render,
       ticketId ∈ movingTicketIds (board later) ->
       (forall targetStatus' now' onMove onUpdate (b : Board),
          fst (run onMove onUpdate (moveTicket later ticketId targetStatus' now') b) = b
          /\ moveRequests
               (snd (run onMove onUpdate (moveTicket later ticketId targetStatus' now') b))
             = [])
       /\ (forall (u : Ticket) nowArchived nowUpdated onArchive onMove onUpdate (b : Board),
             id u = ticketId ->
             fst (runHandler onArchive onMove onUpdate
                    (handleArchiveTicket later u nowArchived nowUpdated) b) = b
             /\ List.Forall
                  (fun e => exists tone message, e = Did (Notified tone message))
                  (snd (runHandler onArchive onMove onUpdate
                          (handleArchiveTicket later u nowArchived nowUpdated) b))).
Proof.
  intros Hstart. split.
  - revert Hstart. unfold moveTicket.
    destruct (JsMap.get (ticketById view) ticketId) as [cur |]; [| discriminate].
    destruct (id cur <? 0)%Z; [discriminate |].
    destruct (TicketStatus_eqb (status cur) targetStatus); [discriminate |].
    case_bool_decide; [discriminate |].
    cbn [advance]. intros [= <- _ _ _ _]. cbn.
    apply elem_of_union. left. now apply elem_of_singleton.
  - intros later Hmoving. split.
    + intros targetStatus' now' onMove onUpdate b. unfold moveTicket.
      destruct (JsMap.get (ticketById later) ticketId) as [cur |]; [| now split].
      destruct (id cur <? 0)%Z; [now split |].
      destruct (TicketStatus_eqb (status cur) targetStatus'); [now split |].
      rewrite (bool_decide_eq_true_2 _ Hmoving). now split.
    + intros u nowArchived nowUpdated onArchive onMove onUpdate b Hu.
      unfold handleArchiveTicket. rewrite Hu.
      destruct (ticketId <? 0)%Z; cbn.
      * split; [reflexivity |]. constructor; [eauto | constructor].
      * rewrite (bool_decide_eq_true_2 _ Hmoving), orb_true_r. cbn.
        split; [reflexivity | constructor].
Qed.

Lemma moveTicket_in_flight_blocks_witness :
  let served := mkTicket 1 "Write report" EmptyString Todo "Ada" Medium None None "t0" "t0" in
  let view := {| ticketsQuery_data := Some [served];
                 pendingTickets := [];
                 board := initialBoard |} in
  let b1 := fst (fst (advance (moveTicket view 1 Done "t1") initialBoard)) in
  moveRequests
    (snd (run (fun _ _ => MoveRejected "unused") (fun _ _ => UpdateRejected "unused")
            (moveTicket (withBoard view b1) 1 Review "t2") b1))
  = [].
Proof.
  intros served view b1.
  destruct (moveTicket_in_flight_blocks view 1 Done "t1" _ _ _ _ _ eq_refl)
    as [Hin Hlater].
  destruct (Hlater (withBoard view b1) Hin) as [Hmove _].
  apply Hmove.
Defined.

Lemma set_set_eq (m : JsMap.t Ticket) (k : Z) (v v' : Ticket) :
  JsMap.set (JsMap.set m k v) k v' = JsMap.set m k v'.
Proof.
  induction m as [| [k0 v0] rest IH]; simpl.
  - now rewrite Z.eqb_refl.
  - destruct (Z.eqb_spec k0 k) as [-> | Hne]; simpl.
    + now rewrite Z.eqb_refl.
    + destruct (Z.eqb_spec k0 k); [contradiction | now rewrite IH].
Qed.

(** X7. A move that the server accepts, run with nothing else in
    between for a ticket without an optimistic entry, leaves the page
    state as it was but for the ticket's warnings: they become the
    warnings of the answer, or are removed when there is none.  The
    outside sees the request, one notice (a warning with the first
    warning, or a success) and one refetch, in this order. *)
Theorem moveTicket_resolved_run (view : Render) (ticketId : Z)
  (targetStatus : TicketStatus) (now : string) (response : MoveTicketResponse)
  onMove onUpdate (b1 : Board) (notices : list (Tone * string))
  (requested : Z) (input : MoveTicketRequest) (resume : MoveOutcome -> Task) :
  advance (moveTicket view ticketId targetStatus now) (board view)
  = (b1, notices, PendingMove requested input resume) ->
  onMove requested input = MoveResolved response ->
  JsMap.get (optimisticTickets (board view)) ticketId = None ->
  run onMove onUpdate (moveTicket view ticketId targetStatus now) (board view)
  = match collectMoveWarnings response with
    | [] =>
        (setWarningByTicketId (base.delete ticketId) (board view),
         [ MoveRequested ticketId input;
           Notified success
             ("Moved TASK-" ++ Js.numberToString ticketId ++ " to "
              ++ statusString targetStatus ++ ".");
           Refetched ])
    | first :: others =>
        (setWarningByTicketId (fun w => <[ ticketId := first :: others ]> w) (board view),
         [ MoveRequested ticketId input;
           Notified warning
             ("Moved TASK-" ++ Js.numberToString ticketId ++ " with warning: " ++ first);
           Refetched ])
    end.
Proof.
  unfold moveTicket.
  destruct (JsMap.get (ticketById view) ticketId) as [cur |]; [| discriminate].
  destruct (id cur <? 0)%Z; [discriminate |].
  destruct (TicketStatus_eqb (status cur) targetStatus); [discriminate |].
  case_bool_decide as Hmoving; [discriminate |].
  cbn [advance]. intros [= <- <- <- <- <-] Hanswer Habsent.
  cbn [run]. rewrite Hanswer. cbn beta iota zeta.
  destruct (collectMoveWarnings response) as [| first others]; cbn [run];
    unfold setMovingTicketIds, setOptimisticTickets, setWarningByTicketId; cbn;
    rewrite set_set_eq, (AppFacts.dropOptimistic_set_absent _ _ _ Habsent);
    rewrite (AppFacts.dropId_add_absent _ _ Hmoving);
    rewrite ?dropWarning_delete;
    destruct (board view); reflexivity.
Qed.

Lemma moveTicket_resolved_run_witness :
  let served := mkTicket 1 "Write report" EmptyString Todo "Ada" Medium None None "t0" "t0" in
  let moved := mkTicket 1 "Write report" EmptyString Plan "Ada" Medium None None "t0" "t2" in
  let response :=
    {| ok := true; ticket := moved; from := Todo; to := Plan;
       pickup := mkPickupResult true false None None None (Some "Gateway unreachable");
       warnings := [] |} in
  let view := {| ticketsQuery_data := Some [served];
                 pendingTickets := [];
                 board := initialBoard |} in
  snd (run (fun _ _ => MoveResolved response) (fun _ _ => UpdateRejected "unused")
         (moveTicket view 1 Plan "t1") (board view))
  = [ MoveRequested 1 {| move_status := Plan; move_actor := Some "User" |};
      Notified warning "Moved TASK-1 with warning: Gateway unreachable";
      Refetched ].
Proof.
  intros served moved response view.
  rewrite (moveTicket_resolved_run view 1 Plan "t1" response
             (fun _ _ => MoveResolved response) (fun _ _ => UpdateRejected "unused")
             _ _ _ _ _ eq_refl eq_refl eq_refl).
  reflexivity.
Defined.

(** X8. An edit shows its changes at once without moving the ticket: the
    optimistic copy keeps the id, the status, the archive state and the
    creation time, and takes each edited field, or the old one where the
    edit leaves it out.  If the server rejects the edit, the copy is
    removed (the page state is what it was, when the ticket had no
    optimistic entry), an error is shown and the error is thrown on to
    the form; if it accepts, the panel is closed and the server's ticket
    takes the copy's place until the refetch has answered. *)
Theorem handleSubmitEditTicket_settles (view : Render) (ticketId : Z)
  (input : UpdateTicketRequest) (now : string) (cur : Ticket) :
  JsMap.get (ticketById view) ticketId = Some cur ->
  exists (edited : Ticket) (resume : UpdateOutcome -> Task),
    advance (handleSubmitEditTicket view ticketId input now) (board view)
    = (setOptimisticTickets (fun previous => JsMap.set previous ticketId edited)
         (board view),
       [], PendingUpdate ticketId input resume)
    /\ (id edited = id cur /\ status edited = status cur
        /\ archived_at edited = None /\ created_at edited = created_at cur)
    /\ (title edited = orElse (upd_title input) (title cur)
        /\ description edited = orElse (upd_description input) (description cur)
        /\ assignee edited = orElse (upd_assignee input) (assignee cur)
        /\ priority edited = orElse (upd_priority input) (priority cur))
    /\ (forall message (b : Board), exists b2,
          advance (resume (UpdateRejected message)) b
          = (b2,
             [(error, "Save failed for TASK-" ++ Js.numberToString ticketId ++ ": "
                      ++ message)],
             Settled (Some message))
          /\ JsMap.get (optimisticTickets b2) ticketId = None
          /\ (JsMap.get (optimisticTickets (board view)) ticketId = None ->
              b = setOptimisticTickets
                    (fun previous => JsMap.set previous ticketId edited) (board view) ->
              b2 = board view))
    /\ (forall updated (b : Board), exists b2 notices next b3,
          advance (resume (UpdateResolved updated)) b
          = (b2, notices, PendingRefetch next)
          /\ JsMap.get (optimisticTickets b2) ticketId = Some updated
          /\ editingTicketId b2 = None
          /\ advance next b2 = (b3, [], Settled None)
          /\ JsMap.get (optimisticTickets b3) ticketId = None).
Proof.
  intros Hget. unfold handleSubmitEditTicket. rewrite Hget.
  eexists _, _. cbn [advance]. split; [reflexivity |].
  destruct (AppFacts.ticketById_on_board _ _ _ Hget) as [Hin _].
  split.
  { split; [reflexivity |]. split; [reflexivity |].
    split; [exact (AppFacts.boardTickets_archived_at _ _ Hin) | reflexivity]. }
  split.
  { split; [reflexivity |]. split; [reflexivity |]. split; reflexivity. }
  split.
  - intros message b. eexists. cbn [advance]. split; [reflexivity |].
    split; [apply AppFacts.dropOptimistic_get |].
    intros Habsent ->. unfold setOptimisticTickets. cbn.
    rewrite (AppFacts.dropOptimistic_set_absent _ _ _ Habsent).
    now destruct (board view).
  - intros updated b. eexists _, _, _, _. cbn [advance].
    split; [reflexivity |]. cbn.
    split; [apply JsMapFacts.get_set_eq |].
    split; [reflexivity |].
    split; [reflexivity | apply AppFacts.dropOptimistic_get].
Qed.

Lemma handleSubmitEditTicket_settles_witness :
  let served := mkTicket 1 "Write report" EmptyString Todo "Ada" Medium None None "t0" "t0" in
  let view := {| ticketsQuery_data := Some [served];
                 pendingTickets := [];
                 board := initialBoard |} in
  let edit := {| upd_title := Some "Write the report"; upd_description := None;
                 upd_assignee := None; upd_priority := Some High |} in
  exists edited,
    JsMap.get
      (optimisticTickets
         (fst (fst (advance (handleSubmitEditTicket view 1 edit "t1") (board view))))) 1
    = Some edited
    /\ status edited = Todo /\ title edited = "Write the report".
Proof.
  intros served view edit.
  destruct (handleSubmitEditTicket_settles view 1 edit "t1" served eq_refl)
    as (edited & resume & Hrun & (_ & Hstatus & _) & (Htitle & _) & _).
  exists edited. rewrite Hrun. cbn [fst]. split; [| split].
  - apply JsMapFacts.get_set_eq.
  - exact Hstatus.
  - exact Htitle.
Defined.

End DashboardFacts.

(* ------------------------------------------------------------------------- *)
(** ** Realtime refresh *)

Module RealtimeFacts.
Import Realtime.

Lemma underWay_app (a b : list Observed) (c : Z) :
  underWay (a ++ b)%list c = underWay b (underWay a c).
Proof.
  revert c. induction a as [| [] a IH]; intros c; simpl; auto.
Qed.

Lemma unserved_app (a b : list Observed) (asked : bool) :
  unserved (a ++ b)%list asked = unserved b (unserved a asked).
Proof.
  revert asked. induction a as [| [] a IH]; intros asked; simpl; auto.
Qed.

Lemma starts_app (a b : list Observed) :
  starts (a ++ b)%list = (starts a + starts b)%nat.
Proof.
  induction a as [| [] a IH]; simpl; auto.
Qed.

(** What one event can show. *)
Lemma step_seen (s : State) (e : Event) :
  snd (step s e) = [] \/ snd (step s e) = [Queued] \/ snd (step s e) = [Started]
  \/ snd (step s e) = [Settled] \/ snd (step s e) = [Settled; Started].
Proof.
  destruct s as [[] [] []], e as [payload | |]; cbn;
    try destruct (App.shouldRefetchFromRealtimePayload payload); cbn; auto 6.
Qed.

Lemma step_underWay (s : State) (e : Event) (pre post : list Observed) :
  snd (step s e) = (pre ++ post)%list ->
  (0 <= underWay pre (flag (refetchInFlight s)) <= 1)%Z
  /\ underWay (snd (step s e)) (flag (refetchInFlight s))
     = flag (refetchInFlight (fst (step s e))).
Proof.
  destruct s as [[] [] []], e as [payload | |]; cbn;
    try destruct (App.shouldRefetchFromRealtimePayload payload); cbn;
    destruct pre as [| [] [| [] [| ? ?]]]; cbn; try discriminate; intros _; lia.
Qed.

Lemma serve_underWay (events : list Event) (s s' : State) (seen : list Observed) :
  serve s events = (s', seen) ->
  underWay seen (flag (refetchInFlight s)) = flag (refetchInFlight s')
  /\ forall pre post, seen = (pre ++ post)%list ->
       (0 <= underWay pre (flag (refetchInFlight s)) <= 1)%Z.
Proof.
  revert s s' seen. induction events as [| e rest IH]; intros s s' seen; simpl.
  - intros [= <- <-]. split; [reflexivity |].
    intros pre post Hsplit. symmetry in Hsplit. apply app_eq_nil in Hsplit.
    destruct Hsplit as [-> _]. simpl. destruct (refetchInFlight s); simpl; lia.
  - destruct (step s e) as [s1 seen1] eqn:Hstep.
    destruct (serve s1 rest) as [s2 seen2] eqn:Hrest.
    intros [= <- <-].
    destruct (IH _ _ _ Hrest) as [Hend Hpre].
    pose proof (step_underWay s e) as Hone. rewrite Hstep in Hone. cbn [fst snd] in Hone.
    destruct (Hone seen1 [] (eq_sym (app_nil_r _))) as [_ Hend1].
    split.
    + now rewrite underWay_app, Hend1.
    + intros pre post Hsplit.
      destruct (app_eq_app _ _ _ _ Hsplit) as [mid [[Hleft _] | [-> Hright]]].
      * now destruct (Hone pre mid Hleft).
      * rewrite underWay_app, Hend1. now apply (Hpre mid post).
Qed.

(** X9. The realtime effect never has two refetches under way: at
    every point of what it does, the refetches started and not yet
    settled are none or one, and at the end this number is one exactly
    when [refetchInFlight] is set. *)
Theorem refetch_one_at_a_time (events : list Event) (s : State)
  (seen : list Observed) :
  serve initial events = (s, seen) ->
  underWay seen 0 = (if refetchInFlight s then 1 else 0)%Z
  /\ forall pre post : list Observed,
       seen = (pre ++ post)%list -> (0 <= underWay pre 0 <= 1)%Z.
Proof.
  intros Hrun. exact (serve_underWay events initial s seen Hrun).
Qed.

Lemma refetch_one_at_a_time_witness :
  let ask := Message (Js.Object [("type", Js.Str "ticket_moved")]) in
  underWay
    (snd (serve initial [ask; TimerFires; ask; ask; TimerFires; RefetchSettles])) 0
  = 1%Z.
Proof.
  intros ask.
  apply (refetch_one_at_a_time
           [ask; TimerFires; ask; ask; TimerFires; RefetchSettles] _ _ eq_refl).
Defined.

Lemma step_covered (s : State) (e : Event) :
  covered s -> covered (fst (step s e)).
Proof.
  unfold covered.
  destruct s as [[] [] []], e as [payload | |]; cbn;
    try destruct (App.shouldRefetchFromRealtimePayload payload); cbn;
    intuition discriminate.
Qed.

Lemma step_unserved (s : State) (e : Event) :
  unserved (snd (step s e)) (pendingRefetch s) = pendingRefetch (fst (step s e)).
Proof.
  destruct s as [[] [] []], e as [payload | |]; cbn;
    try destruct (App.shouldRefetchFromRealtimePayload payload); reflexivity.
Qed.

Lemma serve_covered (events : list Event) (s s' : State) (seen : list Observed) :
  covered s ->
  serve s events = (s', seen) ->
  covered s' /\ unserved seen (pendingRefetch s) = pendingRefetch s'.
Proof.
  revert s s' seen. induction events as [| e rest IH]; intros s s' seen Hs; simpl.
  - intros [= <- <-]. now split.
  - destruct (step s e) as [s1 seen1] eqn:Hstep.
    destruct (serve s1 rest) as [s2 seen2] eqn:Hrest.
    intros [= <- <-].
    pose proof (step_covered s e Hs) as Hs1.
    pose proof (step_unserved s e) as Hu.
    rewrite Hstep in Hs1, Hu. cbn [fst snd] in Hs1, Hu.
    destruct (IH _ _ _ Hs1 Hrest) as [Hs2 Hu2].
    split; [exact Hs2 |]. now rewrite unserved_app, Hu.
Qed.

(** X10. No relevant message is lost: [pendingRefetch] is set exactly
    when a refetch was asked for after the last one started, and then the
    timer is armed or a refetch is under way; so once the timer has fired
    and the refetch under way has settled, a refetch has been started
    and nothing is left pending. *)
Theorem refetch_never_lost (events : list Event) (s : State)
  (seen : list Observed) :
  serve initial events = (s, seen) ->
  unserved seen false = pendingRefetch s
  /\ (pendingRefetch s = true ->
      throttleTimer s = true \/ refetchInFlight s = true)
  /\ (pendingRefetch s = true ->
      In Started (snd (serve s [TimerFires; RefetchSettles])))
  /\ pendingRefetch (fst (serve s [TimerFires; RefetchSettles])) = false.
Proof.
  intros Hrun.
  assert (covered initial) as Hinit by (intros H; discriminate H).
  destruct (serve_covered events initial s seen Hinit Hrun) as [Hs Hu].
  split; [exact Hu |]. split; [exact Hs |].
  unfold covered in Hs. clear Hrun Hu.
  destruct s as [[] [] []]; cbn in *; split; intros; auto;
    try discriminate; try (destruct Hs; [reflexivity | discriminate | discriminate]).
Qed.

Lemma refetch_never_lost_witness :
  let ask := Message (Js.Object [("type", Js.Str "comment_added")]) in
  let events := [ask; TimerFires; ask] in
  unserved (snd (serve initial events)) false = true
  /\ pendingRefetch
       (fst (serve (fst (serve initial events)) [TimerFires; RefetchSettles]))
     = false.
Proof.
  intros ask events.
  destruct (refetch_never_lost events _ _ eq_refl) as (Hu & _ & _ & Hdone).
  split; [exact Hu | exact Hdone].
Defined.

Lemma serve_messages (payloads : list Js.Value) (s : State) :
  fst (serve s (map Message payloads))
  = (if existsb App.shouldRefetchFromRealtimePayload payloads
     then {| throttleTimer := true; pendingRefetch := true;
             refetchInFlight := refetchInFlight s |}
     else s)
  /\ starts (snd (serve s (map Message payloads))) = 0%nat.
Proof.
  revert s. induction payloads as [| payload rest IH]; intros s; simpl.
  - now split.
  - destruct (App.shouldRefetchFromRealtimePayload payload) eqn:Hp; simpl.
    + unfold queueRefetch. cbn [throttleTimer pendingRefetch refetchInFlight].
      destruct (throttleTimer s);
        match goal with
        | |- context [serve ?s1 (map Message rest)] =>
            destruct (IH s1) as [Hstate Hnone];
            destruct (serve s1 (map Message rest)) as [s2 seen2]
        end;
        cbn [fst snd] in *; subst s2; cbn; rewrite Hnone;
        destruct (existsb App.shouldRefetchFromRealtimePayload rest); now split.
    + destruct (IH s) as [Hstate Hnone].
      destruct (serve s (map Message rest)) as [s2 seen2]. cbn [fst snd] in *.
      now split.
Qed.

Lemma serve_app (a b : list Event) (s : State) :
  serve s (a ++ b)%list
  = (fst (serve (fst (serve s a)) b),
     (snd (serve s a) ++ snd (serve (fst (serve s a)) b))%list).
Proof.
  revert s. induction a as [| e a IH]; intros s; simpl.
  - now destruct (serve s b).
  - destruct (step s e) as [s1 seen1]. rewrite IH.
    destruct (serve s1 a) as [s2 seen2]. cbn [fst snd].
    now rewrite app_assoc.
Qed.

(** X11. Messages alone start no refetch, whatever the state; and a
    burst of messages arriving on an idle effect before the timer fires
    costs one refetch if one of them is of a refreshing type, and none
    otherwise, however many they are. *)
Theorem burst_costs_one_refetch (payloads : list Js.Value) :
  (forall s : State, starts (snd (serve s (map Message payloads))) = 0%nat)
  /\ starts (snd (serve initial (map Message payloads ++ [TimerFires])%list))
     = (if existsb App.shouldRefetchFromRealtimePayload payloads then 1 else 0)%nat.
Proof.
  split.
  - intros s. apply serve_messages.
  - rewrite serve_app. cbn [snd]. rewrite starts_app.
    destruct (serve_messages payloads initial) as [-> ->].
    destruct (existsb App.shouldRefetchFromRealtimePayload payloads); reflexivity.
Qed.

End RealtimeFacts.

(* ------------------------------------------------------------------------- *)
(** ** What the board shows *)

Module BoardFacts.
Import Api App Dashboard.

Lemma TicketStatus_eqb_neq (a b : TicketStatus) :
  a <> b -> TicketStatus_eqb a b = false.
Proof.
  intros Hne. destruct (TicketStatus_eqb a b) eqn:E; [| reflexivity].
  apply AppFacts.TicketStatus_eqb_eq in E. contradiction.
Qed.

Lemma TicketStatus_eqb_refl (a : TicketStatus) : TicketStatus_eqb a a = true.
Proof. now apply AppFacts.TicketStatus_eqb_eq. Qed.

Lemma laneGet_laneSet_eq (m : LaneMap) (s : TicketStatus) (lane : list Ticket) :
  laneGet (laneSet m s lane) s = Some lane.
Proof.
  induction m as [| [s0 old] rest IH]; simpl.
  - now rewrite TicketStatus_eqb_refl.
  - destruct (TicketStatus_eqb s0 s) eqn:E; simpl; rewrite E; auto.
Qed.

Lemma laneGet_laneSet_ne (m : LaneMap) (s s' : TicketStatus) (lane : list Ticket) :
  s <> s' -> laneGet (laneSet m s lane) s' = laneGet m s'.
Proof.
  intros Hne. induction m as [| [s0 old] rest IH]; simpl.
  - now rewrite TicketStatus_eqb_neq.
  - destruct (TicketStatus_eqb s0 s) eqn:E; simpl.
    + apply AppFacts.TicketStatus_eqb_eq in E. subst s0.
      now rewrite TicketStatus_eqb_neq.
    + destruct (TicketStatus_eqb s0 s'); auto.
Qed.

Lemma grouped_get (sts : list TicketStatus) (m : LaneMap) (s : TicketStatus) :
  laneGet (fold_left (fun m status => laneSet m status []) sts m) s
  = if includesStatus s sts then Some [] else laneGet m s.
Proof.
  revert m. unfold includesStatus.
  induction sts as [| a sts IH]; intros m; simpl; [reflexivity |].
  rewrite IH. destruct (existsb (TicketStatus_eqb s) sts).
  - now rewrite orb_true_r.
  - rewrite orb_false_r. destruct (TicketStatus_eqb s a) eqn:E.
    + apply AppFacts.TicketStatus_eqb_eq in E. subst a. apply laneGet_laneSet_eq.
    + apply laneGet_laneSet_ne. intros ->. now rewrite TicketStatus_eqb_refl in E.
Qed.

Lemma pushed_get (tickets : list Ticket) (m : LaneMap) (s : TicketStatus) :
  laneGet (fold_left lanePush tickets m) s
  = option_map
      (fun lane =>
         (lane ++ List.filter (fun t => TicketStatus_eqb (status t) s) tickets)%list)
      (laneGet m s).
Proof.
  revert m. induction tickets as [| t rest IH]; intros m; simpl.
  - destruct (laneGet m s); simpl; [now rewrite app_nil_r | reflexivity].
  - rewrite IH. unfold lanePush.
    destruct (laneGet m (status t)) as [lane0 |] eqn:Hlane.
    + destruct (TicketStatus_eqb (status t) s) eqn:E.
      * apply AppFacts.TicketStatus_eqb_eq in E. subst s.
        rewrite laneGet_laneSet_eq, Hlane. simpl. now rewrite <- app_assoc.
      * rewrite laneGet_laneSet_ne; [reflexivity |].
        intros Heq. now rewrite Heq, TicketStatus_eqb_refl in E.
    + destruct (TicketStatus_eqb (status t) s) eqn:E; [| reflexivity].
      apply AppFacts.TicketStatus_eqb_eq in E. subst s. now rewrite Hlane.
Qed.

(** X12. The columns group the tickets by status: the column of a
    status among the lanes holds the tickets of that status, in the order
    of the list, and nothing else; a ticket whose status is not among the
    lanes is in no column. *)
Theorem lanes_group_by_status (laneStatuses : list TicketStatus)
  (tickets : list Ticket) (s : TicketStatus) :
  laneTickets (lanes laneStatuses tickets) s
  = if includesStatus s laneStatuses
    then List.filter (fun t => TicketStatus_eqb (status t) s) tickets
    else [].
Proof.
  unfold laneTickets, lanes. rewrite pushed_get, grouped_get. simpl.
  now destruct (includesStatus s laneStatuses).
Qed.

Lemma includesStatus_In (s : TicketStatus) (configured : list TicketStatus) :
  includesStatus s configured = true <-> In s configured.
Proof.
  unfold includesStatus. rewrite existsb_exists. split.
  - intros [x [Hin E]]. apply AppFacts.TicketStatus_eqb_eq in E. now subst x.
  - intros Hin. exists s. split; [exact Hin | apply TicketStatus_eqb_refl].
Qed.

(** X13. The lanes are the configured statuses, each once, and they
    depend on the configuration as a set only: its order and its
    repetitions do not show. *)
Theorem statuses_of_configuration (configured other : list TicketStatus) :
  (forall s, In s configured <-> In s other) ->
  statuses (Some configured) = statuses (Some other)
  /\ List.NoDup (statuses (Some configured))
  /\ forall s, In s (statuses (Some configured)) <-> In s configured.
Proof.
  intros Hsame. unfold statuses. cbn [orElse]. split; [| split].
  - apply filter_ext. intros s.
    destruct (includesStatus s configured) eqn:E1, (includesStatus s other) eqn:E2;
      try reflexivity.
    + apply includesStatus_In, Hsame, includesStatus_In in E1. congruence.
    + apply includesStatus_In, Hsame, includesStatus_In in E2. congruence.
  - apply List.NoDup_filter. unfold DEFAULT_STATUSES.
    repeat (constructor; [simpl; intuition discriminate |]). constructor.
  - intros s. rewrite filter_In, includesStatus_In. split; [tauto |].
    intros Hin. split; [| exact Hin].
    unfold DEFAULT_STATUSES. destruct s; simpl; tauto.
Qed.

Lemma statuses_of_configuration_witness :
  statuses (Some [Done; Todo; Done]) = statuses (Some [Todo; Done])
  /\ statuses (Some [Done; Todo; Done]) = [Todo; Done].
Proof.
  split; [| reflexivity].
  apply (statuses_of_configuration [Done; Todo; Done] [Todo; Done]).
  intros s. simpl. tauto.
Defined.

Lemma findIndexFrom_head {A : Type} (p : A -> bool) (l : list A) (i j : Z) :
  (i < j)%Z -> findIndexFrom p l j <> i \/ i = (-1)%Z.
Proof.
  revert j. induction l as [| x rest IH]; intros j Hlt; simpl.
  - destruct (Z.eq_dec i (-1)); [now right | left; congruence].
  - destruct (p x); [left; lia |]. apply IH. lia.
Qed.

Lemma findIndexFrom_first {A : Type} (p : A -> bool) (pre : list A) (x : A)
  (suf : list A) (i : Z) :
  (0 <= i)%Z ->
  Z.eqb (findIndexFrom p (pre ++ x :: suf)%list i) (i + Z.of_nat (length pre))
  = forallb (fun c => negb (p c)) pre && p x.
Proof.
  revert i. induction pre as [| a pre IH]; intros i Hi.
  - simpl. rewrite Z.add_0_r. destruct (p x) eqn:Hx.
    + apply Z.eqb_refl.
    + apply Z.eqb_neq. destruct (findIndexFrom_head p suf i (i + 1)) as [H | H]; lia.
  - cbn [app findIndexFrom forallb length]. destruct (p a); cbn [negb andb].
    + apply Z.eqb_neq. lia.
    + rewrite <- (IH (i + 1)%Z) by lia. f_equal. lia.
Qed.

Lemma first_per_title (present : list Errors.UiError) :
  forall (suf pre : list Errors.UiError),
    present = (pre ++ suf)%list ->
    let shown :=
      filterIndexedFrom
        (fun item index =>
           Z.eqb
             (findIndex
                (fun candidate =>
                   String.eqb (Errors.ui_title candidate) (Errors.ui_title item)) present)
             index)
        suf (Z.of_nat (length pre)) in
    (forall e, In e shown <->
               exists mid rest,
                 suf = (mid ++ e :: rest)%list
                 /\ forall c, In c (pre ++ mid)%list ->
                              Errors.ui_title c <> Errors.ui_title e)
    /\ List.NoDup (map Errors.ui_title shown).
Proof.
  induction suf as [| x suf IH]; intros pre Hlist shown.
  - subst shown. simpl. split; [| constructor].
    intros e. split; [tauto |]. intros (mid & rest & Hsplit & _).
    now destruct mid.
  - assert (present = ((pre ++ [x]) ++ suf)%list) as Hlist'
        by now rewrite <- app_assoc.
    specialize (IH (pre ++ [x])%list Hlist'). cbn zeta in IH.
    replace (Z.of_nat (length (pre ++ [x])%list))
      with (Z.of_nat (length pre) + 1)%Z in IH
      by (rewrite length_app; simpl; lia).
    destruct IH as [IHin IHnodup].
    assert (Z.eqb
              (findIndex
                 (fun candidate =>
                    String.eqb (Errors.ui_title candidate) (Errors.ui_title x)) present)
              (Z.of_nat (length pre))
            = forallb
                (fun c => negb (String.eqb (Errors.ui_title c) (Errors.ui_title x)))
                pre) as Hkept.
    { unfold findIndex. rewrite Hlist.
      rewrite <- (Z.add_0_l (Z.of_nat (length pre))).
      rewrite findIndexFrom_first by lia.
      now rewrite String.eqb_refl, andb_true_r. }
    subst shown. cbn [filterIndexedFrom]. rewrite Hkept.
    set (rest' := filterIndexedFrom _ suf _) in *.
    assert (forall e, In e rest' ->
                      Errors.ui_title e <> Errors.ui_title x) as Hfresh.
    { intros e He. apply IHin in He. destruct He as (mid & rest & _ & Hno).
      intros Heq. apply (Hno x); [| now symmetry].
      apply in_or_app. left. apply in_or_app. right. now left. }
    assert (forall e, In e rest' <->
                      exists mid rest,
                        suf = (mid ++ e :: rest)%list
                        /\ forall c, In c (pre ++ x :: mid)%list ->
                                     Errors.ui_title c <> Errors.ui_title e) as IHin'.
    { intros e. rewrite IHin. split; intros (mid & rest & Hs & Hno);
        exists mid, rest; (split; [exact Hs |]); intros c Hc; apply Hno.
      - rewrite <- app_assoc. exact Hc.
      - rewrite <- app_assoc in Hc. exact Hc. }
    assert (forall e, (exists mid rest,
                         (x :: suf)%list = (mid ++ e :: rest)%list
                         /\ forall c, In c (pre ++ mid)%list ->
                                      Errors.ui_title c <> Errors.ui_title e)
                      <-> (e = x
                           /\ forall c, In c pre ->
                                        Errors.ui_title c <> Errors.ui_title x)
                          \/ In e rest') as Hcases.
    { intros e. rewrite IHin'. split.
      - intros (mid & rest & Hs & Hno). destruct mid as [| y mid].
        + injection Hs as -> ->. left. split; [reflexivity |].
          intros c Hc. apply Hno. now rewrite app_nil_r.
        + injection Hs as -> ->. right. now exists mid, rest.
      - intros [[-> Hno] | (mid & rest & -> & Hno)].
        + exists [], suf. split; [reflexivity |]. now rewrite app_nil_r.
        + exists (x :: mid), rest. now split. }
    destruct (forallb _ pre) eqn:Hall.
    + split.
      * intros e. rewrite Hcases. simpl. split.
        -- intros [<- | He]; [left | now right]. split; [reflexivity |].
           intros c Hc Heq. rewrite forallb_forall in Hall.
           specialize (Hall c Hc). apply negb_true_iff, String.eqb_neq in Hall.
           contradiction.
        -- intros [[-> _] | He]; [now left | now right].
      * simpl. constructor; [| exact IHnodup].
        intros Hin. apply in_map_iff in Hin. destruct Hin as (e & Heq & He).
        now apply (Hfresh e He).
    + split; [| exact IHnodup].
      intros e. rewrite Hcases. split; [now right |].
      intros [[-> Hno] | He]; [| exact He].
      exfalso. apply Bool.not_true_iff_false in Hall. apply Hall.
      apply forallb_forall. intros c Hc. apply negb_true_iff, String.eqb_neq.
      now apply Hno.
Qed.

Lemma first_with_title (e : Errors.UiError) (l : list Errors.UiError) :
  In e l ->
  exists before first after,
    l = (before ++ first :: after)%list
    /\ Errors.ui_title first = Errors.ui_title e
    /\ forall c, In c before -> Errors.ui_title c <> Errors.ui_title first.
Proof.
  induction l as [| x rest IH]; intros Hin; [destruct Hin |].
  destruct (String.eqb_spec (Errors.ui_title x) (Errors.ui_title e)) as [Heq | Hne].
  - exists [], x, rest. split; [reflexivity |]. split; [exact Heq |].
    intros c [].
  - destruct Hin as [-> | Hin]; [contradiction |].
    destruct (IH Hin) as (before & first & after & -> & Ht & Hno).
    exists (x :: before), first, after. split; [reflexivity |]. split; [exact Ht |].
    intros c [<- | Hc]; [congruence | now apply Hno].
Qed.

(** X14. The banners show one error per title: no title twice, an error
    is shown exactly when it is the first of the errors present with its
    title, and every error present has a banner with its title. *)
Theorem banners_one_per_title (sources : list (option Errors.UiError)) :
  let present :=
    List.flat_map (fun v => match v with Some e => [e] | None => [] end) sources in
  List.NoDup (map Errors.ui_title (banners sources))
  /\ (forall e, In e (banners sources) <->
                exists before after,
                  present = (before ++ e :: after)%list
                  /\ forall c, In c before ->
                               Errors.ui_title c <> Errors.ui_title e)
  /\ (forall e, In (Some e) sources ->
                exists shown,
                  In shown (banners sources)
                  /\ Errors.ui_title shown = Errors.ui_title e).
Proof.
  intros present.
  destruct (first_per_title present present [] eq_refl) as [Hin Hnodup].
  unfold banners, filterIndexed. fold present.
  split; [exact Hnodup |]. split; [exact Hin |].
  intros e He.
  assert (In e present) as Hpresent.
  { apply in_flat_map. exists (Some e). split; [exact He | now left]. }
  destruct (first_with_title e present Hpresent)
    as (before & first & after & Hsplit & Ht & Hno).
  exists first. split; [| exact Ht].
  apply Hin. now exists before, after.
Qed.

Lemma descending_strict {A : Type} (key : A -> Z) (l : list A) :
  StronglySorted (fun a b => (key b <= key a)%Z) l ->
  List.NoDup (map key l) ->
  StronglySorted (fun a b => (key b < key a)%Z) l.
Proof.
  induction 1 as [| a rest Hrest IH Hall]; intros Hnodup; constructor.
  - apply IH. now inversion Hnodup.
  - apply List.Forall_forall. intros b Hb.
    rewrite List.Forall_forall in Hall. specialize (Hall b Hb).
    inversion Hnodup as [| ? ? Hnotin _]; subst.
    assert (key b <> key a) by (intros Heq; apply Hnotin; rewrite <- Heq; now apply in_map).
    lia.
Qed.

(** X15. The warning summaries list each ticket that has warnings once,
    with the warnings stored for it, in strictly descending order of the
    ticket id. *)
Theorem warningSummaries_spec (b : Board) :
  (forall k ws, In (k, ws) (warningSummaries b) <-> warningByTicketId b !! k = Some ws)
  /\ StronglySorted (fun left right => (fst right < fst left)%Z) (warningSummaries b).
Proof.
  unfold warningSummaries.
  set (entries := map_to_list (warningByTicketId b)).
  set (comparefn := fun left right : Z * list string => (fst right - fst left)%Z).
  pose proof (EditTicketPanelFacts.sort_perm comparefn entries) as Hperm.
  split.
  - intros k ws. rewrite <- elem_of_map_to_list. fold entries.
    rewrite list_elem_of_In. split; intros Hin.
    + now apply (Permutation_in _ (Permutation_sym Hperm)).
    + now apply (Permutation_in _ Hperm).
  - apply descending_strict.
    + apply EditTicketPanelFacts.sort_descending. reflexivity.
    + apply (Permutation_NoDup (Permutation_map fst Hperm)).
      apply NoDup_ListNoDup. exact (NoDup_fst_map_to_list (warningByTicketId b)).
Qed.

End BoardFacts.

(* ------------------------------------------------------------------------- *)
(** ** Text *)

Module JsTextFacts.
Import JsText.

Lemma isWhiteSpace_lowerChar (c : ascii) :
  isWhiteSpace (lowerChar c) = isWhiteSpace c.
Proof. destruct c as [[] [] [] [] [] [] [] []]; reflexivity. Qed.

Lemma lowerChar_idem (c : ascii) : lowerChar (lowerChar c) = lowerChar c.
Proof. destruct c as [[] [] [] [] [] [] [] []]; reflexivity. Qed.

Lemma toLowerCase_idem (s : string) : toLowerCase (toLowerCase s) = toLowerCase s.
Proof.
  induction s as [| c rest IH]; simpl; [reflexivity |].
  now rewrite lowerChar_idem, IH.
Qed.

Lemma trimStart_toLowerCase (s : string) :
  trimStart (toLowerCase s) = toLowerCase (trimStart s).
Proof.
  induction s as [| c rest IH]; simpl; [reflexivity |].
  rewrite isWhiteSpace_lowerChar. now destruct (isWhiteSpace c).
Qed.

Lemma trimEnd_toLowerCase (s : string) :
  trimEnd (toLowerCase s) = toLowerCase (trimEnd s).
Proof.
  induction s as [| c rest IH]; simpl; [reflexivity |].
  rewrite IH, isWhiteSpace_lowerChar.
  destruct (trimEnd rest); simpl; [now destruct (isWhiteSpace c) | reflexivity].
Qed.

Lemma trim_toLowerCase (s : string) : trim (toLowerCase s) = toLowerCase (trim s).
Proof.
  unfold trim. now rewrite trimStart_toLowerCase, trimEnd_toLowerCase.
Qed.

Lemma trimEnd_idem (s : string) : trimEnd (trimEnd s) = trimEnd s.
Proof.
  induction s as [| c rest IH]; simpl; [reflexivity |].
  destruct (trimEnd rest) as [| k kept] eqn:E.
  - destruct (isWhiteSpace c) eqn:Hc; simpl; [reflexivity | now rewrite Hc].
  - change (trimEnd (String c (String k kept)))
      with (match trimEnd (String k kept) with
            | EmptyString => if isWhiteSpace c then EmptyString else String c EmptyString
            | String k' kept' => String c (String k' kept')
            end).
    now rewrite IH.
Qed.

(** A string that does not start with white space. *)
Lemma trimStart_fixed (s : string) :
  trimStart (trimStart s) = trimStart s.
Proof.
  induction s as [| c rest IH]; simpl; [reflexivity |].
  destruct (isWhiteSpace c) eqn:Hc; [exact IH |]. simpl. now rewrite Hc.
Qed.

Lemma trimStart_trimEnd (s : string) :
  trimStart s = s -> trimStart (trimEnd s) = trimEnd s.
Proof.
  destruct s as [| c rest]; [reflexivity |]. simpl.
  destruct (isWhiteSpace c) eqn:Hc.
  - intros Hfix. exfalso.
    assert (String.length (trimStart rest) <= String.length rest)%nat as Hle.
    { clear. induction rest as [| a r IH]; simpl; [lia |].
      destruct (isWhiteSpace a); simpl; lia. }
    rewrite Hfix in Hle. simpl in Hle. lia.
  - intros _. destruct (trimEnd rest); simpl; now rewrite Hc.
Qed.

Lemma trim_idem (s : string) : trim (trim s) = trim s.
Proof.
  unfold trim.
  rewrite (trimStart_trimEnd (trimStart s) (trimStart_fixed s)).
  apply trimEnd_idem.
Qed.

Lemma startsWith_app (needle post : string) :
  Js.startsWith needle (needle ++ post) = true.
Proof.
  induction needle as [| c rest IH]; simpl; [reflexivity |].
  now rewrite Ascii.eqb_refl.
Qed.

Lemma startsWith_split (needle hay : string) :
  Js.startsWith needle hay = true -> exists post, hay = needle ++ post.
Proof.
  revert hay. induction needle as [| c rest IH]; intros hay; simpl.
  - intros _. now exists hay.
  - destruct hay as [| b r]; [discriminate |].
    intros H. apply andb_true_iff in H. destruct H as [Hc Hr].
    apply Ascii.eqb_eq in Hc. subst b.
    destruct (IH r Hr) as [post ->]. now exists post.
Qed.

(** [includes] finds the needle exactly when it is a part of the
    string. *)
Lemma includes_spec (needle hay : string) :
  includes needle hay = true <-> exists pre post, hay = pre ++ needle ++ post.
Proof.
  split.
  - induction hay as [| c rest IH]; simpl.
    + rewrite orb_false_r. intros H.
      destruct (startsWith_split _ _ H) as [post ->]. now exists EmptyString, post.
    + intros H. apply orb_true_iff in H. destruct H as [H | H].
      * destruct (startsWith_split _ _ H) as [post ->]. now exists EmptyString, post.
      * destruct (IH H) as (pre & post & ->). now exists (String c pre), post.
  - intros (pre & post & ->). induction pre as [| c pre IH].
    + change (EmptyString ++ needle ++ post) with (needle ++ post).
      pose proof (startsWith_app needle post) as Hstart.
      destruct (needle ++ post); simpl; now rewrite Hstart.
    + simpl. rewrite IH. apply orb_true_r.
Qed.

End JsTextFacts.

(* ------------------------------------------------------------------------- *)
(** ** The activity page and the cards *)

Module ActivityFacts.
Import Activity.

(** X16. With room for at least one character, [truncateText] never
    gives more than [maxLength] code units: a text that fits is returned
    as it is, and only such a text; a longer one is cut to its first
    [maxLength - 1] code units and the ellipsis. *)
Theorem truncateText_fits (value : CodeUnits) (maxLength : Z) :
  (1 <= maxLength)%Z ->
  (Z.of_nat (List.length (truncateText value maxLength)) <= maxLength)%Z
  /\ (truncateText value maxLength = value
      <-> (Z.of_nat (List.length value) <= maxLength)%Z)
  /\ ((maxLength < Z.of_nat (List.length value))%Z ->
      truncateText value maxLength
      = (List.firstn (Z.to_nat (maxLength - 1)) value ++ [ELLIPSIS])%list
      /\ Z.of_nat (List.length (truncateText value maxLength)) = maxLength).
Proof.
  intros Hroom. unfold truncateText, sliceTo.
  destruct (Z.leb_spec (Z.of_nat (List.length value)) maxLength) as [Hfits | Hlong].
  - split; [exact Hfits |]. split; [tauto | lia].
  - destruct (Z.ltb_spec (maxLength - 1) 0) as [Hneg | _]; [lia |].
    rewrite Z.min_l by lia.
    assert (List.length
              (List.firstn (Z.to_nat (maxLength - 1)) value ++ [ELLIPSIS])%list
            = Z.to_nat maxLength) as Hlen.
    { rewrite length_app, length_firstn. simpl. lia. }
    split; [rewrite Hlen; lia |]. split.
    + split; [| lia]. intros Heq. rewrite Heq in Hlen. lia.
    + intros _. split; [reflexivity | rewrite Hlen; lia].
Qed.

Lemma truncateText_fits_witness :
  truncateText [104; 101; 108; 108; 111]%N 3 = [104; 101; 8230]%N
  /\ (Z.of_nat (List.length (truncateText [104; 101; 108; 108; 111]%N 3)) = 3)%Z.
Proof.
  destruct (truncateText_fits [104; 101; 108; 108; 111]%N 3 ltac:(lia))
    as (_ & _ & Hcut).
  destruct (Hcut ltac:(simpl; lia)) as [Heq Hlen].
  split; [rewrite Heq; reflexivity | exact Hlen].
Defined.

Lemma countGet_countSet_eq (m : list (string * Z)) (k : string) (n : Z) :
  countGet (countSet m k n) k = Some n.
Proof.
  induction m as [| [k0 old] rest IH]; simpl.
  - now rewrite String.eqb_refl.
  - destruct (String.eqb k0 k) eqn:E; simpl; rewrite E; auto.
Qed.

Lemma countGet_countSet_ne (m : list (string * Z)) (k k' : string) (n : Z) :
  k <> k' -> countGet (countSet m k n) k' = countGet m k'.
Proof.
  intros Hne. induction m as [| [k0 old] rest IH]; simpl.
  - destruct (String.eqb_spec k k'); [contradiction | reflexivity].
  - destruct (String.eqb_spec k0 k) as [-> | Hk]; simpl.
    + destruct (String.eqb_spec k k'); [contradiction | reflexivity].
    + destruct (String.eqb k0 k'); auto.
Qed.

Lemma In_keys_countSet (m : list (string * Z)) (k x : string) (n : Z) :
  In x (map fst (countSet m k n)) -> x = k \/ In x (map fst m).
Proof.
  induction m as [| [k0 old] rest IH]; simpl.
  - intros [<- | []]. now left.
  - destruct (String.eqb k0 k); simpl; intuition.
Qed.

Lemma NoDup_countSet (m : list (string * Z)) (k : string) (n : Z) :
  List.NoDup (map fst m) -> List.NoDup (map fst (countSet m k n)).
Proof.
  induction m as [| [k0 old] rest IH]; simpl; intros Hnodup.
  - constructor; [intros [] | constructor].
  - inversion Hnodup as [| ? ? Hnotin Hrest]; subst.
    destruct (String.eqb_spec k0 k) as [-> | Hk]; simpl.
    + now constructor.
    + constructor; [| now apply IH].
      intros Hin. apply In_keys_countSet in Hin. destruct Hin; [congruence | contradiction].
Qed.

Lemma countGet_None (m : list (string * Z)) (k : string) :
  countGet m k = None -> ~ In k (map fst m).
Proof.
  induction m as [| [k0 n0] rest IH]; simpl; [tauto |].
  destruct (String.eqb_spec k0 k); [discriminate |]. intros H [Heq | Hin]; [contradiction |].
  now apply IH.
Qed.

Lemma countGet_In (m : list (string * Z)) (k : string) (n : Z) :
  List.NoDup (map fst m) -> In (k, n) m <-> countGet m k = Some n.
Proof.
  induction m as [| [k0 n0] rest IH]; simpl; intros Hnodup.
  - split; [tauto | discriminate].
  - inversion Hnodup as [| ? ? Hnotin Hrest]; subst.
    destruct (String.eqb_spec k0 k) as [-> | Hk].
    + split.
      * intros [[= ->] | Hin]; [reflexivity |].
        exfalso. apply Hnotin. now apply (in_map fst _ (k, n)).
      * intros [= ->]. now left.
    + rewrite <- (IH Hrest). split; [| tauto].
      intros [[= ? ?] | Hin]; [contradiction | exact Hin].
Qed.

Lemma countTypes_fold (types : list string) (m : list (string * Z)) (k : string) :
  countGet
    (fold_left
       (fun counts type =>
          countSet counts type (App.orElse (countGet counts type) 0 + 1)%Z)
       types m) k
  = match count_occ string_dec types k with
    | O => countGet m k
    | S c => Some (App.orElse (countGet m k) 0 + Z.of_nat (S c))%Z
    end
  /\ (List.NoDup (map fst m) ->
      List.NoDup
        (map fst
           (fold_left
              (fun counts type =>
                 countSet counts type (App.orElse (countGet counts type) 0 + 1)%Z)
              types m))).
Proof.
  revert m. induction types as [| t rest IH]; intros m; [now split |].
  cbn [fold_left count_occ].
  destruct (IH (countSet m t (App.orElse (countGet m t) 0 + 1)%Z)) as [IHget IHnodup].
  split; [| intros Hnodup; now apply IHnodup, NoDup_countSet].
  rewrite IHget. destruct (string_dec t k) as [-> | Hne].
  - rewrite countGet_countSet_eq. cbn [App.orElse].
    destruct (count_occ string_dec rest k); f_equal; lia.
  - now rewrite (countGet_countSet_ne _ _ _ _ Hne).
Qed.

(** X17. The event type counts list each event type that occurs once,
    with the number of the events of this type, the larger counts
    first. *)
Theorem eventTypeCounts_spec (types : list string) :
  (forall k n,
     In (k, n) (eventTypeCounts types)
     <-> n = Z.of_nat (count_occ string_dec types k) /\ In k types)
  /\ List.NoDup (map fst (eventTypeCounts types))
  /\ StronglySorted (fun left right => (snd right <= snd left)%Z)
       (eventTypeCounts types).
Proof.
  unfold eventTypeCounts.
  set (comparefn := fun left right : string * Z => (snd right - snd left)%Z).
  pose proof (EditTicketPanelFacts.sort_perm comparefn (countTypes types)) as Hperm.
  destruct (countTypes_fold types [] EmptyString) as [_ Hnodup].
  specialize (Hnodup (List.NoDup_nil _)). fold (countTypes types) in Hnodup.
  split; [| split].
  - intros k n. transitivity (In (k, n) (countTypes types)).
    + split; intros Hin.
      * now apply (Permutation_in _ (Permutation_sym Hperm)).
      * now apply (Permutation_in _ Hperm).
    + rewrite (countGet_In _ k n Hnodup). unfold countTypes.
      destruct (countTypes_fold types [] k) as [-> _]. simpl.
      rewrite (count_occ_In string_dec).
      destruct (count_occ string_dec types k) as [| c].
      * split; [discriminate | lia].
      * split; [intros [= <-]; split; lia | intros [-> _]; f_equal; lia].
  - exact (Permutation_NoDup (Permutation_map fst Hperm) Hnodup).
  - apply EditTicketPanelFacts.sort_descending. reflexivity.
Qed.

Lemma assigneeHash_range (cs : list ascii) (h : Z) :
  (0 <= h < 2 ^ 32)%Z -> (0 <= fold_left hashStep cs h < 2 ^ 32)%Z.
Proof.
  revert h. induction cs as [| c rest IH]; intros h Hh; simpl; [exact Hh |].
  apply IH. unfold hashStep. apply Z.mod_pos_bound. lia.
Qed.

(** X18. [assigneeToColor] always gives one of its nine colours, and
    the colour of an assignee does not depend on the case of the name nor
    on white space around it. *)
Theorem assigneeToColor_stable (assignee : string) :
  In (assigneeToColor assignee) (UNASSIGNED_COLOR :: palette)
  /\ assigneeToColor (JsText.toLowerCase assignee) = assigneeToColor assignee
  /\ assigneeToColor (JsText.trim assignee) = assigneeToColor assignee.
Proof.
  split; [| split].
  - unfold assigneeToColor.
    destruct (negb _ || _); [now left |]. right. apply nth_In.
    change (List.length palette) with 8%nat.
    pose proof (Z.mod_pos_bound
                  (assigneeHash (JsText.toLowerCase (JsText.trim assignee))) 8) as Hb.
    change (Z.of_nat 8) with 8%Z. lia.
  - unfold assigneeToColor.
    now rewrite JsTextFacts.trim_toLowerCase, JsTextFacts.toLowerCase_idem.
  - unfold assigneeToColor. now rewrite JsTextFacts.trim_idem.
Qed.

End ActivityFacts.

(* ------------------------------------------------------------------------- *)
(** ** The ticket panel *)

Module PanelFacts.
Import Api Panel.

Lemma round_integer (m e : Z) :
  Js.isInteger (Js.Fin m e) = true -> round m e = Js.integerValue (Js.Fin m e).
Proof.
  unfold round. cbn [Js.isInteger Js.integerValue].
  destruct (Z.leb_spec 0 e) as [_ | Hneg]; [reflexivity |].
  intros Hmod. apply Z.eqb_eq in Hmod.
  assert (0 < 2 ^ (- e))%Z as Hpos by (apply Z.pow_pos_nonneg; lia).
  set (P := (2 ^ (- e))%Z) in *.
  replace (2 ^ (- e + 1))%Z with (P * 2)%Z by (unfold P; rewrite Z.pow_add_r by lia; lia).
  pose proof (Z.div_mod m P ltac:(lia)) as Hm. rewrite Hmod, Z.add_0_r in Hm.
  set (q := (m / P)%Z) in *. clearbody q. clearbody P.
  replace (2 * m + P)%Z with (P * (2 * q + 1))%Z by lia.
  rewrite Z.div_mul_cancel_l by lia.
  symmetry. apply Z.div_unique with 1%Z; lia.
Qed.

Lemma clampDrawerWidth_range (value : Js.Number) :
  (DRAWER_WIDTH_MIN <= clampDrawerWidth value <= DRAWER_WIDTH_MAX)%Z.
Proof.
  unfold clampDrawerWidth, DRAWER_WIDTH_MIN, DRAWER_WIDTH_MAX, DRAWER_WIDTH_DEFAULT.
  destruct value; lia.
Qed.

(** X19. The width of the drawer is always between 420 and 960,
    whatever is asked for and whatever the storage holds; and what
    [persistDrawerWidth] stores is read back by
    [readDrawerWidthFromStorage] as the width the panel took. *)
Theorem drawer_width_round_trip (value : Js.Number) (raw : option string) :
  (DRAWER_WIDTH_MIN <= fst (persistDrawerWidth value) <= DRAWER_WIDTH_MAX)%Z
  /\ readDrawerWidthFromStorage (Some (snd (persistDrawerWidth value)))
     = fst (persistDrawerWidth value)
  /\ (DRAWER_WIDTH_MIN <= readDrawerWidthFromStorage raw <= DRAWER_WIDTH_MAX)%Z.
Proof.
  pose proof (clampDrawerWidth_range value) as Hrange.
  split; [exact Hrange |]. split.
  - unfold persistDrawerWidth, readDrawerWidthFromStorage. cbn [fst snd].
    set (n := clampDrawerWidth value) in *.
    unfold DRAWER_WIDTH_MIN, DRAWER_WIDTH_MAX in Hrange.
    destruct (JsFacts.stringToNumber_numberToString n ltac:(lia)) as [Hint Hval].
    destruct (Js.truthyString (Js.numberToString n)) eqn:Htruthy; cbn [negb].
    + destruct (Js.stringToNumber (Js.numberToString n)) as [| ? | m e];
        try discriminate.
      unfold clampDrawerWidth. rewrite (round_integer m e Hint), Hval.
      unfold DRAWER_WIDTH_MIN, DRAWER_WIDTH_MAX. lia.
    + unfold Js.truthyString in Htruthy. apply negb_false_iff, String.eqb_eq in Htruthy.
      rewrite Htruthy in Hval. cbn in Hval. lia.
  - unfold readDrawerWidthFromStorage.
    destruct raw as [text |]; [destruct (negb _) |];
      try apply clampDrawerWidth_range;
      unfold DRAWER_WIDTH_MIN, DRAWER_WIDTH_MAX, DRAWER_WIDTH_DEFAULT; lia.
Qed.

Lemma validateForm_trim (title description : string) :
  validateForm (JsText.trim title) (JsText.trim description)
  = validateForm title description.
Proof.
  unfold validateForm. now rewrite !JsTextFacts.trim_idem.
Qed.

(** X20. What the edit form submits is valid and bears the id of the
    ticket: the title is trimmed and has between 1 and 200 characters, the
    description is trimmed and has at most 10000; and submitting the
    submitted values again submits the same. *)
Theorem handleSubmit_submits_valid (ticket : Ticket)
  (title description assignee : string) (priority : TicketPriority)
  (ticketId : Z) (input : UpdateTicketRequest) :
  handleSubmit ticket title description assignee priority = inr (ticketId, input) ->
  ticketId = id ticket
  /\ exists submittedTitle submittedDescription,
       input = {| upd_title := Some submittedTitle;
                  upd_description := Some submittedDescription;
                  upd_assignee := Some assignee;
                  upd_priority := Some priority |}
       /\ JsText.trim submittedTitle = submittedTitle
       /\ JsText.trim submittedDescription = submittedDescription
       /\ (1 <= Z.of_nat (String.length submittedTitle) <= 200)%Z
       /\ (Z.of_nat (String.length submittedDescription) <= 10000)%Z
       /\ handleSubmit ticket submittedTitle submittedDescription assignee priority
          = inr (ticketId, input).
Proof.
  intros Hsubmit. unfold handleSubmit in Hsubmit.
  destruct (App.isNull (title_error (validateForm title description))
            && App.isNull (description_error (validateForm title description)))
    eqn:Hvalid; [| discriminate Hsubmit].
  injection Hsubmit as <- <-. split; [reflexivity |].
  exists (JsText.trim title), (JsText.trim description).
  split; [reflexivity |].
  split; [apply JsTextFacts.trim_idem |]. split; [apply JsTextFacts.trim_idem |].
  apply andb_true_iff in Hvalid. destruct Hvalid as [Htitle Hdesc].
  split; [| split].
  - unfold validateForm in Htitle. cbn [title_error] in Htitle.
    destruct (Js.truthyString (JsText.trim title)) eqn:Htruthy; cbn [negb] in Htitle;
      [| discriminate].
    destruct (Z.ltb_spec 200 (Z.of_nat (String.length (JsText.trim title))));
      [discriminate |].
    split; [| lia]. destruct (JsText.trim title); [discriminate | simpl; lia].
  - unfold validateForm in Hdesc. cbn [description_error] in Hdesc.
    destruct (Z.ltb_spec 10000 (Z.of_nat (String.length (JsText.trim description))));
      [discriminate | lia].
  - unfold handleSubmit. rewrite validateForm_trim, Htitle, Hdesc. cbn [andb].
    now rewrite !JsTextFacts.trim_idem.
Qed.

Lemma handleSubmit_submits_valid_witness :
  let ticket := mkTicket 7 "Old" EmptyString Todo "Ada" Medium None None "t0" "t0" in
  exists input,
    handleSubmit ticket "  Write report " " soon" "Ada" High = inr (7%Z, input)
    /\ handleSubmit ticket "Write report" "soon" "Ada" High = inr (7%Z, input).
Proof.
  intros ticket. eexists.
  split; [reflexivity |].
  destruct (handleSubmit_submits_valid ticket "  Write report " " soon" "Ada" High
              _ _ eq_refl)
    as (_ & t & d & Hinput & _ & _ & _ & _ & Hagain).
  injection Hinput as <- <-. exact Hagain.
Defined.



End PanelFacts.

(* ------------------------------------------------------------------------- *)
(** ** Errors and queries *)

Module ErrorsFacts.
Import Errors.

Lemma messageField_nonempty (payload : Js.Value) (key text : string) :
  messageField payload key = Some text -> text <> EmptyString.
Proof.
  unfold messageField. destruct (Js.getProp payload key); try discriminate.
  destruct (Js.truthyString (JsText.trim s)) eqn:E; [| discriminate].
  intros [= <-] Hempty. rewrite Hempty in E. discriminate.
Qed.

Lemma extractMessage_nonempty (payload : Js.Value) (text : string) :
  extractMessage payload = Some text -> text <> EmptyString.
Proof.
  unfold extractMessage. destruct (negb _ || negb _); [discriminate |].
  destruct (messageField payload "detail") eqn:E1.
  { intros [= <-]. eapply messageField_nonempty, E1. }
  destruct (messageField payload "message") eqn:E2.
  { intros [= <-]. eapply messageField_nonempty, E2. }
  apply messageField_nonempty.
Qed.

(** X22. The banner of an HTTP error: it is never without a message; it
    goes away by itself exactly for the statuses 400 and 404; and save for
    401 and 403, which have a text of their own, it shows the message of
    the error, that is the server's own when the answer has one. *)
Theorem http_error_banner (status : Z) (payload : Js.Value) :
  let error := createHttpError status payload in
  let banner := mapApiErrorToUi error in
  ui_message banner <> EmptyString
  /\ (ui_sticky banner = false <-> status = 400%Z \/ status = 404%Z)
  /\ (status <> 401%Z -> status <> 403%Z -> ui_message banner = err_message error)
  /\ (forall text, extractMessage payload = Some text -> err_message error = text).
Proof.
  cbv zeta.
  assert (err_message (createHttpError status payload) <> EmptyString) as Hmessage.
  { unfold createHttpError. cbn [err_message].
    destruct (extractMessage payload) as [text |] eqn:E.
    - now apply (extractMessage_nonempty payload).
    - discriminate. }
  unfold mapApiErrorToUi, statusIs.
  change (err_code (createHttpError status payload)) with http_error.
  change (err_status (createHttpError status payload)) with (Some status).
  change (err_detail (createHttpError status payload))
    with (Some (err_message (createHttpError status payload))).
  cbn [App.orElse].
  destruct (Z.eqb_spec status 400) as [-> | H400]; cbn [ui_message ui_sticky].
  { split; [exact Hmessage |]. split; [tauto |]. split; [reflexivity |].
    intros text E. unfold createHttpError. now rewrite E. }
  destruct (Z.eqb_spec status 401) as [-> | H401]; cbn [orb ui_message ui_sticky].
  { split; [discriminate |]. split; [split; [discriminate | lia] |].
    split; [congruence |]. intros text E. unfold createHttpError. now rewrite E. }
  destruct (Z.eqb_spec status 403) as [-> | H403]; cbn [orb ui_message ui_sticky].
  { split; [discriminate |]. split; [split; [discriminate | lia] |].
    split; [congruence |]. intros text E. unfold createHttpError. now rewrite E. }
  destruct (Z.eqb_spec status 404) as [-> | H404]; cbn [ui_message ui_sticky].
  { split; [exact Hmessage |]. split; [tauto |]. split; [reflexivity |].
    intros text E. unfold createHttpError. now rewrite E. }
  destruct (500 <=? status)%Z; cbn [ui_message ui_sticky];
    (split; [exact Hmessage |]); (split; [split; [discriminate | lia] |]);
    (split; [reflexivity |]); intros text E; unfold createHttpError; now rewrite E.
Qed.

End ErrorsFacts.

Module HooksFacts.
Import Hooks.

Section QueryFacts.
Context {TData : Type}.

Lemma fold_keeps_data (actions : list (QueryAction TData)) (s : QueryState TData) :
  (forall result, ~ In (success result) actions) ->
  data (fold_left queryReducer actions s) = data s.
Proof.
  revert s. induction actions as [| a rest IH]; intros s Hnone; [reflexivity |].
  cbn [fold_left]. rewrite IH.
  - destruct a as [| result | apiError ui]; try reflexivity.
    exfalso. apply (Hnone result). now left.
  - intros result Hin. apply (Hnone result). now right.
Qed.

(** X23. A query keeps the data of its last answer: loading again and
    failing change the flags and the error, never the data. *)
Theorem query_keeps_last_data (earlier later : list (QueryAction TData))
  (result : TData) (s : QueryState TData) :
  (forall other, ~ In (success other) later) ->
  data (fold_left queryReducer (earlier ++ success result :: later)%list s)
  = Some result.
Proof.
  intros Hnone. rewrite fold_left_app. cbn [fold_left].
  now rewrite fold_keeps_data.
Qed.

End QueryFacts.

Lemma query_keeps_last_data_witness :
  data
    (fold_left queryReducer
       [ loading; success 1%Z; loading; success 2%Z; loading;
         failure (Errors.createHttpError 500 Js.Null)
           (Errors.mapApiErrorToUi (Errors.createHttpError 500 Js.Null)) ]
       (createInitialQueryState true))
  = Some 2%Z.
Proof.
  apply (query_keeps_last_data [loading; success 1%Z; loading] _ 2%Z).
  intros other [H | [H | []]]; discriminate H.
Defined.

End HooksFacts.

(* ------------------------------------------------------------------------- *)
(** ** Creating a ticket *)

Module ShellFacts.
Import Api App Dashboard.

Lemma filter_length_le {A : Type} (p : A -> bool) (l : list A) :
  (List.length (List.filter p l) <= List.length l)%nat.
Proof.
  induction l as [| x rest IH]; simpl; [lia |]. destruct (p x); simpl; lia.
Qed.

Lemma filter_id_iff {A : Type} (p : A -> bool) (l : list A) :
  List.filter p l = l <-> forall x, In x l -> p x = true.
Proof.
  induction l as [| x rest IH]; simpl; [tauto |].
  destruct (p x) eqn:Hx; split.
  - intros [= Heq] y [<- | Hy]; [exact Hx | now apply IH].
  - intros Hall. f_equal. apply IH. auto.
  - intros Heq. pose proof (filter_length_le p rest) as Hle.
    rewrite Heq in Hle. simpl in Hle. lia.
  - intros Hall. specialize (Hall x (or_introl eq_refl)). congruence.
Qed.

(** X24. When a creation settles, removing its placeholder gives back
    the pending tickets as they would be without it (those added since,
    then those there before) exactly when no other of them bears the same
    temporary id: a placeholder made within the same millisecond is
    removed along with it. *)
Theorem create_settles_restores (payload : CreateTicketRequest) (nowMs : Z)
  (now : string) (since existing : list Ticket) :
  dropPending (- nowMs)
    (since ++ fst (App.handleCreateTicket payload nowMs now existing))%list
  = (since ++ existing)%list
  <-> forall t, In t (since ++ existing)%list -> id t <> (- nowMs)%Z.
Proof.
  unfold dropPending, App.handleCreateTicket. cbn [fst].
  rewrite List.filter_app. cbn [List.filter temporaryTicket id].
  rewrite Z.eqb_refl. cbn [negb]. rewrite <- List.filter_app, filter_id_iff.
  split; intros Hall t Ht; specialize (Hall t Ht).
  - apply negb_true_iff, Z.eqb_neq in Hall. exact Hall.
  - now apply negb_true_iff, Z.eqb_neq.
Qed.

End ShellFacts.

(* ------------------------------------------------------------------------- *)
(** ** Searching the board *)

Module SearchFacts.
Import Api App Dashboard.

(** X25. The search keeps the tickets of the board, in their order,
    that have the search text, trimmed and in lower case, as a part of
    the title, the description or the assignee in lower case; a search
    text that is blank keeps them all. *)
Theorem filteredTickets_spec (view : Render) (searchValue : string) (t : Ticket) :
  let search := JsText.toLowerCase (JsText.trim searchValue) in
  (In t (filteredTickets view searchValue)
   <-> In t (boardTickets view)
       /\ exists field before after,
            In field [title t; description t; assignee t]
            /\ JsText.toLowerCase field = before ++ search ++ after)
  /\ (search = EmptyString -> filteredTickets view searchValue = boardTickets view)
  /\ exists keep, filteredTickets view searchValue = List.filter keep (boardTickets view).
Proof.
  cbv zeta. unfold filteredTickets.
  set (search := JsText.toLowerCase (JsText.trim searchValue)).
  destruct (Js.truthyString search) eqn:Htruthy; cbn [negb].
  - split; [| split].
    + rewrite filter_In, existsb_exists. split.
      * intros [Hin [field [Hfield Hfound]]]. split; [exact Hin |].
        apply JsTextFacts.includes_spec in Hfound.
        destruct Hfound as (before & after & Heq). now exists field, before, after.
      * intros [Hin (field & before & after & Hfield & Heq)]. split; [exact Hin |].
        exists field. split; [exact Hfield |].
        apply JsTextFacts.includes_spec. now exists before, after.
    + intros Hempty. rewrite Hempty in Htruthy. discriminate.
    + eexists. reflexivity.
  - assert (search = EmptyString) as Hempty.
    { unfold Js.truthyString in Htruthy. now apply negb_false_iff, String.eqb_eq in Htruthy. }
    split; [| split].
    + split; [| tauto]. intros Hin. split; [exact Hin |].
      exists (title t), EmptyString, (JsText.toLowerCase (title t)).
      split; [now left | now rewrite Hempty].
    + reflexivity.
    + exists (fun _ => true). symmetry. apply ShellFacts.filter_id_iff. reflexivity.
Qed.

Lemma filteredTickets_spec_witness :
  let served := mkTicket 1 "Write Report" EmptyString Todo "Ada" Medium None None "t0" "t0" in
  let view := {| ticketsQuery_data := Some [served];
                 pendingTickets := [];
                 board := initialBoard |} in
  filteredTickets view "   " = boardTickets view.
Proof.
  intros served view.
  apply (filteredTickets_spec view "   " served). reflexivity.
Defined.

End SearchFacts.

(* ------------------------------------------------------------------------- *)
(** ** The address of the API *)

Module EnvFacts.
Import JsText Env.

Lemma append_slash_nonempty (s : string) : s ++ "/" <> EmptyString.
Proof. destruct s; discriminate. Qed.

Lemma dropTrailingSlashes_no_slash (value s : string) :
  dropTrailingSlashes value <> s ++ "/".
Proof.
  revert s. induction value as [| c rest IH]; intros s; simpl.
  - intros H. symmetry in H. now apply append_slash_nonempty in H.
  - destruct (dropTrailingSlashes rest) as [| k kept] eqn:E.
    + destruct (Ascii.eqb_spec c "/") as [-> | Hc].
      * intros H. symmetry in H. now apply append_slash_nonempty in H.
      * destruct s as [| a s']; simpl.
        -- intros [= H1]. congruence.
        -- intros [= _ H2]. symmetry in H2. now apply append_slash_nonempty in H2.
    + destruct s as [| a s']; simpl; [discriminate |].
      intros [= _ H]. now apply (IH s').
Qed.

Lemma dropTrailingSlashes_rest (value : string) :
  exists slashes,
    value = dropTrailingSlashes value ++ slashes
    /\ dropTrailingSlashes slashes = EmptyString.
Proof.
  induction value as [| c rest IH]; [now exists EmptyString |].
  destruct IH as (slashes & Hrest & Hslashes). simpl.
  destruct (dropTrailingSlashes rest) as [| k kept] eqn:E; rewrite ?E in Hrest.
  - change (rest = slashes) in Hrest. subst slashes.
    destruct (Ascii.eqb_spec c "/") as [-> | Hc].
    + exists (String "/" rest). split; [reflexivity |]. simpl. now rewrite Hslashes.
    + exists rest. now split.
  - exists slashes. split; [| exact Hslashes].
    change (String c rest = String c (String k kept ++ slashes)).
    f_equal. exact Hrest.
Qed.

(** X26. A base address that is given (not blank) is used trimmed and
    without its trailing slashes, and only those are dropped; a path is
    joined to it by one slash, whether it begins with one or not. *)
Theorem api_url_joined_by_one_slash (origin value : string) :
  JsText.trim value <> EmptyString ->
  let base := normalizeBaseUrl origin value in
  (forall s, base <> s ++ "/")
  /\ (exists slashes,
        JsText.trim value = base ++ slashes
        /\ dropTrailingSlashes slashes = EmptyString)
  /\ forall path,
       buildApiUrl base ("/" ++ path) = base ++ "/" ++ path
       /\ (Js.startsWith "/" path = false -> buildApiUrl base path = base ++ "/" ++ path).
Proof.
  intros Hgiven. cbv zeta. unfold normalizeBaseUrl.
  destruct (Js.truthyString (JsText.trim value)) eqn:Htruthy; cbn [negb].
  - split; [intros s; apply dropTrailingSlashes_no_slash |].
    split; [apply dropTrailingSlashes_rest |].
    intros path. unfold buildApiUrl. split; [reflexivity |]. now intros ->.
  - unfold Js.truthyString in Htruthy.
    apply negb_false_iff, String.eqb_eq in Htruthy. contradiction.
Qed.

Lemma api_url_joined_by_one_slash_witness :
  buildApiUrl (normalizeBaseUrl "http://localhost:5173" " http://localhost:3001// ")
    "api/tickets"
  = "http://localhost:3001/api/tickets".
Proof.
  destruct (api_url_joined_by_one_slash "http://localhost:5173"
              " http://localhost:3001// " ltac:(discriminate))
    as (_ & _ & Hjoin).
  destruct (Hjoin "api/tickets") as [_ Hplain].
  rewrite (Hplain eq_refl). reflexivity.
Defined.

End EnvFacts.

(* ------------------------------------------------------------------------- *)
(** ** The keys of the activity entries *)

Module EntryFacts.
Import Api EditTicketPanel.

Lemma numberToString_inj (a b : Z) :
  Js.isSafeInteger a -> Js.isSafeInteger b ->
  Js.numberToString a = Js.numberToString b -> a = b.
Proof.
  unfold Js.isSafeInteger, Js.MAX_SAFE_INTEGER. intros Ha Hb Heq.
  destruct (JsFacts.stringToNumber_numberToString a ltac:(lia)) as [_ Hva].
  destruct (JsFacts.stringToNumber_numberToString b ltac:(lia)) as [_ Hvb].
  rewrite Heq in Hva. congruence.
Qed.

Lemma NoDup_map_by {A K B : Type} (key : A -> K) (g : A -> B) (l : list A) :
  List.NoDup (map key l) ->
  (forall a b, In a l -> In b l -> g a = g b -> key a = key b) ->
  List.NoDup (map g l).
Proof.
  induction l as [| x rest IH]; simpl; intros Hnodup Hinj; [constructor |].
  inversion Hnodup as [| ? ? Hnotin Hrest]; subst. constructor.
  - intros Hin. apply in_map_iff in Hin. destruct Hin as (y & Heq & Hy).
    apply Hnotin. rewrite <- (Hinj y x (or_intror Hy) (or_introl eq_refl) Heq).
    now apply in_map.
  - apply IH; [exact Hrest |]. intros a b Ha Hb. apply Hinj; now right.
Qed.

(** X27. The activity entries have keys of their own: when the events
    have distinct ids and the comments have distinct ids, all safe
    integers, no two entries of the list bear the same [id], an event and
    a comment of the same number included. *)
Theorem activity_entry_ids_unique
  (Date_parse : string -> option Z) (localeCompare : string -> string -> Z)
  (events : list TicketEvent) (comments : list TicketComment) :
  List.NoDup (map event_id events) ->
  List.NoDup (map comment_id comments) ->
  (forall e, In e events -> Js.isSafeInteger (event_id e)) ->
  (forall c, In c comments -> Js.isSafeInteger (comment_id c)) ->
  List.NoDup
    (map entry_id (buildTicketActivityEntries Date_parse localeCompare events comments)).
Proof.
  intros Hevents Hcomments Hsafe_e Hsafe_c. unfold buildTicketActivityEntries.
  set (entries := (List.map eventEntry events ++ List.map commentEntry comments)%list).
  pose proof (EditTicketPanelFacts.sort_perm
                (compareEntries Date_parse localeCompare) entries) as Hperm.
  apply (Permutation_NoDup (Permutation_map entry_id Hperm)).
  unfold entries. rewrite List.map_app, !List.map_map. apply List.NoDup_app.
  - apply (NoDup_map_by event_id); [exact Hevents |].
    intros a b Ha Hb Heq. cbn in Heq. injection Heq as Heq.
    apply numberToString_inj; auto.
  - apply (NoDup_map_by comment_id); [exact Hcomments |].
    intros a b Ha Hb Heq. cbn in Heq. injection Heq as Heq.
    apply numberToString_inj; auto.
  - intros key Hin_e Hin_c.
    apply in_map_iff in Hin_e. destruct Hin_e as (e & <- & _).
    apply in_map_iff in Hin_c. destruct Hin_c as (c & Heq & _).
    cbn in Heq. discriminate Heq.
Qed.

Lemma activity_entry_ids_unique_witness :
  let events := [mkTicketEvent 1 7 "ticket_moved" None EmptyString "2024-01-01T00:00:00Z"] in
  let comments := [mkTicketComment 1 7 "Ada" "Done" "2024-01-02T00:00:00Z"] in
  List.NoDup
    (map entry_id
       (buildTicketActivityEntries (fun _ => None) (fun _ _ => 0%Z) events comments)).
Proof.
  intros events comments.
  apply activity_entry_ids_unique.
  - constructor; [intros [] | constructor].
  - constructor; [intros [] | constructor].
  - intros e [<- | []]. unfold Js.isSafeInteger, Js.MAX_SAFE_INTEGER. simpl. lia.
  - intros c [<- | []]. unfold Js.isSafeInteger, Js.MAX_SAFE_INTEGER. simpl. lia.
Defined.

End EntryFacts.
